(** * Docling CLI: conversion orchestration

    A shallow embedding of the command-line front end under
    [Plugins/Docling/docling/frontend/cli]:

    - [config.py]             : [CLIConfig] (extension table, classification);
    - [utils/file_handler.py] : [FileHandler] (validation, discovery, output
                                path resolution, persistence);
    - [commands/convert.py]   : the single-file [convert] command;
    - [commands/batch.py]     : the [batch] command;
    - [commands/info.py]      : the [scan] and [info] commands;
    - [utils/output_formatter.py] : the counters of the conversion summary.

    The commands are functions of a world (the file system and the room
    left on the device) that return the world they leave together with
    what they report: the records, the counts and the exit code for
    [batch], the way it ends for [convert].  Exceptions are values of a sum
    type.  The converters and the post-processor, which are not part of
    the front end, are records of functions.  In [convert] and [batch] the
    console ([OutputFormatter], the progress bar, [--verbose]) only prints
    and is left out, and so is [processing_time], a difference of wall-clock
    times.

    Python [str] values are modelled by [string], read as the UTF-8 encoding
    of the text.  The characters the program inspects (['/'], ['.'], the glob
    metacharacters and the letters of the extension table) are ASCII, and no
    byte of a multi-byte UTF-8 sequence is ASCII, so the byte-level functions
    below agree with the code-point-level ones of Python on these questions;
    byte-wise order of UTF-8 strings is code-point order, which is the order
    [sorted] uses.  Paths follow the POSIX flavour of [pathlib], [os.path]
    and [glob]. *)

From Stdlib Require Import ZArith NArith Ascii String.
From Stdlib Require QArith_base.
From stdpp Require Import base tactics option list gmap strings sorting pretty.


(** ** Strings *)

Module Str.

(** [s.split(sep)] for a one-character separator. *)
Fixpoint split (sep : ascii) (s : string) : list string :=
  match s with
  | EmptyString => [EmptyString]
  | String c s' =>
      if Ascii.eqb c sep then EmptyString :: split sep s'
      else match split sep s' with
           | h :: t => String c h :: t
           | [] => [String c EmptyString]
           end
  end.

(** [sep.join(l)]. *)
Fixpoint join (sep : string) (l : list string) : string :=
  match l with
  | [] => ""
  | [x] => x
  | x :: l' => x +:+ sep +:+ join sep l'
  end.

(** [c in s]. *)
Fixpoint contains (c : ascii) (s : string) : bool :=
  match s with
  | EmptyString => false
  | String c' s' => Ascii.eqb c' c || contains c s'
  end.

(** [s.startswith(c)] for a single character. *)
Definition starts_with (c : ascii) (s : string) : bool :=
  match s with
  | String c' _ => Ascii.eqb c' c
  | EmptyString => false
  end.

(** [s.endswith(c)] for a single character. *)
Fixpoint ends_with (c : ascii) (s : string) : bool :=
  match s with
  | EmptyString => false
  | String c' EmptyString => Ascii.eqb c' c
  | String _ s' => ends_with c s'
  end.

(** [s.endswith(t)]. *)
Definition has_suffix (t s : string) : bool :=
  let n := String.length s in
  let m := String.length t in
  (m <=? n)%nat && String.eqb (String.substring (n - m) m s) t.

(** [s.lstrip(c)]. *)
Fixpoint lstrip (c : ascii) (s : string) : string :=
  match s with
  | String c' s' => if Ascii.eqb c' c then lstrip c s' else s
  | EmptyString => EmptyString
  end.

(** [s.rstrip(c)]. *)
Fixpoint rstrip (c : ascii) (s : string) : string :=
  match s with
  | String c' s' =>
      let r := rstrip c s' in
      if Ascii.eqb c' c && String.eqb r "" then "" else String c' r
  | EmptyString => EmptyString
  end.

(** [s.rfind(c)]: [None] stands for Python's [-1]. *)
Fixpoint rfind (c : ascii) (s : string) : option nat :=
  match s with
  | EmptyString => None
  | String c' s' =>
      match rfind c s' with
      | Some i => Some (S i)
      | None => if Ascii.eqb c' c then Some 0%nat else None
      end
  end.

(** [s.lower()] on the ASCII letters.  Python lowers non-ASCII letters as
    well; the program compares the lowered suffix only with the ASCII
    entries of the extension table, whose letters (c d l o p s t x) are the
    image under [lower] of no character other than their own upper- and
    lower-case ASCII forms, so the comparison is unaffected. *)
Definition lower_char (c : ascii) : ascii :=
  let n := N_of_ascii c in
  if ((65 <=? n) && (n <=? 90))%N then ascii_of_N (n + 32) else c.

Fixpoint lower (s : string) : string :=
  match s with
  | EmptyString => EmptyString
  | String c s' => String (lower_char c) (lower s')
  end.

(** [s[i:]]. *)
Definition drop (i : nat) (s : string) : string :=
  String.substring i (String.length s - i) s.

(** [s[:i]]. *)
Definition take (i : nat) (s : string) : string :=
  String.substring 0 i s.

(** [s[len(p):]] when [s] starts with [p]. *)
Fixpoint strip_prefix (p s : string) : option string :=
  match p, s with
  | EmptyString, _ => Some s
  | String a p', String b s' =>
      if Ascii.eqb a b then strip_prefix p' s' else None
  | String _ _, EmptyString => None
  end.

End Str.

(** ** [pathlib] (POSIX flavour)

    A [Path] is kept the way [pathlib] keeps it after parsing: a root
    ([""], ["/"] or ["//"]) and the components, from which empty components
    and ["."] have been dropped. *)

Record Path := mkPath { root : string; parts : list string }.

Module PathLib.

(** [_PosixFlavour.splitroot]: exactly two leading slashes are kept as the
    root ["//"], any other number of them is the root ["/"]. *)
Definition splitroot (part : string) : string * string :=
  if Str.starts_with "/" part then
    let stripped := Str.lstrip "/" part in
    if (String.length part - String.length stripped =? 2)%nat
    then ("//", stripped) else ("/", stripped)
  else ("", part).

(** [Path(s)]. *)
Definition parse (s : string) : Path :=
  let '(r, rel) := splitroot s in
  mkPath r (filter (λ x, x ≠ "" ∧ x ≠ ".") (Str.split "/" rel)).

(** [str(p)]. *)
Definition str (p : Path) : string :=
  match parts p with
  | [] => if String.eqb (root p) "" then "." else root p
  | _ => root p +:+ Str.join "/" (parts p)
  end.

(** [p / s]. *)
Definition joinpath (p : Path) (s : string) : Path :=
  let q := parse s in
  if String.eqb (root q) "" then mkPath (root p) (parts p ++ parts q)
  else q.

(** [p.name]. *)
Definition name (p : Path) : string := List.last (parts p) "".

(** [p.parent]. *)
Definition parent (p : Path) : Path :=
  mkPath (root p) (List.removelast (parts p)).

(** [p.suffix] (CPython up to 3.13): the part of the name from its last
    dot, unless that dot is the first or the last character. *)
Definition suffix (p : Path) : string :=
  let nm := name p in
  match Str.rfind "." nm with
  | Some i =>
      if (0 <? i)%nat && (i <? String.length nm - 1)%nat
      then Str.drop i nm else ""
  | None => ""
  end.

(** [p.stem]. *)
Definition stem (p : Path) : string :=
  let nm := name p in
  match Str.rfind "." nm with
  | Some i =>
      if (0 <? i)%nat && (i <? String.length nm - 1)%nat
      then Str.take i nm else nm
  | None => nm
  end.

End PathLib.

Declare Scope path_scope.
Delimit Scope path_scope with path.
Infix "/" := PathLib.joinpath : path_scope.

(** [os.path.join(a, b)]. *)
Definition os_path_join (a b : string) : string :=
  if Str.starts_with "/" b then b
  else if String.eqb a "" || Str.ends_with "/" a then a +:+ b
  else a +:+ "/" +:+ b.

(** [os.path.dirname(p)]. *)
Definition os_path_dirname (p : string) : string :=
  match Str.rfind "/" p with
  | None => ""
  | Some i =>
      let head := Str.take (S i) p in
      if String.eqb (Str.lstrip "/" head) "" then head
      else Str.rstrip "/" head
  end.

(** ** [config.py] *)

Module CLIConfig.

(** The class attribute [SUPPORTED_EXTENSIONS]: a dict, iterated in
    insertion order. *)
Definition SUPPORTED_EXTENSIONS : list (string * list string) :=
  [ ("excel",      [".xlsx"; ".xls"]);
    ("word",       [".docx"; ".doc"]);
    ("powerpoint", [".pptx"; ".ppt"]) ].

Definition OUTPUT_FORMATS : list string := ["markdown"; "html"; "json"].

Definition MAX_FILE_SIZE_MB : N := 100.

Definition get_all_supported_extensions : list string :=
  flat_map snd SUPPORTED_EXTENSIONS.

(** The [for ... in cls.SUPPORTED_EXTENSIONS.items()] loop of
    [detect_document_type]. *)
Fixpoint detect_in (table : list (string * list string)) (file_ext : string)
  : string :=
  match table with
  | [] => "unknown"
  | (doc_type, extensions) :: rest =>
      if bool_decide (file_ext ∈ extensions) then doc_type
      else detect_in rest file_ext
  end.

Definition detect_document_type (file_path : string) : string :=
  let file_ext := Str.lower (PathLib.suffix (PathLib.parse file_path)) in
  detect_in SUPPORTED_EXTENSIONS file_ext.

Definition is_supported_file (file_path : string) : bool :=
  bool_decide (Str.lower (PathLib.suffix (PathLib.parse file_path))
               ∈ get_all_supported_extensions).

End CLIConfig.


(** ** The file system

    A file system is a finite map from path strings, spelled the way
    [str(Path(...))] spells them, to nodes.  The current directory and the
    root always exist.  Relative and absolute spellings of one file are
    different keys, and [".."] is an ordinary component: the model follows
    the spellings the program itself builds, which never mix the two.

    [w_free] is the number of bytes the device still accepts: writing beyond
    it fails with [ENOSPC] after the bytes that fit have been written.
    Permissions are not modelled (every access is permitted). *)

Inductive node := File (data : string) | Dir.

Global Instance node_eq_dec : EqDecision node.
Proof. solve_decision. Defined.

Record world := mkWorld { w_fs : gmap string node; w_free : N }.

Inductive errno := ENOENT | EEXIST | ENOTDIR | EISDIR | ENOSPC.

Global Instance errno_eq_dec : EqDecision errno.
Proof. solve_decision. Defined.

(** The texts the program hands to its exceptions and to the console, one
    constructor per f-string of the source; [Text] carries a text supplied by
    a collaborator and [OSErrorMsg] is [str(e)] of an [OSError]. *)
Inductive message :=
| FileNotFoundMsg (file_path : string)
| NotAFileMsg (file_path : string)
| FileTooLargeMsg (st_size : N)
| UnsupportedTypeMsg (supported_exts : list string)
| NoConverterMsg (doc_type : string)
| JsonNotSupportedMsg (doc_type : string)
| NotImplementedMsg (output_format doc_type : string)
| SaveFailedMsg (output_file : string)
| ConversionFailedMsg (inner : message)
| OSErrorMsg (code : errno) (filename : string)
| UnboundLocalMsg (variable : string)
| Text (s : string).

(** Python exceptions, by class; all of them derive from [Exception].
    [NotImplementedError] and [OtherException] are what a collaborator
    (converter, post-processor) raises to signal a failure. *)
Inductive exn :=
| ValueError (m : message)
| OSError (code : errno) (filename : string)
| UnboundLocalError (variable : string)
| NotImplementedError (text : string)
| OtherException (text : string).

(** [str(e)]. *)
Definition exn_str (e : exn) : message :=
  match e with
  | ValueError m => m
  | OSError c f => OSErrorMsg c f
  | UnboundLocalError v => UnboundLocalMsg v
  | NotImplementedError t => Text t
  | OtherException t => Text t
  end.

(** A computation that returns a value or raises. *)
Definition result (A : Type) : Type := (exn + A)%type.
Definition Raise {A : Type} (e : exn) : result A := inl e.
Definition Return {A : Type} (a : A) : result A := inr a.

Module FS.

(** The node a path names, if any. *)
Definition node_at (w : world) (p : Path) : option node :=
  match parts p with
  | [] => Some Dir
  | _ => w_fs w !! PathLib.str p
  end.

(** [p.exists()], [p.is_file()], [p.is_dir()], [p.stat().st_size]. *)
Definition exists_ (w : world) (p : Path) : bool :=
  bool_decide (is_Some (node_at w p)).

Definition is_file (w : world) (p : Path) : bool :=
  match node_at w p with Some (File _) => true | _ => false end.

Definition is_dir (w : world) (p : Path) : bool :=
  match node_at w p with Some Dir => true | _ => false end.

Definition st_size (w : world) (p : Path) : N :=
  match node_at w p with
  | Some (File d) => N.of_nat (String.length d)
  | _ => 0
  end.

Definition set_node (p : Path) (n : node) (w : world) : world :=
  mkWorld (<[PathLib.str p := n]> (w_fs w)) (w_free w).

(** Resolution of the directories leading to an entry, outermost first:
    the error of the first component that is missing or is not a
    directory. *)
Fixpoint walk_dirs (w : world) (r : string) (seen rest : list string)
  : option errno :=
  match rest with
  | [] => None
  | x :: rest' =>
      match node_at w (mkPath r (seen ++ [x])) with
      | Some Dir => walk_dirs w r (seen ++ [x]) rest'
      | Some (File _) => Some ENOTDIR
      | None => Some ENOENT
      end
  end.

Definition parent_error (w : world) (p : Path) : option errno :=
  walk_dirs w (root p) [] (parts (PathLib.parent p)).

(** [os.mkdir(p)]. *)
Definition os_mkdir (p : Path) (w : world) : result world :=
  match node_at w p with
  | Some _ => Raise (OSError EEXIST (PathLib.str p))
  | None =>
      match parent_error w p with
      | Some code => Raise (OSError code (PathLib.str p))
      | None => Return (set_node p Dir w)
      end
  end.

(** [p.mkdir(parents=False, exist_ok=True)]. *)
Definition mkdir_exist_ok (p : Path) (w : world) : result world :=
  match os_mkdir p w with
  | inr w' => Return w'
  | inl (OSError ENOENT f) => Raise (OSError ENOENT f)
  | inl e => if is_dir w p then Return w else Raise e
  end.

(** [p.mkdir(parents=True, exist_ok=True)], by recursion on the
    components of [p] in reverse: on [FileNotFoundError] the parent is
    created first, then [p] itself. *)
Fixpoint mkdir_parents_rev (r : string) (rev_parts : list string)
    (w : world) : result world :=
  let p := mkPath r (rev rev_parts) in
  match os_mkdir p w with
  | inr w' => Return w'
  | inl (OSError ENOENT f) =>
      match rev_parts with
      | [] => Raise (OSError ENOENT f)
      | _ :: up =>
          match mkdir_parents_rev r up w with
          | inl e => Raise e
          | inr w1 => mkdir_exist_ok p w1
          end
      end
  | inl e => if is_dir w p then Return w else Raise e
  end.

Definition mkdir_parents (p : Path) (w : world) : result world :=
  mkdir_parents_rev (root p) (rev (parts p)) w.

(** [open(path, 'w')]: creates the file, or truncates it. *)
Definition open_w (path : string) (w : world) : result world :=
  let p := PathLib.parse path in
  match node_at w p with
  | Some Dir => Raise (OSError EISDIR path)
  | Some (File d) =>
      Return (mkWorld (<[PathLib.str p := File ""]> (w_fs w))
                      (w_free w + N.of_nat (String.length d)))
  | None =>
      match parent_error w p with
      | Some code => Raise (OSError code path)
      | None => Return (set_node p (File "") w)
      end
  end.

(** [f.write(content)] followed by the close of the [with] block, on a
    file just opened for writing: the bytes that fit are written; when not
    all of them fit the call raises and the world keeps what was
    written. *)
Definition write (path content : string) (w : world) : world * option exn :=
  let p := PathLib.parse path in
  let n := N.of_nat (String.length content) in
  if (n <=? w_free w)%N then
    (mkWorld (<[PathLib.str p := File content]> (w_fs w)) (w_free w - n),
     None)
  else
    (mkWorld (<[PathLib.str p := File (Str.take (N.to_nat (w_free w)) content)]>
                (w_fs w)) 0,
     Some (OSError ENOSPC path)).

End FS.

(** ** [glob]

    [glob.glob] is modelled on the patterns the program builds,
    [<dir>/*<ext>] and, with [recursive=True], [<dir>/**/*<ext>]: [*] matches
    within one name and never a leading dot, [**] stands for any chain of
    directories none of whose names begins with a dot.  A pattern is passed
    as the [Path] whose [str] the program hands to [glob.glob]; its last
    component is the pattern of the name and the components before it make
    up the directory part, as [os.path.split] separates them.

    When the directory given by the user itself contains a metacharacter
    ([*], [?] or [[]), [glob] expands it against the file system first; that
    expansion is the parameter [iglob_magic] (the directories
    [glob._iglob(dirname, ..., dironly=True)] yields). *)

Module Glob.

Definition has_magic (s : string) : bool :=
  Str.contains "*" s || Str.contains "?" s || Str.contains "[" s.

Definition ishidden (name : string) : bool := Str.starts_with "." name.

(** The names [os.scandir] can yield. *)
Definition entry_name (x : string) : bool :=
  negb (String.eqb x "") && negb (Str.contains "/" x)
  && negb (String.eqb x ".") && negb (String.eqb x "..").

(** The prefix that [os.path.join(dirname, _)] puts before a name. *)
Definition dir_prefix (dirname : string) : string :=
  if String.eqb dirname "" || Str.ends_with "/" dirname then dirname
  else dirname +:+ "/".

(** [glob._listdir(dirname, dir_fd, dironly)]: the names of the entries of
    [dirname] (of the current directory when [dirname] is empty); nothing
    when it cannot be scanned. *)
Definition listdir (dirname : string) (dironly : bool) (w : world)
  : list string :=
  if FS.is_dir w (PathLib.parse dirname) then
    omap (λ kn : string * node,
            match Str.strip_prefix (dir_prefix dirname) kn.1 with
            | Some x =>
                if entry_name x
                   && (negb dironly || bool_decide (kn.2 = Dir))
                then Some x else None
            | None => None
            end)
         (map_to_list (w_fs w))
  else [].

(** The non-empty prefixes of a list. *)
Fixpoint prefixes {A : Type} (l : list A) : list (list A) :=
  match l with
  | [] => []
  | x :: l' => [x] :: map (cons x) (prefixes l')
  end.

(** [glob._rlistdir(dirname, dir_fd, dironly=True)]: the relative paths
    [x1/.../xn] of the directories reached from [dirname] through
    directories whose names do not begin with a dot.  The library walks
    the tree; here the same paths are selected among the keys of the file
    system (the order differs, and [os.scandir] fixes none). *)
Definition rlistdir (dirname : string) (w : world) : list string :=
  if FS.is_dir w (PathLib.parse dirname) then
    omap (λ kn : string * node,
            match Str.strip_prefix (dir_prefix dirname) kn.1 with
            | Some rel =>
                let xs := Str.split "/" rel in
                if forallb (λ x, entry_name x && negb (ishidden x)) xs
                   && forallb (λ pre,
                        bool_decide (w_fs w !! (dir_prefix dirname
                                                +:+ Str.join "/" pre)
                                     = Some Dir))
                        (prefixes xs)
                then Some rel else None
            | None => None
            end)
         (map_to_list (w_fs w))
  else [].

(** [glob._glob1(dirname, "*" + tail, dir_fd, dironly=False)] for a
    [tail] without metacharacters: [fnmatch] accepts the names that end
    with [tail]. *)
Definition glob1 (dirname tail : string) (w : world) : list string :=
  filter (λ x, negb (ishidden x) && Str.has_suffix tail x = true)
         (listdir dirname false w).

Section glob.
Variable iglob_magic : string → bool → world → list string.

(** The directories in which the last component is matched. *)
Definition glob_dirs (r : string) (rev_dir : list string)
    (recursive : bool) (w : world) : list string :=
  let dirname := r +:+ Str.join "/" (rev rev_dir) in
  if negb (has_magic dirname) then [dirname]
  else
    match rev_dir with
    | "**" :: rev_top =>
        let top := r +:+ Str.join "/" (rev rev_top) in
        if recursive && negb (has_magic top)
        then map (os_path_join top) ("" :: rlistdir top w)
        else iglob_magic dirname recursive w
    | _ => iglob_magic dirname recursive w
    end.

(** [glob.glob(str(pattern), recursive=recursive)] for a [pattern]
    whose last component is [*] followed by a [tail] without
    metacharacters (the program builds no other). *)
Definition glob_glob (pattern : Path) (recursive : bool) (w : world)
  : list string :=
  match rev (parts pattern) with
  | String "*" tail :: rev_dir =>
      flat_map (λ d, map (os_path_join d) (glob1 d tail w))
               (glob_dirs (root pattern) rev_dir recursive w)
  | _ => []
  end.
End glob.

End Glob.

(** ** [utils/file_handler.py] *)

Module FileHandler.

Import CLIConfig.

Definition validate_input_file (w : world) (file_path : string)
  : bool * message :=
  let path := PathLib.parse file_path in
  if negb (FS.exists_ w path) then (false, FileNotFoundMsg file_path)
  else if negb (FS.is_file w path) then (false, NotAFileMsg file_path)
  else
    (* [st_size / (1024 * 1024) > MAX_FILE_SIZE_MB]: the division by a
       power of two is exact in floating point, so the comparison is the
       one between integers. *)
    if (MAX_FILE_SIZE_MB * (1024 * 1024) <? FS.st_size w path)%N
    then (false, FileTooLargeMsg (FS.st_size w path))
    else if negb (is_supported_file file_path)
    then (false, UnsupportedTypeMsg get_all_supported_extensions)
    else (true, Text "").

Section discovery.
Variable iglob_magic : string → bool → world → list string.

Definition find_files_in_directory (w : world) (directory : string)
    (recursive : bool) : list string :=
  let search_path := PathLib.parse directory in
  if negb (FS.exists_ w search_path) || negb (FS.is_dir w search_path)
  then []
  else
    let extensions := get_all_supported_extensions in
    let supported_files :=
      flat_map
        (λ ext,
           if recursive
           then Glob.glob_glob iglob_magic
                  (search_path / "**" / ("*" +:+ ext))%path true w
           else Glob.glob_glob iglob_magic
                  (search_path / ("*" +:+ ext))%path false w)
        extensions in
    merge_sort String.le supported_files.
End discovery.

(** The [if]/[elif] chain of [create_output_path]. *)
Definition output_ext (output_format : string) : string :=
  if String.eqb output_format "markdown" then ".md"
  else if String.eqb output_format "html" then ".html"
  else if String.eqb output_format "json" then ".json"
  else ".txt".

(** The loop [while output_file.exists(): ...] on its state
    [(output_file, counter)].  The Python loop has no bound; [fuel] is
    set by the caller to the number of entries of the file system, which
    the loop cannot use up: among that many names and one more, all
    different, one is free (lemmas [candidate_free_within] and
    [while_exists_least]). *)
Fixpoint while_exists (fuel : nat) (w : world) (output_path : Path)
    (base_name ext : string) (output_file : Path) (counter : nat) : Path :=
  if FS.exists_ w output_file then
    match fuel with
    | O => output_file
    | S fuel' =>
        while_exists fuel' w output_path base_name ext
          (output_path / (base_name +:+ "_" +:+ pretty counter +:+ ext))%path
          (S counter)
    end
  else output_file.

Definition create_output_path (w : world)
    (input_file output_dir output_format : string) : result (world * string) :=
  let input_path := PathLib.parse input_file in
  let output_path := PathLib.parse output_dir in
  match FS.mkdir_parents output_path w with
  | inl e => Raise e
  | inr w1 =>
      let base_name := PathLib.stem input_path in
      let ext := output_ext output_format in
      let output_file := (output_path / (base_name +:+ ext))%path in
      Return (w1, PathLib.str
                    (while_exists (size (w_fs w1)) w1 output_path
                                  base_name ext output_file 1))
  end.

Definition save_output (w : world) (content output_path : string)
  : world * bool :=
  match FS.open_w output_path w with
  | inl _ => (w, false)
  | inr w1 =>
      match FS.write output_path content w1 with
      | (w2, None) => (w2, true)
      | (w2, Some _) => (w2, false)
      end
  end.

End FileHandler.

(** ** The collaborators

    The converters and the Markdown post-processor live in [docling.backend],
    outside this front end.  A converter reads the document at a path and
    returns a text or raises; [convert_to_json] is an attribute a converter
    class may lack ([hasattr]).  A post-processor function returns a text or
    raises; the two image functions also read the images below
    [base_path]. *)

Record converter := mkConverter {
  convert_to_md : string → world → result string;
  convert_to_html : string → world → result string;
  convert_to_json : option (string → world → result string) }.

Record processor := mkProcessor {
  remove_images : string → result string;
  encode_images_base64 : string → string → world → result string;
  ocr_images : string → string → world → result string;
  convert_plain_math_to_latex : string → result string }.

Record backend := mkBackend {
  ExcelConverter : converter;
  WordConverter : converter;
  PptConverter : converter;
  MarkdownPostProcessor : processor }.

(** The flags shared by [convert] and [batch]. *)
Record options := mkOptions {
  output_format : string;
  output_dir : string;
  opt_remove_images : bool;
  opt_encode_images_base64 : bool;
  opt_ocr_images : bool;
  opt_convert_math_to_latex : bool }.

(** ** [commands/convert.py] and [commands/batch.py] *)

Module Commands.

Import CLIConfig FileHandler.

(** The dict [converters] both commands build. *)
Definition converters (b : backend) : gmap string converter :=
  <["excel" := ExcelConverter b]>
    (<["word" := WordConverter b]>
       (<["powerpoint" := PptConverter b]> ∅)).

(** The post-processing block, which the two commands share word for
    word: [if any([...])], the [if]/[elif]/[elif] chain over the three
    image options, then the separate [if convert_math_to_latex]. *)
Definition post_process (processor : processor) (o : options) (w : world)
    (file_path converted_content : string) : result string :=
  if opt_remove_images o || opt_encode_images_base64 o
     || opt_ocr_images o || opt_convert_math_to_latex o
  then
    let base_path := os_path_dirname file_path in
    match
      (if opt_remove_images o
       then remove_images processor converted_content
       else if opt_encode_images_base64 o
       then encode_images_base64 processor converted_content base_path w
       else if opt_ocr_images o
       then ocr_images processor converted_content base_path w
       else Return converted_content)
    with
    | inl e => Raise e
    | inr converted_content' =>
        if opt_convert_math_to_latex o
        then convert_plain_math_to_latex processor converted_content'
        else Return converted_content'
    end
  else Return converted_content.

(** The Markdown branch: conversion, then post-processing. *)
Definition to_markdown (b : backend) (conv : converter) (o : options)
    (w : world) (file_path : string) : result string :=
  match convert_to_md conv file_path w with
  | inl e => Raise e
  | inr converted_content =>
      post_process (MarkdownPostProcessor b) o w file_path converted_content
  end.

(** *** [batch] *)

(** The [# Perform conversion] block of the loop of [batch]: the value of
    [converted_content] when the block is left, or the exception raised
    in it.  With a format other than the three of the [--format] choice
    no branch assigns the variable, and reading it raises. *)
Definition batch_convert (b : backend) (conv : converter) (o : options)
    (w : world) (file_path doc_type : string) : result string :=
  if String.eqb (output_format o) "markdown"
  then to_markdown b conv o w file_path
  else if String.eqb (output_format o) "html"
  then convert_to_html conv file_path w
  else if String.eqb (output_format o) "json"
  then match convert_to_json conv with
       | None => Raise (ValueError (JsonNotSupportedMsg doc_type))
       | Some to_json => to_json file_path w
       end
  else Raise (UnboundLocalError "converted_content").

(** The body of the [try] block of the loop of [batch], for one file:
    the world it leaves, and the name of the output file or the exception
    that reaches the [except Exception] clause. *)
Definition batch_try (b : backend) (o : options) (w : world)
    (file_path : string) : world * result string :=
  match validate_input_file w file_path with
  | (false, error_msg) => (w, Raise (ValueError error_msg))
  | (true, _) =>
      let doc_type := detect_document_type file_path in
      match converters b !! doc_type with
      | None => (w, Raise (ValueError (NoConverterMsg doc_type)))
      | Some conv =>
          match create_output_path w file_path (output_dir o)
                                   (output_format o) with
          | inl e => (w, Raise e)
          | inr (w1, output_file) =>
              match batch_convert b conv o w1 file_path doc_type with
              | inl e => (w1, Raise e)
              | inr converted_content =>
                  match save_output w1 converted_content output_file with
                  | (w2, true) => (w2, Return output_file)
                  | (w2, false) =>
                      (w2, Raise (ValueError (SaveFailedMsg output_file)))
                  end
              end
          end
      end
  end.

(** One entry of [results]; [processing_time], a wall-clock
    difference, is left out. *)
Record conversion_result := mkResult {
  input_file : string;
  output_file : string;
  success : bool;
  error : option message }.

Definition record_of (file_path : string) (r : result string)
  : conversion_result :=
  let file_name := PathLib.name (PathLib.parse file_path) in
  match r with
  | inr output_file =>
      mkResult file_name (PathLib.name (PathLib.parse output_file)) true None
  | inl e => mkResult file_name "N/A" false (Some (exn_str e))
  end.

(** The [for file_path in files_to_convert] loop, on its state
    [(results, successful_conversions)]; the [break] leaves the loop. *)
Fixpoint batch_loop (b : backend) (o : options) (continue_on_error : bool)
    (files_to_convert : list string) (w : world)
    (results : list conversion_result) (successful_conversions : nat)
  : world * list conversion_result * nat :=
  match files_to_convert with
  | [] => (w, results, successful_conversions)
  | file_path :: rest =>
      match batch_try b o w file_path with
      | (w', inr output_file) =>
          batch_loop b o continue_on_error rest w'
            (results ++ [record_of file_path (inr output_file)])
            (S successful_conversions)
      | (w', inl e) =>
          let results' := results ++ [record_of file_path (inl e)] in
          if continue_on_error
          then batch_loop b o continue_on_error rest w' results'
                          successful_conversions
          else (w', results', successful_conversions)
      end
  end.

(** What a run of [batch] leaves: the world, the records, the two counts
    of the final statistics, whether the list of files was cut to
    [--max-files], and the exit code of the process ([sys.exit(1)], or 0 on
    a normal return). *)
Record batch_outcome := mkOutcome {
  final_world : world;
  results : list conversion_result;
  successful_conversions : nat;
  failed_conversions : nat;
  limited : bool;
  exit_code : Z }.

(** From [# Process files] to the end of [batch]. *)
Definition batch_run (b : backend) (o : options) (continue_on_error : bool)
    (limited : bool) (files_to_convert : list string) (w : world)
  : batch_outcome :=
  let '(w', results, successful) :=
    batch_loop b o continue_on_error files_to_convert w [] 0 in
  let failed := length results - successful in
  mkOutcome w' results successful failed limited
    (if bool_decide (0 < failed) && negb continue_on_error
     then 1%Z else 0%Z).

(** [files_to_convert[:max_files]] for an [int] that may be negative. *)
Definition slice_to {A : Type} (l : list A) (n : Z) : list A :=
  if (n <? 0)%Z then take (Z.to_nat (Z.of_nat (length l) + n)) l
  else take (Z.to_nat n) l.

Definition batch (iglob_magic : string → bool → world → list string)
    (b : backend) (o : options) (w : world) (input_directory : string)
    (recursive : bool) (max_files : Z) (continue_on_error : bool)
  : batch_outcome :=
  let files_to_convert :=
    find_files_in_directory iglob_magic w input_directory recursive in
  match files_to_convert with
  | [] => mkOutcome w [] 0 0 false 0
  | _ =>
      if (max_files <? Z.of_nat (length files_to_convert))%Z
      then batch_run b o continue_on_error true
                     (slice_to files_to_convert max_files) w
      else batch_run b o continue_on_error false files_to_convert w
  end.

(** *** [convert] *)

(** How [convert] ends: normally after the output was saved, by
    [sys.exit(code)] after an error was printed, or by an exception no
    clause of the command catches. *)
Inductive convert_outcome :=
| Converted (output_file : string)
| Exited (code : Z) (printed : message)
| Uncaught (e : exn).

Definition convert (b : backend) (o : options) (w : world)
    (input_file : string) : world * convert_outcome :=
  match validate_input_file w input_file with
  | (false, error_msg) => (w, Exited 1 error_msg)
  | (true, _) =>
      let doc_type := detect_document_type input_file in
      match converters b !! doc_type with
      | None => (w, Exited 1 (NoConverterMsg doc_type))
      | Some conv =>
          (* outside the [try] block *)
          match create_output_path w input_file (output_dir o)
                                   (output_format o) with
          | inl e => (w, Uncaught e)
          | inr (w1, output_file) =>
              let save converted :=
                match converted with
                | inl (NotImplementedError _) =>
                    (w1, Exited 1 (NotImplementedMsg (output_format o) doc_type))
                | inl e => (w1, Exited 1 (ConversionFailedMsg (exn_str e)))
                | inr converted_content =>
                    match save_output w1 converted_content output_file with
                    | (w2, true) => (w2, Converted output_file)
                    | (w2, false) => (w2, Exited 1 (SaveFailedMsg output_file))
                    end
                end in
              if String.eqb (output_format o) "markdown"
              then save (to_markdown b conv o w1 input_file)
              else if String.eqb (output_format o) "html"
              then save (convert_to_html conv input_file w1)
              else if String.eqb (output_format o) "json"
              then match convert_to_json conv with
                   | None => (w1, Exited 1 (JsonNotSupportedMsg doc_type))
                   | Some to_json => save (to_json input_file w1)
                   end
              else save (Raise (UnboundLocalError "converted_content"))
          end
      end
  end.

End Commands.

(** * Specification-level definitions *)

Import CLIConfig FileHandler Commands.

(** ** Paths *)

(** A string that parses to a single component. *)
Definition simple_name (x : string) : Prop :=
  x ≠ "" ∧ x ≠ "." ∧ Str.contains "/" x = false.

(** What [str] puts before the last component. *)
Definition path_prefix (r : string) (ps : list string) : string :=
  r +:+ match ps with [] => "" | _ => Str.join "/" ps +:+ "/" end.

(** A path as [pathlib] keeps it: one of the three roots, and components
    that are not empty, not ["."] and hold no separator. *)
Definition wf_path (p : Path) : Prop :=
  root p ∈ [""; "/"; "//"] ∧ Forall simple_name (parts p).

(** ** Output paths *)

(** What a successful [p.mkdir(parents=True, exist_ok=True)] changes:
    nothing is removed or altered, and what is added is a directory at [p]
    or above it. *)
Definition creates_dirs (p : Path) (w w' : world) : Prop :=
  w_free w' = w_free w
  ∧ ∀ k, w_fs w' !! k = w_fs w !! k
         ∨ (w_fs w !! k = None ∧ w_fs w' !! k = Some Dir
            ∧ ∃ n, k = PathLib.str (mkPath (root p) (take n (parts p)))).

(** The names [create_output_path] tries, in order: [base + ext], then
    [base_1 + ext], [base_2 + ext], ... *)
Definition candidate_name (base_name ext : string) (k : nat) : string :=
  match k with
  | O => base_name +:+ ext
  | S _ => base_name +:+ "_" +:+ pretty k +:+ ext
  end.

(** The k-th path tried for an input file, an output directory and a
    format. *)
Definition candidate (input_file output_dir output_format : string)
    (k : nat) : Path :=
  (PathLib.parse output_dir
   / candidate_name (PathLib.stem (PathLib.parse input_file))
                    (output_ext output_format) k)%path.




(** ** Discovery *)

(** The directory part of the patterns built from a search path, as
    [os.path.split] cuts it off [str(search_path / "*.ext")]. *)
Definition glob_dirname (p : Path) : string :=
  root p +:+ Str.join "/" (parts p).

(** A name [*] can match: the name of an entry, not beginning with a
    dot. *)
Definition visible (x : string) : Prop :=
  Glob.entry_name x = true ∧ Glob.ishidden x = false.

(** [xs] names a chain of directories below [top], each with a visible
    name: [top/x1], [top/x1/x2], ... are directories. *)
Definition dir_chain (w : world) (top : string) (xs : list string) : Prop :=
  Forall visible xs
  ∧ ∀ n, 0 < n ≤ length xs →
         w_fs w !! (Glob.dir_prefix top +:+ Str.join "/" (take n xs))
         = Some Dir.

(** What discovery below [top] returns: the entries (files or
    directories) with a visible name ending in one of the supported
    extensions, directly in [top] or, when [recursive], at the end of a
    chain of visible directories. *)
Definition discovered (w : world) (top : string) (recursive : bool)
    (r : string) : Prop :=
  ∃ xs name ext,
    r = Glob.dir_prefix top +:+ Str.join "/" (xs ++ [name])
    ∧ (recursive = false → xs = [])
    ∧ dir_chain w top xs
    ∧ visible name
    ∧ is_Some (w_fs w !! r)
    ∧ ext ∈ get_all_supported_extensions
    ∧ Str.has_suffix ext name = true.

(** ** Post-processing *)

(** The policy of the specification, in its words: of the three image
    options the first selected, in the order remove / encode / OCR, names
    the only image transform applied; the math transform, when selected, is
    applied to what that step returned. *)
Inductive image_option := RemoveImages | EncodeImagesBase64 | OcrImages.

Definition selected_image_options (o : options) : list image_option :=
  (if opt_remove_images o then [RemoveImages] else [])
  ++ (if opt_encode_images_base64 o then [EncodeImagesBase64] else [])
  ++ (if opt_ocr_images o then [OcrImages] else []).

Definition image_transform (processor : processor) (w : world)
    (base_path : string) (i : image_option) (content : string)
  : result string :=
  match i with
  | RemoveImages => remove_images processor content
  | EncodeImagesBase64 => encode_images_base64 processor content base_path w
  | OcrImages => ocr_images processor content base_path w
  end.

Definition post_processing_policy (processor : processor) (o : options)
    (w : world) (file_path content : string) : result string :=
  let primary :=
    match selected_image_options o with
    | highest :: _ =>
        image_transform processor w (os_path_dirname file_path) highest content
    | [] => Return content
    end in
  match primary with
  | inl e => Raise e
  | inr content' =>
      if opt_convert_math_to_latex o
      then convert_plain_math_to_latex processor content'
      else Return content'
  end.

(** The outcomes of the files of a list, each attempted in the world its
    predecessors left. *)
Fixpoint attempt_all (b : backend) (o : options) (files : list string)
    (w : world) : world * list (result string) :=
  match files with
  | [] => (w, [])
  | file_path :: rest =>
      let '(w', r) := batch_try b o w file_path in
      let '(w'', rs) := attempt_all b o rest w' in
      (w'', r :: rs)
  end.

Definition succeeded (r : result string) : bool :=
  match r with inr _ => true | inl _ => false end.

Definition records (files : list string) (rs : list (result string))
  : list conversion_result :=
  zip_with record_of files rs.

(** ** A sample installation

    A small world and stand-in collaborators, on which the statements below
    are exercised: an Excel converter with the JSON capability that fails
    on one corrupt workbook, Word and PowerPoint converters without it, and
    a post-processor whose transforms mark the text they were given. *)

Module Sample.

Definition fs : gmap string node :=
  list_to_map
    [ ("docs", Dir); ("docs/sub", Dir); ("docs/.cache", Dir);
      ("docs/a.xlsx", File "PK-a"); ("docs/b.docx", File "PK-b");
      ("docs/bad.xls", File "??"); ("docs/sub/c.pptx", File "PK-c");
      ("docs/REPORT.XLSX", File "PK-r"); ("docs/.draft.xlsx", File "PK-d");
      ("docs/.cache/old.xlsx", File "PK-o"); ("notes.txt", File "n") ].

Definition w : world := mkWorld fs 1000.

Definition excel : converter :=
  mkConverter
    (λ p _, if String.eqb p "docs/bad.xls"
            then Raise (OtherException "corrupt workbook")
            else Return ("# " +:+ p))
    (λ p _, Return ("<h1>" +:+ p +:+ "</h1>"))
    (Some (λ p _, Return "{}")).

Definition office : converter :=
  mkConverter (λ p _, Return ("# " +:+ p))
              (λ p _, Return ("<h1>" +:+ p +:+ "</h1>")) None.

Definition marks : processor :=
  mkProcessor (λ c, Return ("[no-img]" +:+ c))
              (λ c _ _, Return ("[b64]" +:+ c))
              (λ c _ _, Return ("[ocr]" +:+ c))
              (λ c, Return ("[tex]" +:+ c)).

Definition b : backend := mkBackend excel office office marks.

Definition markdown : options :=
  mkOptions "markdown" "out" false false false false.

Definition json : options :=
  mkOptions "json" "out" false false false false.

(** No directory name with metacharacters occurs in the samples. *)
Definition no_magic : string → bool → world → list string := λ _ _ _, [].

(** [w] after [out] was created. *)
Definition w_out : world := mkWorld (<["out" := Dir]> fs) 1000.

(** [w_out] with two converted files already in [out]. *)
Definition w_taken : world :=
  mkWorld (<["out/a.md" := File "# a"]>
             (<["out/a_1.md" := File "# a, again"]> (w_fs w_out))) 1000.

(** A device with room for three more bytes. *)
Definition w_full : world := mkWorld (w_fs w_out) 3.

(** A directory with a workbook, a hidden workbook, and a directory whose
    name ends like a workbook's. *)
Definition w_odd : world :=
  mkWorld (list_to_map
             [ ("in", Dir); ("in/a.xlsx", File "PK-a");
               ("in/.draft.xlsx", File "PK-d"); ("in/old.xlsx", Dir) ])
          1000.

End Sample.


(** * The rest of the front end

    [FileHandler.get_file_info], the counting loop of
    [OutputFormatter.print_conversion_summary], and the [scan] and [info]
    commands of [commands/info.py].  What the commands print is kept as a
    list of lines, one constructor per call of the formatter. *)

(** ** [pathlib] and [os.stat], continued *)

(** [p.absolute()], where [cwd] is what [os.getcwd()] returns: a path with
    a root is returned as it is, any other is put below the current
    directory. *)
Definition absolute (cwd : string) (p : Path) : Path :=
  if String.eqb (root p) ""
  then mkPath (root (PathLib.parse cwd))
              (parts (PathLib.parse cwd) ++ parts p)
  else p.

(** [p.stat().st_size] for any kind of entry.  The size reported for a
    directory depends on the file system and is the parameter
    [st_size_dir]. *)
Definition stat_st_size (st_size_dir : Path → N) (w : world) (p : Path) : N :=
  match FS.node_at w p with
  | Some Dir => st_size_dir p
  | _ => FS.st_size w p
  end.

(** ** [utils/file_handler.py], continued *)

(** The dict [get_file_info] returns when the path exists.  [size_mb] is
    [st_size / (1024 * 1024)], kept as the exact quotient (the float
    division by a power of two is exact for sizes below 2^53). *)
Module FileInfo.
Record t := mk {
  name : string;
  size_bytes : N;
  size_mb : QArith_base.Q;
  type : string;
  extension : string;
  absolute_path : string }.
End FileInfo.

(** [None] stands for the empty dict [{}]. *)
Definition get_file_info (cwd : string) (st_size_dir : Path → N)
    (w : world) (file_path : string) : option FileInfo.t :=
  let path := PathLib.parse file_path in
  if negb (FS.exists_ w path) then None
  else
    let st_size := stat_st_size st_size_dir w path in
    Some (FileInfo.mk
            (PathLib.name path)
            st_size
            (QArith_base.Qmake (Z.of_N st_size) (1024 * 1024))
            (detect_document_type file_path)
            (Str.lower (PathLib.suffix path))
            (PathLib.str (absolute cwd path))).

(** ** [utils/output_formatter.py] *)

(** A row of the summary table: file, status, output.  The fourth
    column shows [processing_time]. *)
Definition summary_row : Type := string * bool * string.

(** The [for result in results] loop of [print_conversion_summary], on its
    state: the rows added to the table and the counters [successful] and
    [failed].  The entries the callers pass have all the keys the loop
    reads, so that no default of [result.get] is used. *)
Fixpoint summary_loop (results : list conversion_result)
    (rows : list summary_row) (successful failed : nat)
  : list summary_row * nat * nat :=
  match results with
  | [] => (rows, successful, failed)
  | result :: rest =>
      if success result
      then summary_loop rest
             (rows ++ [(input_file result, true, output_file result)])
             (S successful) failed
      else summary_loop rest
             (rows ++ [(input_file result, false, output_file result)])
             successful (S failed)
  end.

(** What [print_conversion_summary] shows: the table, then
    [successful], [failed] and [total] in the summary line. *)
Definition print_conversion_summary (results : list conversion_result)
  : list summary_row * nat * nat * nat :=
  let '(rows, successful, failed) := summary_loop results [] 0 0 in
  (rows, successful, failed, length results).

(** ** [commands/info.py] *)

Module Info.

(** *** [scan] *)

(** The dict [files_by_type] as [scan] creates it. *)
Definition files_by_type_init : gmap string (list string) :=
  <["excel" := []]> (<["word" := []]> (<["powerpoint" := []]> ∅)).

(** The loop [for file_path in files] on its state
    [(files_by_type, total_size)]; [inl doc_type] is the [KeyError] of
    [files_by_type[doc_type]]. *)
Fixpoint scan_loop (cwd : string) (st_size_dir : Path → N) (w : world)
    (files : list string) (files_by_type : gmap string (list string))
    (total_size : N) : string + gmap string (list string) * N :=
  match files with
  | [] => inr (files_by_type, total_size)
  | file_path :: rest =>
      let doc_type := detect_document_type file_path in
      match files_by_type !! doc_type with
      | None => inl doc_type
      | Some type_files =>
          let file_info := get_file_info cwd st_size_dir w file_path in
          scan_loop cwd st_size_dir w rest
            (<[doc_type := type_files ++ [file_path]]> files_by_type)
            (total_size + from_option FileInfo.size_bytes 0%N file_info)
      end
  end.

(** How [scan] ends: with the warning that nothing was found, with a
    [KeyError], or with the summary of what it found, of which the list of
    files, the groups and the total size are kept. *)
Inductive scan_outcome :=
| NoSupportedFiles
| KeyError (doc_type : string)
| Scanned (files : list string)
          (files_by_type : gmap string (list string)) (total_size : N).

Definition scan (iglob_magic : string → bool → world → list string)
    (cwd : string) (st_size_dir : Path → N) (w : world)
    (directory : string) (recursive : bool) : scan_outcome :=
  let files := find_files_in_directory iglob_magic w directory recursive in
  match files with
  | [] => NoSupportedFiles
  | _ =>
      match scan_loop cwd st_size_dir w files files_by_type_init 0 with
      | inl doc_type => KeyError doc_type
      | inr (files_by_type, total_size) =>
          Scanned files files_by_type total_size
      end
  end.

(** *** [info] *)

(** What [info] hands to the formatter: the literal texts, and the
    f-strings with what they interpolate. *)
Inductive text :=
| Literal (s : string)
| TypeSupportedText
| TypeNotSupportedText
| AvailableFormatsText (available_formats : list string)
| SupportedExtensionsText (supported_exts : list string).

(** The calls of the formatter, one constructor per method;
    [console_print] is the empty line of [formatter.console.print()]. *)
Inductive line :=
| print_banner
| print_header (title : string)
| print_info (t : text)
| print_success (t : text)
| print_warning (t : text)
| print_error (m : message)
| print_file_info (file_info : option FileInfo.t)
| print_supported_formats
| print_usage_examples
| console_print.

(** The truth value of [file_path], the argument of [--file]: [None] when
    the option was not given. *)
Definition truthy (file_path : option string) : bool :=
  match file_path with
  | Some s => negb (String.eqb s "")
  | None => false
  end.

(** The [# Show file information] block for a given file; the second
    component tells whether the command returns from inside it. *)
Definition info_file (cwd : string) (st_size_dir : Path → N) (w : world)
    (file_path : string) : list line * bool :=
  match validate_input_file w file_path with
  | (false, error_msg) =>
      ([print_header "File Information"; print_error error_msg], true)
  | (true, _) =>
      let file_info := get_file_info cwd st_size_dir w file_path in
      ([print_header "File Information"; print_file_info file_info]
       ++ (if is_supported_file file_path
           then
             let doc_type := detect_document_type file_path in
             let available_formats :=
               ["markdown"; "html"]
               ++ (if String.eqb doc_type "excel" then ["json"] else []) in
             [print_success TypeSupportedText;
              print_info (AvailableFormatsText available_formats)]
           else
             [print_warning TypeNotSupportedText;
              print_info (SupportedExtensionsText
                            get_all_supported_extensions)])
       ++ [console_print], false)
  end.

Definition info (cwd : string) (st_size_dir : Path → N) (w : world)
    (show_formats show_examples : bool) (file_path : option string)
  : list line :=
  if negb (show_formats || show_examples || truthy file_path)
  then [print_banner;
        print_info (Literal "Docling CLI - Document Conversion Tool");
        print_info
          (Literal ("Convert Excel, Word, and PowerPoint documents "
                    +:+ "to various formats."));
        print_info (Literal "");
        print_info
          (Literal "Use 'docling info --help' to see available options.");
        print_info (Literal "Use 'docling --help' to see all commands.")]
  else
    let formats :=
      if show_formats
      then [print_header "Supported Formats"; print_supported_formats;
            console_print]
      else [] in
    let examples :=
      if show_examples
      then [print_header "Usage Examples"; print_usage_examples]
      else [] in
    match file_path with
    | Some file_path' =>
        if truthy file_path
        then
          let '(lines, returned) := info_file cwd st_size_dir w file_path' in
          if returned then formats ++ lines
          else formats ++ lines ++ examples
        else formats ++ examples
    | None => formats ++ examples
    end.

End Info.

(** ** Well-formed worlds *)

(** Every entry lies in a directory: the components leading to it are
    directories.  The file systems the program runs on are of this
    kind. *)
Definition wf_world (w : world) : Prop :=
  map_Forall (λ k _, FS.parent_error w (PathLib.parse k) = None) (w_fs w).

Global Instance wf_world_dec (w : world) : Decision (wf_world w).
Proof. unfold wf_world. apply _. Defined.

(** ** The footprint of a command *)

(** What a command that writes to [output_dir] may change: every entry of
    [w] is in [w'] as it was, and any other entry of [w'] is a directory at
    [output_dir] or above it, or a file directly in [output_dir]. *)
Definition writes_below (output_dir : string) (w w' : world) : Prop :=
  let p := PathLib.parse output_dir in
  ∀ k, w_fs w' !! k = w_fs w !! k
       ∨ (w_fs w !! k = None ∧ w_fs w' !! k = Some Dir
          ∧ ∃ n, k = PathLib.str (mkPath (root p) (take n (parts p))))
       ∨ (w_fs w !! k = None
          ∧ ∃ x data, simple_name x
              ∧ k = path_prefix (root p) (parts p) +:+ x
              ∧ w_fs w' !! k = Some (File data)).

(** * Properties *)

(** Membership in an explicit list, and its inversion. *)
Ltac list_in :=
  repeat first [apply list_elem_of_here | apply list_elem_of_further].

Ltac list_inv H :=
  repeat (apply elem_of_cons in H as [H|H]); [..|by apply elem_of_nil in H].

(** ** Strings *)

Lemma app_cons (c : ascii) (s t : string) :
  String c s +:+ t = String c (s +:+ t).
Proof. reflexivity. Qed.

Lemma app_empty_l (t : string) : "" +:+ t = t.
Proof. reflexivity. Qed.

Lemma app_empty_r (s : string) : s +:+ "" = s.
Proof. induction s as [|c s IH]; [done|]. by rewrite app_cons, IH. Qed.

Lemma app_assoc_str (s t u : string) : (s +:+ t) +:+ u = s +:+ (t +:+ u).
Proof. induction s as [|c s IH]; [done|]. by rewrite !app_cons, IH. Qed.

Lemma length_app_str (s t : string) :
  String.length (s +:+ t) = String.length s + String.length t.
Proof. induction s as [|c s IH]; [done|]. rewrite app_cons. cbn -[Ascii.eqb String.append]. by rewrite IH. Qed.

Lemma app_eq_empty (s t : string) : s +:+ t = "" → s = "" ∧ t = "".
Proof. destruct s; [done|]. rewrite app_cons. discriminate. Qed.

Lemma contains_app (c : ascii) (s t : string) :
  Str.contains c (s +:+ t) = Str.contains c s || Str.contains c t.
Proof.
  induction s as [|a s IH]; [done|]. rewrite app_cons. cbn -[Ascii.eqb String.append].
  by rewrite IH, orb_assoc.
Qed.

Lemma starts_with_app (c : ascii) (s t : string) :
  s ≠ "" → Str.starts_with c (s +:+ t) = Str.starts_with c s.
Proof. by destruct s. Qed.

Lemma starts_with_contains (c : ascii) (s : string) :
  Str.starts_with c s = true → Str.contains c s = true.
Proof. destruct s as [|a s]; [done|]. cbn -[Ascii.eqb String.append]. intros ->. done. Qed.

Lemma ends_with_app (c : ascii) (s t : string) :
  t ≠ "" → Str.ends_with c (s +:+ t) = Str.ends_with c t.
Proof.
  intros Ht. induction s as [|a s IH]; [done|]. rewrite app_cons.
  cbn -[Ascii.eqb String.append]. rewrite IH.
  destruct (s +:+ t) eqn:E; [|done]. apply app_eq_empty in E as [_ ?]. done.
Qed.

Lemma ends_with_snoc (c : ascii) (s : string) :
  Str.ends_with c (s +:+ String c "") = true.
Proof. rewrite ends_with_app by done. cbn -[Ascii.eqb String.append]. apply Ascii.eqb_refl. Qed.

(** *** [split] and [join] *)

Lemma split_nonempty (sep : ascii) (s : string) : Str.split sep s ≠ [].
Proof.
  induction s as [|c s IH]; [done|]. cbn -[Ascii.eqb String.append].
  destruct (Ascii.eqb c sep); [done|]. by destruct (Str.split sep s).
Qed.

Lemma split_app_sep (sep : ascii) (a b : string) :
  Str.split sep (a +:+ String sep b) = Str.split sep a ++ Str.split sep b.
Proof.
  induction a as [|c a IH].
  - rewrite app_empty_l. cbn -[Ascii.eqb String.append].
    by rewrite Ascii.eqb_refl.
  - rewrite app_cons. cbn -[Ascii.eqb String.append]. rewrite IH.
    destruct (Ascii.eqb c sep); [done|].
    pose proof (split_nonempty sep a). by destruct (Str.split sep a).
Qed.

Lemma split_no_sep (sep : ascii) (s : string) :
  Str.contains sep s = false → Str.split sep s = [s].
Proof.
  induction s as [|c s IH]; [done|]. cbn -[Ascii.eqb String.append].
  intros [Hc Hs]%orb_false_elim. by rewrite Hc, IH.
Qed.

Lemma split_parts_no_sep (sep : ascii) (s x : string) :
  x ∈ Str.split sep s → Str.contains sep x = false.
Proof.
  revert x. induction s as [|c s IH]; intros x; cbn -[Ascii.eqb String.append].
  - intros Hx. list_inv Hx. by subst.
  - destruct (Ascii.eqb c sep) eqn:Hc.
    + intros Hx. apply elem_of_cons in Hx as [->|Hx]; [done|]. by apply IH.
    + pose proof (split_nonempty sep s).
      destruct (Str.split sep s) as [|h t]; [done|].
      intros Hx. apply elem_of_cons in Hx as [->|Hx].
      * cbn -[Ascii.eqb String.append]. rewrite Hc. apply IH. list_in.
      * apply IH. by apply list_elem_of_further.
Qed.

Lemma join_cons (sep x : string) (l : list string) :
  l ≠ [] → Str.join sep (x :: l) = x +:+ sep +:+ Str.join sep l.
Proof. by destruct l. Qed.

Lemma join_snoc (sep : string) (l : list string) (a : string) :
  Str.join sep (l ++ [a])
  = match l with [] => "" | _ => Str.join sep l +:+ sep end +:+ a.
Proof.
  induction l as [|x l IH]; [done|].
  change ((x :: l) ++ [a]) with (x :: (l ++ [a])).
  rewrite join_cons by (by destruct l). rewrite IH.
  destruct l as [|y l].
  - rewrite app_empty_l. cbn [Str.join]. by rewrite app_assoc_str.
  - rewrite (join_cons sep x (y :: l)) by done.
    by rewrite !app_assoc_str.
Qed.

Lemma join_split (sep : ascii) (s : string) :
  Str.join (String sep "") (Str.split sep s) = s.
Proof.
  induction s as [|c s IH]; [done|]. cbn -[Ascii.eqb String.append].
  destruct (Ascii.eqb_spec c sep) as [->|Hne].
  - rewrite join_cons by apply split_nonempty. by rewrite IH.
  - pose proof (split_nonempty sep s).
    destruct (Str.split sep s) as [|h t]; [done|].
    destruct t as [|h' t].
    + cbn -[Ascii.eqb String.append] in *. by rewrite IH.
    + rewrite join_cons by done. rewrite join_cons in IH by done.
      rewrite app_cons. by rewrite IH.
Qed.

Lemma split_join (sep : ascii) (l : list string) :
  l ≠ [] → Forall (λ x, Str.contains sep x = false) l →
  Str.split sep (Str.join (String sep "") l) = l.
Proof.
  induction l as [|x l IH]; [done|]. intros _ Hall.
  apply Forall_cons in Hall as [Hx Hl].
  destruct l as [|y l].
  - cbn -[Ascii.eqb String.append]. by apply split_no_sep.
  - rewrite join_cons by done. rewrite app_cons, app_empty_l, split_app_sep.
    rewrite (split_no_sep _ _ Hx). rewrite IH by done. done.
Qed.

(** *** Prefixes and suffixes *)

Lemma strip_prefix_Some (p s x : string) :
  Str.strip_prefix p s = Some x ↔ s = p +:+ x.
Proof.
  revert s. induction p as [|a p IH]; intros s.
  - rewrite app_empty_l. cbn. split; [by intros [= ->] | by intros ->].
  - rewrite app_cons. destruct s as [|b s]; cbn -[Ascii.eqb]; [done|].
    destruct (Ascii.eqb_spec a b) as [->|Hne].
    + rewrite IH. split; [by intros -> | by intros [= ->]].
    + split; [done|]. by intros [= -> _].
Qed.

Lemma substring_0_app (s t : string) :
  String.substring 0 (String.length s) (s +:+ t) = s.
Proof.
  induction s as [|a s IH]; [by destruct t|]. rewrite app_cons. cbn -[Ascii.eqb String.append].
  by rewrite IH.
Qed.

Lemma substring_skip_app (s t : string) (n : nat) :
  String.substring (String.length s) n (s +:+ t) = String.substring 0 n t.
Proof. induction s as [|a s IH]; [done|]. rewrite app_cons. by cbn -[Ascii.eqb String.append]. Qed.

Lemma substring_all (s : string) :
  String.substring 0 (String.length s) s = s.
Proof. induction s as [|a s IH]; [done|]. cbn -[Ascii.eqb String.append]. by rewrite IH. Qed.

Lemma drop_app (s t : string) : Str.drop (String.length s) (s +:+ t) = t.
Proof.
  unfold Str.drop. rewrite substring_skip_app, length_app_str.
  replace (String.length s + String.length t - String.length s)
    with (String.length t) by lia.
  apply substring_all.
Qed.

Lemma substring_split (s : string) (n : nat) :
  n ≤ String.length s →
  s = String.substring 0 n s
      +:+ String.substring n (String.length s - n) s.
Proof.
  revert n. induction s as [|a s IH]; intros [|n] Hn; cbn -[Ascii.eqb String.append] in *; try lia.
  - done.
  - by rewrite substring_all.
  - rewrite app_cons. f_equal. apply IH. lia.
Qed.

Lemma has_suffix_true (t s : string) :
  Str.has_suffix t s = true → ∃ p, s = p +:+ t.
Proof.
  unfold Str.has_suffix. intros [Hle Heq]%andb_true_iff.
  apply Nat.leb_le in Hle. apply String.eqb_eq in Heq.
  exists (String.substring 0 (String.length s - String.length t) s).
  assert (Hlen : String.length t
                 = String.length s - (String.length s - String.length t))
    by lia.
  rewrite Hlen in Heq at 2. rewrite <- Heq at 2.
  apply substring_split. lia.
Qed.

Lemma has_suffix_app (p t : string) : Str.has_suffix t (p +:+ t) = true.
Proof.
  unfold Str.has_suffix. rewrite length_app_str.
  apply andb_true_iff. split; [apply Nat.leb_le; lia|].
  apply String.eqb_eq.
  replace (String.length p + String.length t - String.length t)
    with (String.length p) by lia.
  rewrite substring_skip_app. apply substring_all.
Qed.

Lemma contains_substring (c : ascii) (s : string) (i n : nat) :
  Str.contains c s = false → Str.contains c (String.substring i n s) = false.
Proof.
  revert i n. induction s as [|a s IH]; intros i n.
  - by destruct i, n.
  - intros H.
    change (Ascii.eqb a c || Str.contains c s = false) in H.
    apply orb_false_elim in H as [Ha Hs].
    destruct i as [|i]; [destruct n as [|n]|].
    + done.
    + change (Ascii.eqb a c
              || Str.contains c (String.substring 0 n s) = false).
      by rewrite Ha, IH.
    + by apply IH.
Qed.

Lemma rfind_app (c : ascii) (s t : string) :
  Str.rfind c (s +:+ t)
  = match Str.rfind c t with
    | Some i => Some (String.length s + i)
    | None => Str.rfind c s
    end.
Proof.
  induction s as [|a s IH];
    [rewrite app_empty_l; by destruct (Str.rfind c t)|].
  rewrite app_cons. cbn -[Ascii.eqb String.append]. rewrite IH.
  by destruct (Str.rfind c t).
Qed.

(** ** Decimal numerals *)

Lemma pretty_N_go_no_slash (x : N) (s : string) :
  Str.contains "/" s = false → Str.contains "/" (pretty_N_go x s) = false.
Proof.
  revert s. induction (N.lt_wf_0 x) as [x _ IH]; intros s Hs.
  assert (x = 0 ∨ 0 < x)%N as [->|?] by lia.
  - by rewrite pretty_N_go_0.
  - rewrite pretty_N_go_step by done. apply IH.
    { by apply N.div_lt. }
    change (Ascii.eqb (pretty_N_char (x `mod` 10)) "/"
            || Str.contains "/" s = false).
    rewrite Hs. unfold pretty_N_char. by repeat case_match.
Qed.

Lemma pretty_nat_no_slash (n : nat) : Str.contains "/" (pretty n) = false.
Proof.
  unfold pretty, pretty_nat, pretty, pretty_N.
  case_decide; [done|]. by apply pretty_N_go_no_slash.
Qed.

(** ** Paths *)

Lemma parse_simple (x : string) :
  simple_name x → PathLib.parse x = mkPath "" [x].
Proof.
  intros (Hne & Hdot & Hslash). unfold PathLib.parse, PathLib.splitroot.
  destruct (Str.starts_with "/" x) eqn:Hs.
  { apply starts_with_contains in Hs. congruence. }
  rewrite (split_no_sep _ _ Hslash). f_equal.
  rewrite filter_cons_True by done. done.
Qed.

Lemma joinpath_simple (p : Path) (x : string) :
  simple_name x → (p / x)%path = mkPath (root p) (parts p ++ [x]).
Proof. intros Hx. unfold PathLib.joinpath. by rewrite (parse_simple x Hx). Qed.

Lemma str_snoc (r : string) (ps : list string) (a : string) :
  PathLib.str (mkPath r (ps ++ [a])) = path_prefix r ps +:+ a.
Proof.
  unfold PathLib.str, path_prefix. cbn [parts root].
  destruct (ps ++ [a]) eqn:E; [by destruct ps|]. rewrite <- E.
  by rewrite join_snoc, app_assoc_str.
Qed.

Lemma parts_snoc_nonempty (ps : list string) (a : string) : ps ++ [a] ≠ [].
Proof. by destruct ps. Qed.

(** The components of a parsed path contain no separator. *)
Lemma parse_parts_no_sep (s x : string) :
  x ∈ parts (PathLib.parse s) → Str.contains "/" x = false.
Proof.
  unfold PathLib.parse. destruct (PathLib.splitroot s) as [r rel].
  cbn [parts]. intros [_ Hx]%list_elem_of_filter.
  by eapply split_parts_no_sep.
Qed.

Lemma name_no_sep (s : string) :
  Str.contains "/" (PathLib.name (PathLib.parse s)) = false.
Proof.
  unfold PathLib.name.
  destruct (parts (PathLib.parse s)) as [|x l] eqn:E using rev_ind; [done|].
  rewrite last_last. apply (parse_parts_no_sep s). rewrite E.
  apply elem_of_app. right. list_in.
Qed.

Lemma stem_no_sep (s : string) :
  Str.contains "/" (PathLib.stem (PathLib.parse s)) = false.
Proof.
  unfold PathLib.stem. pose proof (name_no_sep s) as H.
  destruct (Str.rfind "." (PathLib.name (PathLib.parse s))); [|done].
  case_match; [|done]. by apply contains_substring.
Qed.

(** The suffixes [create_output_path] appends. *)
Lemma output_ext_cases (output_format : string) :
  output_ext output_format ∈ [".md"; ".html"; ".json"; ".txt"].
Proof. unfold output_ext. repeat case_match; list_in. Qed.

Lemma simple_name_app (a e : string) :
  Str.contains "/" a = false → Str.contains "/" e = false →
  2 ≤ String.length e → simple_name (a +:+ e).
Proof.
  intros Ha He Hlen. split; [|split].
  - intros [_ ->]%app_eq_empty. cbn in Hlen. lia.
  - intros H. apply (f_equal String.length) in H.
    rewrite length_app_str in H. cbn in H. lia.
  - by rewrite contains_app, Ha, He.
Qed.

Lemma candidate_simple (input_file output_format : string) :
  simple_name (PathLib.stem (PathLib.parse input_file)
               +:+ output_ext output_format).
Proof.
  pose proof (output_ext_cases output_format) as H.
  apply simple_name_app; [apply stem_no_sep|..];
    list_inv H; rewrite H; cbn; (done || lia).
Qed.

Lemma numbered_simple (input_file output_format : string) (counter : nat) :
  simple_name (PathLib.stem (PathLib.parse input_file) +:+ "_"
               +:+ pretty counter +:+ output_ext output_format).
Proof.
  pose proof (output_ext_cases output_format) as H.
  rewrite <- !app_assoc_str. apply simple_name_app.
  - rewrite !contains_app, stem_no_sep, pretty_nat_no_slash. done.
  - list_inv H; by rewrite H.
  - list_inv H; rewrite H; cbn; lia.
Qed.

(** ** The file system *)

Lemma node_at_nonempty (w : world) (p : Path) :
  parts p ≠ [] → FS.node_at w p = w_fs w !! PathLib.str p.
Proof. unfold FS.node_at. by destruct (parts p). Qed.

Lemma node_at_set_node (w : world) (p : Path) (n : node) :
  n = Dir ∨ parts p ≠ [] → FS.node_at (FS.set_node p n w) p = Some n.
Proof.
  unfold FS.node_at, FS.set_node. cbn [w_fs].
  destruct (parts p) eqn:E.
  - intros [->|?]; done.
  - intros _. apply lookup_insert_eq.
Qed.

Lemma os_mkdir_inr (p : Path) (w w' : world) :
  FS.os_mkdir p w = inr w' →
  w' = FS.set_node p Dir w ∧ FS.node_at w p = None.
Proof.
  unfold FS.os_mkdir, Raise, Return.
  destruct (FS.node_at w p) eqn:E; [done|].
  destruct (FS.parent_error w p); [done|]. by intros [= <-].
Qed.

Lemma creates_dirs_refl (p : Path) (w : world) : creates_dirs p w w.
Proof. split; [done|]. intros k. by left. Qed.

Lemma creates_dirs_trans (p : Path) (w1 w2 w3 : world) :
  creates_dirs p w1 w2 → creates_dirs p w2 w3 → creates_dirs p w1 w3.
Proof.
  intros [Hf1 H1] [Hf2 H2]. split; [congruence|]. intros k.
  destruct (H1 k) as [E1|(E1 & E1' & Hk1)], (H2 k) as [E2|(E2 & E2' & Hk2)].
  - left. congruence.
  - right. split; [congruence|]. split; [congruence|done].
  - right. split; [congruence|]. split; [congruence|done].
  - congruence.
Qed.

(** Directories created for a path above [p] are created above [p]. *)
Lemma creates_dirs_snoc (r : string) (ps : list string) (x : string)
    (w w' : world) :
  creates_dirs (mkPath r ps) w w' → creates_dirs (mkPath r (ps ++ [x])) w w'.
Proof.
  intros [Hf H]. split; [done|]. intros k.
  destruct (H k) as [E|(E & E' & n & Hk)]; [by left|right].
  split; [done|]. split; [done|]. cbn [root parts] in *.
  exists (n `min` length ps). rewrite take_app_le by lia.
  rewrite Hk. do 2 f_equal.
  destruct (decide (n ≤ length ps)).
  - by rewrite Nat.min_l.
  - rewrite Nat.min_r by lia. by rewrite !take_ge by lia.
Qed.

Lemma creates_dirs_set_node (p : Path) (w : world) :
  FS.node_at w p = None → creates_dirs p w (FS.set_node p Dir w).
Proof.
  intros Hnone. split; [done|]. intros k. unfold FS.set_node. cbn [w_fs].
  destruct (decide (PathLib.str p = k)) as [<-|Hne].
  - right. rewrite lookup_insert_eq. split; [|split; [done|]].
    + unfold FS.node_at in Hnone. by destruct (parts p).
    + exists (length (parts p)). rewrite take_ge by lia. by destruct p.
  - left. by rewrite lookup_insert_ne.
Qed.

Lemma mkdir_exist_ok_inr (p : Path) (w w' : world) :
  FS.mkdir_exist_ok p w = inr w' →
  creates_dirs p w w' ∧ FS.is_dir w' p = true.
Proof.
  unfold FS.mkdir_exist_ok, Raise, Return.
  destruct (FS.os_mkdir p w) as [e|w''] eqn:E.
  - assert (Hdir : (if FS.is_dir w p then inr w else inl e)
                   = (inr w' : result world) →
                   creates_dirs p w w' ∧ FS.is_dir w' p = true).
    { destruct (FS.is_dir w p) eqn:D; [|done]. intros [= <-].
      split; [apply creates_dirs_refl | done]. }
    destruct e as [| [] | | |]; done.
  - intros [= <-]. apply os_mkdir_inr in E as [-> Hnone]. split.
    + by apply creates_dirs_set_node.
    + unfold FS.is_dir. rewrite node_at_set_node; [done | by left].
Qed.

Lemma mkdir_parents_rev_inr (r : string) (rev_parts : list string)
    (w w' : world) :
  FS.mkdir_parents_rev r rev_parts w = inr w' →
  creates_dirs (mkPath r (rev rev_parts)) w w'
  ∧ FS.is_dir w' (mkPath r (rev rev_parts)) = true.
Proof.
  revert w w'. induction rev_parts as [|x up IH]; intros w w';
    cbn [FS.mkdir_parents_rev]; unfold Raise, Return;
    set (p := mkPath r (rev _));
    destruct (FS.os_mkdir p w) as [e|w''] eqn:E.
  - assert (Hdir : (if FS.is_dir w p then inr w else inl e)
                   = (inr w' : result world) →
                   creates_dirs p w w' ∧ FS.is_dir w' p = true).
    { destruct (FS.is_dir w p) eqn:D; [|done]. intros [= <-].
      split; [apply creates_dirs_refl | done]. }
    destruct e as [| [] | | |]; done.
  - intros [= <-]. apply os_mkdir_inr in E as [-> Hnone]. split.
    + by apply creates_dirs_set_node.
    + unfold FS.is_dir. rewrite node_at_set_node; [done | by left].
  - assert (Hdir : (if FS.is_dir w p then inr w else inl e)
                   = (inr w' : result world) →
                   creates_dirs p w w' ∧ FS.is_dir w' p = true).
    { destruct (FS.is_dir w p) eqn:D; [|done]. intros [= <-].
      split; [apply creates_dirs_refl | done]. }
    destruct e as [| [] | | |]; try done.
    destruct (FS.mkdir_parents_rev r up w) as [e'|w1] eqn:Eup; [done|].
    intros Hself. apply IH in Eup as [Hup _].
    apply mkdir_exist_ok_inr in Hself as [Hself Hd].
    split; [|done]. eapply creates_dirs_trans; [|exact Hself].
    subst p. cbn [rev]. by apply creates_dirs_snoc.
  - intros [= <-]. apply os_mkdir_inr in E as [-> Hnone]. split.
    + by apply creates_dirs_set_node.
    + unfold FS.is_dir. rewrite node_at_set_node; [done | by left].
Qed.

Lemma mkdir_parents_inr (p : Path) (w w' : world) :
  FS.mkdir_parents p w = inr w' →
  creates_dirs p w w' ∧ FS.is_dir w' p = true.
Proof.
  unfold FS.mkdir_parents. intros H.
  apply mkdir_parents_rev_inr in H. rewrite rev_involutive in H.
  by destruct p.
Qed.



(** ** Parsing what [str] printed *)

Lemma filter_simple (l : list string) :
  Forall simple_name l → filter (λ x, x ≠ "" ∧ x ≠ ".") l = l.
Proof.
  induction 1 as [|x l (Hne & Hdot & _) _ IH]; [done|].
  rewrite filter_cons_True by done. by rewrite IH.
Qed.

Lemma simple_no_start (x : string) :
  simple_name x → Str.starts_with "/" x = false.
Proof.
  intros (_ & _ & Hslash). destruct (Str.starts_with "/" x) eqn:E; [|done].
  apply starts_with_contains in E. congruence.
Qed.

Lemma join_no_start (l : list string) :
  Forall simple_name l → Str.starts_with "/" (Str.join "/" l) = false.
Proof.
  intros Hl. destruct Hl as [|x l Hx Hl]; [done|].
  destruct l as [|y l]; [by apply simple_no_start|].
  rewrite join_cons by done. rewrite starts_with_app; [|by destruct Hx].
  by apply simple_no_start.
Qed.

Lemma lstrip_no_start (c : ascii) (s : string) :
  Str.starts_with c s = false → Str.lstrip c s = s.
Proof. destruct s as [|a s]; [done|]. cbn -[Ascii.eqb]. by intros ->. Qed.

(** Parsing a root followed by a relative part. *)
Lemma parse_rooted (r rel : string) :
  r ∈ [""; "/"; "//"] → Str.starts_with "/" rel = false →
  PathLib.parse (r +:+ rel)
  = mkPath r (filter (λ x, x ≠ "" ∧ x ≠ ".") (Str.split "/" rel)).
Proof.
  intros Hr Hrel. unfold PathLib.parse, PathLib.splitroot.
  list_inv Hr; subst r.
  - rewrite app_empty_l. by rewrite Hrel.
  - rewrite app_cons, app_empty_l.
    cbn [Str.starts_with Str.lstrip]. cbn [Ascii.eqb Bool.eqb].
    rewrite (lstrip_no_start _ _ Hrel). cbn [String.length].
    replace (S (String.length rel) - String.length rel) with 1 by lia.
    done.
  - rewrite !app_cons, app_empty_l.
    cbn [Str.starts_with Str.lstrip]. cbn [Ascii.eqb Bool.eqb].
    rewrite (lstrip_no_start _ _ Hrel). cbn [String.length].
    replace (S (S (String.length rel)) - String.length rel) with 2 by lia.
    done.
Qed.

Lemma split_join_simple (l : list string) :
  Forall simple_name l →
  filter (λ x, x ≠ "" ∧ x ≠ ".") (Str.split "/" (Str.join "/" l)) = l.
Proof.
  intros Hl. destruct l as [|x l]; [done|].
  rewrite split_join; [by apply filter_simple | done |].
  eapply Forall_impl; [exact Hl|]. by intros y (_ & _ & ?).
Qed.

(** [Path(str(p))] is [p]. *)
Lemma parse_str_parts (r : string) (ps : list string) :
  wf_path (mkPath r ps) →
  PathLib.parse (r +:+ Str.join "/" ps) = mkPath r ps.
Proof.
  intros [Hr Hps]. cbn [root parts] in *.
  rewrite parse_rooted by (done || by apply join_no_start).
  by rewrite split_join_simple.
Qed.

(** A trailing separator changes nothing. *)
Lemma parse_trailing_sep (r : string) (ps : list string) :
  wf_path (mkPath r ps) → ps ≠ [] →
  PathLib.parse (r +:+ Str.join "/" ps +:+ "/") = mkPath r ps.
Proof.
  intros [Hr Hps] Hne. cbn [root parts] in *.
  rewrite parse_rooted; [|done|].
  - rewrite split_app_sep, filter_app. cbn [Str.split].
    rewrite filter_cons_False by (intros [? _]; done).
    rewrite filter_nil, app_nil_r.
    by rewrite (split_join_simple ps Hps).
  - rewrite starts_with_app; [by apply join_no_start|].
    destruct Hps as [|x l Hx _]; [done|].
    destruct l; [by destruct Hx|]. rewrite join_cons by done.
    intros [E _]%app_eq_empty. by destruct Hx.
Qed.

Lemma parse_wf (s : string) : wf_path (PathLib.parse s).
Proof.
  unfold PathLib.parse, PathLib.splitroot. split.
  - destruct (Str.starts_with "/" s); [|cbn [root]; list_in].
    destruct (_ =? 2); cbn [root]; list_in.
  - assert (H : ∀ rel, Forall simple_name
                  (filter (λ x, x ≠ "" ∧ x ≠ ".") (Str.split "/" rel))).
    { intros rel. apply Forall_forall. intros x Hx.
      apply list_elem_of_filter in Hx as [[Hne Hdot] Hx].
      split; [done|]. split; [done|]. by eapply split_parts_no_sep. }
    destruct (Str.starts_with "/" s); [|apply H].
    destruct (_ =? 2); apply H.
Qed.

(** ** Classification *)

(** C8. [detect_document_type] is a function of the lower-cased suffix of
    the path alone: when that suffix belongs to the extension list of a
    document type of [SUPPORTED_EXTENSIONS] the result is that type, when
    it belongs to none the result is ["unknown"]; there is no other
    result, and no path on which it fails. *)
Theorem detect_document_type_total (file_path : string) :
  let file_ext := Str.lower (PathLib.suffix (PathLib.parse file_path)) in
  (∀ doc_type extensions,
      (doc_type, extensions) ∈ SUPPORTED_EXTENSIONS →
      file_ext ∈ extensions →
      detect_document_type file_path = doc_type)
  ∧ ((∀ doc_type extensions,
         (doc_type, extensions) ∈ SUPPORTED_EXTENSIONS →
         file_ext ∉ extensions) →
     detect_document_type file_path = "unknown")
  ∧ detect_document_type file_path
      ∈ ["excel"; "word"; "powerpoint"; "unknown"].
Proof.
  unfold detect_document_type.
  generalize (Str.lower (PathLib.suffix (PathLib.parse file_path))).
  intros file_ext. cbn zeta. split; [|split].
  - intros doc_type extensions Hin Hext. unfold SUPPORTED_EXTENSIONS in Hin.
    list_inv Hin; injection Hin as -> ->; list_inv Hext; subst file_ext;
      reflexivity.
  - intros Hnone. unfold SUPPORTED_EXTENSIONS in *. cbn [detect_in].
    repeat case_bool_decide; try reflexivity; exfalso;
      (eapply Hnone; [|eassumption]); list_in.
  - unfold SUPPORTED_EXTENSIONS. cbn [detect_in].
    repeat case_bool_decide; list_in.
Qed.

Lemma detect_document_type_total_witness :
  detect_document_type "reports/Q3.XLSX" = "excel"
  ∧ detect_document_type "notes.txt" = "unknown".
Proof.
  split.
  - apply (proj1 (detect_document_type_total "reports/Q3.XLSX")
             "excel" [".xlsx"; ".xls"]).
    + unfold SUPPORTED_EXTENSIONS. list_in.
    + vm_compute. list_in.
  - apply (proj1 (proj2 (detect_document_type_total "notes.txt"))).
    intros doc_type extensions Hin. unfold SUPPORTED_EXTENSIONS in Hin.
    list_inv Hin; injection Hin as -> ->; vm_compute; intros He;
      list_inv He; discriminate He.
Defined.

(** ** Post-processing *)

(** C1. In a Markdown conversion, by [convert] as by [batch], the text the
    converter returned goes through the post-processing block (it is the
    whole of the conversion step when the format is [markdown]), and that
    block follows the policy: only the first selected of the three image
    options, in the order remove / encode / OCR, is applied (so the
    result does not depend on the image options below it), and the math
    transform, when selected, is applied to the outcome of that step,
    whichever image transform ran and also when none did. *)
Theorem post_process_priority (b : backend) (conv : converter) (o : options)
    (w : world) (file_path converted_content : string) :
  post_process (MarkdownPostProcessor b) o w file_path converted_content
    = post_processing_policy (MarkdownPostProcessor b) o w file_path
                             converted_content
  ∧ to_markdown b conv o w file_path
    = match convert_to_md conv file_path w with
      | inl e => Raise e
      | inr content =>
          post_processing_policy (MarkdownPostProcessor b) o w file_path
                                 content
      end
  ∧ (output_format o = "markdown" →
     ∀ doc_type,
       batch_convert b conv o w file_path doc_type
       = to_markdown b conv o w file_path)
  ∧ (∀ fmt dir math lower1 lower2,
        post_process (MarkdownPostProcessor b)
            (mkOptions fmt dir true lower1 lower2 math) w file_path
            converted_content
        = post_process (MarkdownPostProcessor b)
            (mkOptions fmt dir true false false math) w file_path
            converted_content)
  ∧ (∀ fmt dir math lower,
        post_process (MarkdownPostProcessor b)
            (mkOptions fmt dir false true lower math) w file_path
            converted_content
        = post_process (MarkdownPostProcessor b)
            (mkOptions fmt dir false true false math) w file_path
            converted_content)
  ∧ (∀ fmt dir r e i,
        post_process (MarkdownPostProcessor b)
            (mkOptions fmt dir r e i true) w file_path converted_content
        = match post_process (MarkdownPostProcessor b)
                  (mkOptions fmt dir r e i false) w file_path
                  converted_content with
          | inl err => Raise err
          | inr content =>
              convert_plain_math_to_latex (MarkdownPostProcessor b) content
          end).
Proof.
  assert (Hpol : ∀ o' c,
    post_process (MarkdownPostProcessor b) o' w file_path c
    = post_processing_policy (MarkdownPostProcessor b) o' w file_path c).
  { intros [fmt dir [] [] [] []] c; reflexivity. }
  split; [apply Hpol|]. split.
  { unfold to_markdown. destruct (convert_to_md conv file_path w);
      [reflexivity | apply Hpol]. }
  split.
  { intros Hfmt doc_type. unfold batch_convert. by rewrite Hfmt. }
  split; [intros fmt dir math [] []; reflexivity|].
  split; [intros fmt dir math []; reflexivity|].
  intros fmt dir [] [] []; cbn; unfold Raise, Return;
    repeat match goal with
           | |- context [match ?x with inl _ => _ | inr _ => _ end] =>
               destruct x
           end; reflexivity.
Qed.

(** ** Capabilities *)

(** C7. When the requested format is [json] and the file reached the
    conversion step (it passed validation, a converter is registered for
    its type and the output path was resolved): a converter without
    [convert_to_json] makes [batch] record the failure "JSON conversion
    not supported" for that file and [convert] print it and exit with
    code 1, in both cases without writing a file; a converter with
    [convert_to_json] has that method called and its text saved. *)
Theorem json_capability (b : backend) (o : options) (w w1 : world)
    (file_path output_file : string) (conv : converter) :
  output_format o = "json" →
  (validate_input_file w file_path).1 = true →
  converters b !! detect_document_type file_path = Some conv →
  create_output_path w file_path (output_dir o) (output_format o)
    = inr (w1, output_file) →
  match convert_to_json conv with
  | None =>
      batch_try b o w file_path
        = (w1, Raise (ValueError
                        (JsonNotSupportedMsg (detect_document_type file_path))))
      ∧ convert b o w file_path
        = (w1, Exited 1 (JsonNotSupportedMsg (detect_document_type file_path)))
  | Some to_json =>
      match to_json file_path w1 with
      | inr content =>
          batch_try b o w file_path
            = (let '(w2, saved) := save_output w1 content output_file in
               (w2, if saved then Return output_file
                    else Raise (ValueError (SaveFailedMsg output_file))))
          ∧ convert b o w file_path
            = (let '(w2, saved) := save_output w1 content output_file in
               (w2, if saved then Converted output_file
                    else Exited 1 (SaveFailedMsg output_file)))
      | inl e =>
          batch_try b o w file_path = (w1, Raise e)
          ∧ (convert b o w file_path).1 = w1
      end
  end.
Proof.
  intros Hfmt Hvalid Hconv Hpath. unfold batch_try, convert, batch_convert.
  destruct (validate_input_file w file_path) as [[] msg];
    [|discriminate Hvalid].
  rewrite Hconv, Hpath, Hfmt. cbn.
  destruct (convert_to_json conv) as [to_json|]; [|done].
  destruct (to_json file_path w1) as [e|content].
  - split; [done|]. by destruct e.
  - by destruct (save_output w1 content output_file) as [w2 []].
Qed.

Lemma json_capability_witness :
  batch_try Sample.b Sample.json Sample.w "docs/b.docx"
    = (Sample.w_out, Raise (ValueError (JsonNotSupportedMsg "word")))
  ∧ convert Sample.b Sample.json Sample.w "docs/b.docx"
    = (Sample.w_out, Exited 1 (JsonNotSupportedMsg "word")).
Proof.
  apply (json_capability Sample.b Sample.json Sample.w Sample.w_out
           "docs/b.docx" "out/b.json" Sample.office);
    vm_compute; reflexivity.
Defined.

(** ** The batch loop *)

Lemma attempt_all_length b o files w :
  length (attempt_all b o files w).2 = length files.
Proof.
  revert w. induction files as [|f files IH]; intros w; [done|]. cbn.
  destruct (batch_try b o w f) as [w' r].
  specialize (IH w'). destruct (attempt_all b o files w') as [w'' rs].
  cbn in *. by rewrite IH.
Qed.

Lemma record_of_success file_path r :
  success (record_of file_path r) = succeeded r.
Proof. by destruct r. Qed.

(** With [continue_on_error] the loop never breaks. *)
Lemma batch_loop_continue b o files w acc n :
  batch_loop b o true files w acc n
  = let '(w', rs) := attempt_all b o files w in
    (w', acc ++ records files rs, n + length (filter (λ r, succeeded r = true) rs)).
Proof.
  revert w acc n. induction files as [|f files IH]; intros w acc n; cbn.
  - by rewrite app_nil_r, Nat.add_0_r.
  - destruct (batch_try b o w f) as [w' [e|out]]; rewrite IH;
      destruct (attempt_all b o files w') as [w'' rs];
      unfold records; cbn [zip_with]; rewrite <- app_assoc, filter_cons;
      cbn [succeeded app]; case_decide; try done.
    cbn [length]. by rewrite Nat.add_succ_r.
Qed.

(** Without it, a prefix of files that all succeed is run through. *)
Lemma batch_loop_prefix b o pre rest w w1 rs acc n :
  attempt_all b o pre w = (w1, rs) →
  Forall (λ r, succeeded r = true) rs →
  batch_loop b o false (pre ++ rest) w acc n
  = batch_loop b o false rest w1 (acc ++ records pre rs) (n + length pre).
Proof.
  revert w rs acc n. induction pre as [|f pre IH]; intros w rs acc n; cbn.
  - intros [= <- <-] _. by rewrite app_nil_r, Nat.add_0_r.
  - destruct (batch_try b o w f) as [w' r] eqn:Htry.
    destruct (attempt_all b o pre w') as [w'' rs'] eqn:Hall.
    intros [= <- <-] Hok. apply Forall_cons in Hok as [Hr Hok].
    destruct r as [e|out]; [discriminate Hr|].
    rewrite (IH w' rs' _ _ Hall Hok). cbn. rewrite <- app_assoc. cbn.
    f_equal. lia.
Qed.

(** C2. Without [--continue-on-error], when the files before position k
    all succeed and the k-th fails, the run leaves exactly k records, the
    first k-1 successful and the k-th failed with the text of its error;
    the files after it are neither attempted nor recorded (the outcome,
    world included, is the one of the run on the first k files alone), the
    statistics count k-1 successes and one failure, and the process exits
    with code 1. *)
Theorem batch_stops_at_first_failure (b : backend) (o : options)
    (lim : bool) (pre post : list string) (file_path : string)
    (w w1 : world) (rs : list (result string)) (e : exn) :
  attempt_all b o pre w = (w1, rs) →
  Forall (λ r, succeeded r = true) rs →
  (batch_try b o w1 file_path).2 = inl e →
  let out := batch_run b o false lim (pre ++ file_path :: post) w in
  length (results out) = S (length pre)
  ∧ (∀ i r, results out !! i = Some r →
            success r = bool_decide (i < length pre))
  ∧ results out !! length pre
    = Some (mkResult (PathLib.name (PathLib.parse file_path)) "N/A" false
                     (Some (exn_str e)))
  ∧ out = batch_run b o false lim (pre ++ [file_path]) w
  ∧ final_world out = (batch_try b o w1 file_path).1
  ∧ successful_conversions out = length pre
  ∧ failed_conversions out = 1
  ∧ exit_code out = 1%Z.
Proof.
  intros Hpre Hok Hfail out.
  assert (Hlen : length rs = length pre).
  { pose proof (attempt_all_length b o pre w) as H.
    by rewrite Hpre in H. }
  assert (Hrun : ∀ rest,
    batch_run b o false lim (pre ++ file_path :: rest) w
    = mkOutcome (batch_try b o w1 file_path).1
        (records pre rs ++ [record_of file_path (inl e)])
        (length pre) 1 lim 1%Z).
  { intros rest. unfold batch_run.
    rewrite (batch_loop_prefix _ _ _ _ _ _ _ _ _ Hpre Hok). cbn.
    destruct (batch_try b o w1 file_path) as [w2 r]. cbn in Hfail.
    subst r. cbn. unfold records.
    rewrite length_app, length_zip_with, Hlen. cbn.
    replace (length pre `min` length pre + 1 - length pre) with 1 by lia.
    reflexivity. }
  assert (Hreclen : length (records pre rs) = length pre).
  { unfold records. rewrite length_zip_with. lia. }
  subst out. rewrite (Hrun post), (Hrun []). cbn.
  repeat split.
  - rewrite length_app, Hreclen. cbn. lia.
  - intros i r Hi. destruct (decide (i < length pre)) as [Hlt|Hge].
    + rewrite bool_decide_eq_true_2 by done.
      rewrite lookup_app_l in Hi by lia. unfold records in Hi.
      apply lookup_zip_with_Some in Hi as (f & r' & -> & _ & Hr').
      rewrite record_of_success.
      eapply Forall_lookup_1 in Hok; [|exact Hr']. exact Hok.
    + rewrite bool_decide_eq_false_2 by done.
      rewrite lookup_app_r in Hi by lia.
      rewrite Hreclen in Hi.
      destruct (i - length pre) as [|j] eqn:Hj; cbn in Hi; [|done].
      by injection Hi as <-.
  - rewrite lookup_app_r by lia. by rewrite Hreclen, Nat.sub_diag.
Qed.

Lemma batch_stops_at_first_failure_witness :
  let out :=
    batch_run Sample.b Sample.markdown false false
      (["docs/a.xlsx"; "docs/b.docx"] ++ "docs/bad.xls" :: ["docs/sub/c.pptx"])
      Sample.w in
  length (results out) = 3
  ∧ results out !! 2
    = Some (mkResult "bad.xls" "N/A" false (Some (Text "corrupt workbook")))
  ∧ exit_code out = 1%Z.
Proof.
  pose proof
    (batch_stops_at_first_failure Sample.b Sample.markdown false
       ["docs/a.xlsx"; "docs/b.docx"] ["docs/sub/c.pptx"] "docs/bad.xls"
       Sample.w
       (attempt_all Sample.b Sample.markdown ["docs/a.xlsx"; "docs/b.docx"]
                    Sample.w).1
       [inr "out/a.md"; inr "out/b.md"]
       (OtherException "corrupt workbook")) as H.
  cbn zeta in H.
  destruct H as (Hlen & _ & Hk & _ & _ & _ & _ & Hexit).
  - vm_compute. reflexivity.
  - repeat constructor.
  - vm_compute. reflexivity.
  - split; [exact Hlen|]. split; [exact Hk | exact Hexit].
Defined.

(** C3. With [--continue-on-error] every file is attempted, in order, each
    in the world its predecessors left: there is one record per file, the
    record of the i-th file is the one of its own outcome, the two counts
    are the numbers of files that succeeded and that failed, and the exit
    code is 0 whatever the number of failures. *)
Theorem batch_continues_on_error (b : backend) (o : options) (lim : bool)
    (files : list string) (w : world) :
  let out := batch_run b o true lim files w in
  let outcomes := (attempt_all b o files w).2 in
  length (results out) = length files
  ∧ results out = records files outcomes
  ∧ final_world out = (attempt_all b o files w).1
  ∧ successful_conversions out
    = length (filter (λ r, success r = true) (results out))
  ∧ successful_conversions out
    = length (filter (λ r, succeeded r = true) outcomes)
  ∧ failed_conversions out
    = length (filter (λ r, success r = false) (results out))
  ∧ failed_conversions out
    = length (filter (λ r, succeeded r = false) outcomes)
  ∧ successful_conversions out + failed_conversions out = length files
  ∧ exit_code out = 0%Z.
Proof.
  intros out outcomes. subst out outcomes. unfold batch_run.
  rewrite batch_loop_continue.
  pose proof (attempt_all_length b o files w) as Hlen.
  destruct (attempt_all b o files w) as [w' rs]. cbn in *.
  assert (Hrec : length (records files rs) = length files).
  { unfold records. rewrite length_zip_with. lia. }
  assert (Hok : ∀ fs' rs', length fs' = length rs' →
    length (filter (λ r, success r = true) (records fs' rs'))
    = length (filter (λ r, succeeded r = true) rs')).
  { induction fs' as [|f fs' IH]; intros [|r rs'] Hl; try done.
    injection Hl as Hl. specialize (IH rs' Hl). unfold records in *.
    cbn [zip_with]. rewrite !filter_cons.
    destruct r as [e|x]; cbn [record_of success succeeded];
      repeat case_decide; try done; cbn [length]; by rewrite IH. }
  assert (Hko : ∀ fs' rs', length fs' = length rs' →
    length (filter (λ r, success r = false) (records fs' rs'))
    = length (filter (λ r, succeeded r = false) rs')).
  { induction fs' as [|f fs' IH]; intros [|r rs'] Hl; try done.
    injection Hl as Hl. specialize (IH rs' Hl). unfold records in *.
    cbn [zip_with]. rewrite !filter_cons.
    destruct r as [e|x]; cbn [record_of success succeeded];
      repeat case_decide; try done; cbn [length]; by rewrite IH. }
  assert (Hsplit : ∀ rs' : list (result string),
    length (filter (λ r, succeeded r = true) rs')
    + length (filter (λ r, succeeded r = false) rs') = length rs').
  { induction rs' as [|r rs' IH]; [done|]. rewrite !filter_cons.
    destruct r as [e|x]; cbn [succeeded]; repeat case_decide; try done;
      cbn [length]; lia. }
  specialize (Hsplit rs).
  rewrite (Hok files rs), (Hko files rs) by done.
  rewrite Hrec. repeat split; try done; try lia.
  by rewrite andb_false_r.
Qed.

(** ** Output path resolution *)

Lemma app_inv_tail_str (s1 s2 t : string) : s1 +:+ t = s2 +:+ t → s1 = s2.
Proof.
  revert s2. induction s1 as [|a s1 IH]; intros [|b s2] H.
  - done.
  - apply (f_equal String.length) in H.
    rewrite app_empty_l, app_cons in H. cbn in H.
    rewrite length_app_str in H. lia.
  - apply (f_equal String.length) in H.
    rewrite app_empty_l, app_cons in H. cbn in H.
    rewrite length_app_str in H. lia.
  - rewrite !app_cons in H. injection H as -> H. f_equal. by apply IH.
Qed.

Lemma candidate_name_inj (base_name ext : string) (k1 k2 : nat) :
  candidate_name base_name ext k1 = candidate_name base_name ext k2 →
  k1 = k2.
Proof.
  assert (Hne : ∀ k, base_name +:+ ext
                     ≠ base_name +:+ "_" +:+ pretty (S k) +:+ ext).
  { intros k H. apply (inj _) in H. apply (f_equal String.length) in H.
    rewrite app_cons, app_empty_l in H. cbn in H.
    rewrite length_app_str in H. lia. }
  destruct k1 as [|k1], k2 as [|k2]; cbn [candidate_name]; intros H.
  - done.
  - by apply Hne in H.
  - symmetry in H. by apply Hne in H.
  - do 2 apply (inj _) in H. apply app_inv_tail_str in H.
    by apply (inj _) in H.
Qed.

Lemma candidate_name_simple (input_file output_format : string) (k : nat) :
  simple_name (candidate_name (PathLib.stem (PathLib.parse input_file))
                              (output_ext output_format) k).
Proof.
  destruct k; [apply candidate_simple | apply numbered_simple].
Qed.

Lemma candidate_parts (input_file output_dir output_format : string)
    (k : nat) :
  candidate input_file output_dir output_format k
  = mkPath (root (PathLib.parse output_dir))
      (parts (PathLib.parse output_dir)
       ++ [candidate_name (PathLib.stem (PathLib.parse input_file))
                          (output_ext output_format) k]).
Proof. apply joinpath_simple, candidate_name_simple. Qed.

(** The k-th candidate lies in the output directory and bears the k-th
    name. *)
Lemma str_candidate (input_file output_dir output_format : string)
    (k : nat) :
  PathLib.str (candidate input_file output_dir output_format k)
  = path_prefix (root (PathLib.parse output_dir))
                (parts (PathLib.parse output_dir))
    +:+ candidate_name (PathLib.stem (PathLib.parse input_file))
                       (output_ext output_format) k.
Proof. by rewrite candidate_parts, str_snoc. Qed.

Lemma str_candidate_inj (input_file output_dir output_format : string)
    (k1 k2 : nat) :
  PathLib.str (candidate input_file output_dir output_format k1)
  = PathLib.str (candidate input_file output_dir output_format k2) →
  k1 = k2.
Proof.
  rewrite !str_candidate. intros H. apply (inj _) in H.
  by apply candidate_name_inj in H.
Qed.

Lemma exists_candidate (w : world)
    (input_file output_dir output_format : string) (k : nat) :
  FS.exists_ w (candidate input_file output_dir output_format k)
  = bool_decide
      (is_Some (w_fs w !! PathLib.str
                  (candidate input_file output_dir output_format k))).
Proof.
  unfold FS.exists_. rewrite node_at_nonempty; [done|].
  rewrite candidate_parts. apply parts_snoc_nonempty.
Qed.

(** The loop stops at the first name that is free, provided the fuel
    reaches it. *)
Lemma while_exists_least (fuel : nat) (w : world) (d : Path)
    (base_name ext : string) (k j : nat) :
  j ≤ fuel →
  (∀ i, i < j →
        FS.exists_ w (d / candidate_name base_name ext (k + i))%path = true) →
  FS.exists_ w (d / candidate_name base_name ext (k + j))%path = false →
  while_exists fuel w d base_name ext
    (d / candidate_name base_name ext k)%path (S k)
  = (d / candidate_name base_name ext (k + j))%path.
Proof.
  revert k j. induction fuel as [|fuel IH]; intros k j Hj Hbusy Hfree.
  - assert (j = 0) as -> by lia. rewrite Nat.add_0_r in *.
    cbn [while_exists]. by rewrite Hfree.
  - cbn [while_exists]. destruct j as [|j].
    + rewrite Nat.add_0_r in *. by rewrite Hfree.
    + pose proof (Hbusy 0 ltac:(lia)) as H0. rewrite Nat.add_0_r in H0.
      rewrite H0.
      change (base_name +:+ "_" +:+ pretty (S k) +:+ ext)
        with (candidate_name base_name ext (S k)).
      replace (k + S j) with (S k + j) in * by lia.
      apply IH; [lia| |done].
      intros i Hi. replace (S k + i) with (k + S i) by lia.
      apply Hbusy. lia.
Qed.

(** A bounded search finds the least index at which a test holds. *)
Lemma least_index (P : nat → bool) (n : nat) :
  (∃ j, j ≤ n ∧ P j = true ∧ ∀ i, i < j → P i = false)
  ∨ (∀ i, i ≤ n → P i = false).
Proof.
  induction n as [|n [(j & Hj & HP & Hleast)|Hnone]].
  - destruct (P 0) eqn:E.
    + left. exists 0. split; [lia|]. split; [done|]. intros i Hi. lia.
    + right. intros i Hi. by assert (i = 0) as -> by lia.
  - left. exists j. split; [lia|]. split; assumption.
  - destruct (P (S n)) eqn:E.
    + left. exists (S n). split; [lia|]. split; [done|].
      intros i Hi. apply Hnone. lia.
    + right. intros i Hi.
      destruct (decide (i = S n)) as [->|]; [done|]. apply Hnone. lia.
Qed.

(** Among more candidates than the file system has entries, one is
    free. *)
Lemma candidate_free_within (w : world)
    (input_file output_dir output_format : string) :
  ∃ j, j ≤ size (w_fs w)
       ∧ FS.exists_ w (candidate input_file output_dir output_format j)
         = false
       ∧ ∀ i, i < j →
              FS.exists_ w (candidate input_file output_dir output_format i)
              = true.
Proof.
  set (cand := candidate input_file output_dir output_format).
  destruct (least_index (λ j, negb (FS.exists_ w (cand j)))
                        (size (w_fs w)))
    as [(j & Hj & Hfree & Hleast)|Hall].
  - exists j. split; [done|]. split; [by apply negb_true_iff|].
    intros i Hi. apply negb_false_iff. by apply Hleast.
  - exfalso.
    set (keys := (λ i, PathLib.str (cand i)) <$> seq 0 (S (size (w_fs w)))).
    assert (Hnodup : NoDup keys).
    { apply NoDup_fmap_2_strong; [|apply NoDup_seq].
      intros x y _ _. apply str_candidate_inj. }
    assert (Hsub : (list_to_set keys : gset string) ⊆ dom (w_fs w)).
    { intros key Hkey. apply elem_of_list_to_set in Hkey. subst keys.
      apply list_elem_of_fmap in Hkey as (i & -> & Hi).
      apply elem_of_seq in Hi.
      specialize (Hall i ltac:(lia)). apply negb_false_iff in Hall.
      subst cand. rewrite exists_candidate in Hall.
      apply bool_decide_eq_true_1 in Hall. by apply elem_of_dom. }
    apply subseteq_size in Hsub.
    rewrite size_list_to_set, size_dom in Hsub by done.
    subst keys. rewrite length_fmap, length_seq in Hsub. lia.
Qed.




(** One call: the result is the first candidate free once the output
    directory is there. *)
Lemma create_output_path_first_free (w w1 : world)
    (input_file output_dir output_format : string) :
  FS.mkdir_parents (PathLib.parse output_dir) w = inr w1 →
  ∃ j,
    create_output_path w input_file output_dir output_format
    = inr (w1, PathLib.str (candidate input_file output_dir output_format j))
    ∧ w_fs w1
      !! PathLib.str (candidate input_file output_dir output_format j)
      = None
    ∧ ∀ i, i < j →
        is_Some (w_fs w1 !! PathLib.str
                   (candidate input_file output_dir output_format i)).
Proof.
  intros Hmk.
  destruct (candidate_free_within w1 input_file output_dir output_format)
    as (j & Hj & Hfree & Hbusy).
  exists j. unfold create_output_path, Return. rewrite Hmk. split; [|split].
  - do 3 f_equal.
    change (PathLib.stem (PathLib.parse input_file)
            +:+ output_ext output_format)
      with (candidate_name (PathLib.stem (PathLib.parse input_file))
                           (output_ext output_format) 0).
    apply (while_exists_least _ _ _ _ _ 0 j); [done|..]; cbn [Nat.add].
    + intros i Hi. by apply Hbusy.
    + done.
  - rewrite exists_candidate in Hfree.
    apply bool_decide_eq_false_1 in Hfree.
    by apply eq_None_not_Some.
  - intros i Hi. specialize (Hbusy i Hi). rewrite exists_candidate in Hbusy.
    by apply bool_decide_eq_true_1 in Hbusy.
Qed.

Lemma create_output_path_inv (w w1 : world)
    (input_file output_dir output_format out : string) :
  create_output_path w input_file output_dir output_format = inr (w1, out) →
  FS.mkdir_parents (PathLib.parse output_dir) w = inr w1
  ∧ ∃ j,
      out = PathLib.str (candidate input_file output_dir output_format j)
      ∧ w_fs w1 !! out = None
      ∧ ∀ i, i < j →
          is_Some (w_fs w1 !! PathLib.str
                     (candidate input_file output_dir output_format i)).
Proof.
  intros H.
  destruct (FS.mkdir_parents (PathLib.parse output_dir) w) as [e|w1'] eqn:Hmk.
  { unfold create_output_path in H. by rewrite Hmk in H. }
  destruct (create_output_path_first_free _ _ input_file _ output_format Hmk)
    as (j & Hcall & Hfree & Hbusy).
  rewrite Hcall in H. injection H as <- <-. split; [done|]. by exists j.
Qed.







(** The resolver on the samples: a free name is returned as it is, a
    taken one is numbered past the numbers in use. *)
Example create_output_path_samples :
  create_output_path Sample.w "docs/a.xlsx" "out" "markdown"
    = inr (Sample.w_out, "out/a.md")
  ∧ create_output_path Sample.w_taken "docs/a.xlsx" "./out/" "markdown"
    = inr (Sample.w_taken, "out/a_2.md")
  ∧ create_output_path Sample.w_taken "docs/a.xlsx" "out" "yaml"
    = inr (Sample.w_taken, "out/a.txt").
Proof. vm_compute. done. Qed.

(** ** The order of the steps *)

(** The conversion step of [convert] leaves the world it was given, as the
    one of [batch] does, whenever no text comes out of it. *)
Lemma convert_after_resolution (b : backend) (o : options) (w w1 : world)
    (file_path output_file : string) (conv : converter) :
  (validate_input_file w file_path).1 = true →
  converters b !! detect_document_type file_path = Some conv →
  create_output_path w file_path (output_dir o) (output_format o)
    = inr (w1, output_file) →
  match batch_convert b conv o w1 file_path
          (detect_document_type file_path) with
  | inl e => (convert b o w file_path).1 = w1
  | inr content =>
      convert b o w file_path
      = (let '(w2, saved) := save_output w1 content output_file in
         (w2, if saved then Converted output_file
              else Exited 1 (SaveFailedMsg output_file)))
  end.
Proof.
  intros Hvalid Hconv Hpath. unfold convert, batch_convert.
  destruct (validate_input_file w file_path) as [[] msg];
    [|discriminate Hvalid].
  rewrite Hconv, Hpath.
  assert (Hsave : ∀ r : result string,
    match r with
    | inl e =>
        (match r with
         | inl (NotImplementedError _) =>
             (w1, Exited 1 (NotImplementedMsg (output_format o)
                              (detect_document_type file_path)))
         | inl e' => (w1, Exited 1 (ConversionFailedMsg (exn_str e')))
         | inr converted_content =>
             match save_output w1 converted_content output_file with
             | (w2, true) => (w2, Converted output_file)
             | (w2, false) => (w2, Exited 1 (SaveFailedMsg output_file))
             end
         end).1 = w1
    | inr content =>
        match r with
        | inl (NotImplementedError _) =>
            (w1, Exited 1 (NotImplementedMsg (output_format o)
                             (detect_document_type file_path)))
        | inl e' => (w1, Exited 1 (ConversionFailedMsg (exn_str e')))
        | inr converted_content =>
            match save_output w1 converted_content output_file with
            | (w2, true) => (w2, Converted output_file)
            | (w2, false) => (w2, Exited 1 (SaveFailedMsg output_file))
            end
        end
        = (let '(w2, saved) := save_output w1 content output_file in
           (w2, if saved then Converted output_file
                else Exited 1 (SaveFailedMsg output_file)))
    end).
  { intros [e|content]; [by destruct e|].
    by destruct (save_output w1 content output_file) as [w2 []]. }
  destruct (String.eqb (output_format o) "markdown"); [apply Hsave|].
  destruct (String.eqb (output_format o) "html"); [apply Hsave|].
  destruct (String.eqb (output_format o) "json").
  - destruct (convert_to_json conv) as [to_json|]; [apply Hsave | done].
  - apply (Hsave (inl (UnboundLocalError "converted_content"))).
Qed.



(** ** Saving *)

Lemma write_failure (path content : string) (w w' : world) (e : exn) :
  FS.write path content w = (w', Some e) →
  ∃ n, n < String.length content
       ∧ w_fs w' !! PathLib.str (PathLib.parse path)
         = Some (File (Str.take n content)).
Proof.
  unfold FS.write.
  destruct (N.leb_spec (N.of_nat (String.length content)) (w_free w))
    as [|Hlt]; [done|].
  intros [= <- _]. exists (N.to_nat (w_free w)). split; [lia|].
  cbn [w_fs]. apply lookup_insert_eq.
Qed.

(** C5, as the code has it.  When [save_output] returns [False], either
    the file could not be opened, and then nothing has changed, or the
    write failed after the file was opened, and then the file stays at the
    output path holding a proper prefix of the content (nothing removes
    it, and there is no temporary file to rename).  In both cases the
    command reports the failure: [batch] records "Failed to save output"
    for the file, [convert] prints it and exits with code 1. *)
Theorem save_failure_reported (b : backend) (o : options)
    (w w1 w2 : world) (file_path output_file content : string)
    (conv : converter) :
  save_output w1 content output_file = (w2, false) →
  ((w2 = w1 ∧ ∃ e, FS.open_w output_file w1 = inl e)
   ∨ (∃ n, n < String.length content
           ∧ w_fs w2 !! PathLib.str (PathLib.parse output_file)
             = Some (File (Str.take n content))))
  ∧ ((validate_input_file w file_path).1 = true →
     converters b !! detect_document_type file_path = Some conv →
     create_output_path w file_path (output_dir o) (output_format o)
       = inr (w1, output_file) →
     batch_convert b conv o w1 file_path (detect_document_type file_path)
       = inr content →
     batch_try b o w file_path
       = (w2, inl (ValueError (SaveFailedMsg output_file)))
     ∧ convert b o w file_path
       = (w2, Exited 1 (SaveFailedMsg output_file))).
Proof.
  intros Hsave. split.
  - unfold save_output in Hsave.
    destruct (FS.open_w output_file w1) as [e|w1'] eqn:Hopen.
    + injection Hsave as <-. left. split; [done|]. by exists e.
    + destruct (FS.write output_file content w1') as [w2' [e|]] eqn:Hwrite;
        [|discriminate Hsave].
      injection Hsave as <-. right. by eapply write_failure.
  - intros Hvalid Hconv Hpath Hcontent.
    pose proof (convert_after_resolution b o w w1 file_path output_file conv
                  Hvalid Hconv Hpath) as Hc.
    rewrite Hcontent, Hsave in Hc. split; [|exact Hc].
    unfold batch_try.
    destruct (validate_input_file w file_path) as [[] msg];
      [|discriminate Hvalid].
    by rewrite Hconv, Hpath, Hcontent, Hsave.
Qed.

Lemma save_failure_reported_witness :
  batch_try Sample.b Sample.markdown Sample.w_full "docs/a.xlsx"
    = ((save_output Sample.w_full "# docs/a.xlsx" "out/a.md").1,
       inl (ValueError (SaveFailedMsg "out/a.md")))
  ∧ convert Sample.b Sample.markdown Sample.w_full "docs/a.xlsx"
    = ((save_output Sample.w_full "# docs/a.xlsx" "out/a.md").1,
       Exited 1 (SaveFailedMsg "out/a.md")).
Proof.
  apply (save_failure_reported Sample.b Sample.markdown Sample.w_full
           Sample.w_full _ "docs/a.xlsx" "out/a.md" "# docs/a.xlsx"
           Sample.excel);
    vm_compute; reflexivity.
Defined.

(** The claim of C5 fails on the code: on a device with room for three
    bytes, saving ["# docs/a.xlsx"] to the free path [out/a.md] returns
    [False] and leaves at that path a file with the first three bytes. *)
Lemma truncated_file_left_behind :
  w_fs Sample.w_full !! "out/a.md" = None
  ∧ (save_output Sample.w_full "# docs/a.xlsx" "out/a.md").2 = false
  ∧ w_fs (save_output Sample.w_full "# docs/a.xlsx" "out/a.md").1
    !! "out/a.md" = Some (File "# d")
  ∧ (batch_try Sample.b Sample.markdown Sample.w_full "docs/a.xlsx").2
    = inl (ValueError (SaveFailedMsg "out/a.md"))
  ∧ w_fs (batch_try Sample.b Sample.markdown Sample.w_full "docs/a.xlsx").1
    !! "out/a.md" = Some (File "# d").
Proof. vm_compute. done. Qed.

(** ** Discovery *)

Lemma elem_of_flat_map {A B : Type} (f : A → list B) (l : list A) (x : B) :
  x ∈ flat_map f l ↔ ∃ y, y ∈ l ∧ x ∈ f y.
Proof.
  rewrite list_elem_of_In, in_flat_map. split.
  - intros (y & Hy & Hx). exists y. by rewrite !list_elem_of_In.
  - intros (y & Hy & Hx). exists y. by rewrite <- !list_elem_of_In.
Qed.

Lemma entry_name_simple (x : string) :
  Glob.entry_name x = true → simple_name x.
Proof.
  unfold Glob.entry_name. intros H.
  apply andb_true_iff in H as [H _]. apply andb_true_iff in H as [H Hdot].
  apply andb_true_iff in H as [Hne Hslash].
  apply negb_true_iff in Hne, Hslash, Hdot.
  apply String.eqb_neq in Hne, Hdot. done.
Qed.

Lemma visible_simple (x : string) : visible x → simple_name x.
Proof. intros [H _]. by apply entry_name_simple. Qed.

Lemma dir_prefix_cases (d : string) :
  Glob.dir_prefix d = "" ∨ Str.ends_with "/" (Glob.dir_prefix d) = true.
Proof.
  unfold Glob.dir_prefix.
  destruct (String.eqb_spec d "") as [->|Hne]; [by left|]. cbn [orb].
  destruct (Str.ends_with "/" d) eqn:E; [by right|]. right.
  apply ends_with_snoc.
Qed.

Lemma os_path_join_rel (d x : string) :
  Str.starts_with "/" x = false →
  os_path_join d x = Glob.dir_prefix d +:+ x.
Proof.
  intros Hx. unfold os_path_join, Glob.dir_prefix. rewrite Hx.
  destruct (String.eqb d "" || Str.ends_with "/" d); [done|].
  by rewrite app_assoc_str.
Qed.

Lemma os_path_join_empty (d : string) :
  os_path_join d "" = Glob.dir_prefix d.
Proof. rewrite os_path_join_rel by done. apply app_empty_r. Qed.

Lemma listdir_spec (d : string) (dironly : bool) (w : world) (x : string) :
  x ∈ Glob.listdir d dironly w
  ↔ FS.is_dir w (PathLib.parse d) = true
    ∧ Glob.entry_name x = true
    ∧ ∃ n, w_fs w !! (Glob.dir_prefix d +:+ x) = Some n
           ∧ (dironly = true → n = Dir).
Proof.
  unfold Glob.listdir. destruct (FS.is_dir w (PathLib.parse d)).
  - rewrite list_elem_of_omap. split.
    + intros ([k n] & Hkn & Hx). apply elem_of_map_to_list in Hkn.
      cbn [fst snd] in Hx.
      destruct (Str.strip_prefix (Glob.dir_prefix d) k) as [x'|] eqn:Hk;
        [|done].
      apply strip_prefix_Some in Hk as ->.
      destruct (Glob.entry_name x') eqn:He; [|done].
      destruct (negb dironly || bool_decide (n = Dir)) eqn:Hd; [|done].
      cbn in Hx. injection Hx as ->. split; [done|]. split; [done|].
      exists n. split; [done|]. intros ->. cbn in Hd.
      by apply bool_decide_eq_true_1 in Hd.
    + intros (_ & He & n & Hn & Hd).
      exists (Glob.dir_prefix d +:+ x, n). split.
      * by apply elem_of_map_to_list.
      * cbn [fst snd].
        rewrite (proj2 (strip_prefix_Some _ _ x) eq_refl), He.
        destruct dironly; [|done]. by rewrite (Hd eq_refl).
  - split; [by intros ?%elem_of_nil | by intros [? _]].
Qed.

Lemma glob1_spec (d tail : string) (w : world) (x : string) :
  x ∈ Glob.glob1 d tail w
  ↔ x ∈ Glob.listdir d false w
    ∧ Glob.ishidden x = false ∧ Str.has_suffix tail x = true.
Proof.
  unfold Glob.glob1. rewrite list_elem_of_filter. split.
  - intros [H Hx]. apply andb_true_iff in H as [Hh Hs].
    apply negb_true_iff in Hh. done.
  - intros (Hx & Hh & Hs). split; [|done]. by rewrite Hh, Hs.
Qed.

Lemma prefixes_spec {A : Type} (l pre : list A) :
  pre ∈ Glob.prefixes l ↔ ∃ n, 0 < n ≤ length l ∧ pre = take n l.
Proof.
  revert pre. induction l as [|x l IH]; intros pre; cbn [Glob.prefixes].
  - split; [by intros ?%elem_of_nil|]. intros (n & Hn & _). cbn in Hn. lia.
  - rewrite elem_of_cons. split.
    + intros [->|Hpre].
      * exists 1. split; [cbn; lia|done].
      * change (map (cons x) (Glob.prefixes l))
          with (cons x <$> Glob.prefixes l) in Hpre.
        apply list_elem_of_fmap in Hpre as (pre' & -> & Hpre').
        apply IH in Hpre' as (n & Hn & ->).
        exists (S n). split; [cbn; lia|done].
    + intros (n & Hn & ->). destruct n as [|[|n]]; [lia|by left|right].
      change (map (cons x) (Glob.prefixes l))
        with (cons x <$> Glob.prefixes l).
      apply list_elem_of_fmap. exists (take (S n) l). split; [done|].
      apply IH. exists (S n). cbn in Hn. split; [lia|done].
Qed.

Lemma rlistdir_spec (top : string) (w : world) (y : string) :
  y ∈ Glob.rlistdir top w
  ↔ FS.is_dir w (PathLib.parse top) = true
    ∧ ∃ xs, xs ≠ [] ∧ y = Str.join "/" xs ∧ dir_chain w top xs.
Proof.
  unfold Glob.rlistdir. destruct (FS.is_dir w (PathLib.parse top));
    [|split; [by intros ?%elem_of_nil | by intros [? _]]].
  rewrite list_elem_of_omap. split.
  - intros ([k n] & Hkn & Hy). cbn [fst snd] in Hy.
    destruct (Str.strip_prefix (Glob.dir_prefix top) k) as [rel|] eqn:Hk;
      [|done].
    destruct (forallb _ (Str.split "/" rel) && forallb _ _) eqn:Hc; [|done].
    injection Hy as ->. apply andb_true_iff in Hc as [Hvis Hdirs].
    split; [done|]. exists (Str.split "/" y).
    split; [apply split_nonempty|]. split; [by rewrite join_split|].
    split.
    + apply Forall_forall. intros x Hx. apply list_elem_of_In in Hx.
      rewrite forallb_forall in Hvis. specialize (Hvis x Hx).
      apply andb_true_iff in Hvis as [He Hh].
      apply negb_true_iff in Hh. done.
    + intros m Hm. rewrite forallb_forall in Hdirs.
      assert (Hin : In (take m (Str.split "/" y))
                       (Glob.prefixes (Str.split "/" y))).
      { apply list_elem_of_In, prefixes_spec. by exists m. }
      specialize (Hdirs _ Hin). cbn beta in Hdirs.
      by apply bool_decide_eq_true_1 in Hdirs.
  - intros (_ & xs & Hne & -> & Hvis & Hdirs).
    assert (Hsplit : Str.split "/" (Str.join "/" xs) = xs).
    { apply split_join; [done|]. eapply Forall_impl; [exact Hvis|].
      intros x Hx. by apply visible_simple in Hx as (_ & _ & ?). }
    exists (Glob.dir_prefix top +:+ Str.join "/" xs, Dir). split.
    + apply elem_of_map_to_list.
      rewrite <- (Hdirs (length xs)); [by rewrite take_ge by lia|].
      destruct xs; [done|cbn; lia].
    + cbn [fst snd].
      rewrite (proj2 (strip_prefix_Some _ _ (Str.join "/" xs)) eq_refl).
      rewrite Hsplit.
      assert (Hv : forallb (λ x, Glob.entry_name x && negb (Glob.ishidden x))
                     xs = true).
      { apply forallb_forall. intros x Hx. apply list_elem_of_In in Hx.
        rewrite Forall_forall in Hvis. destruct (Hvis x Hx) as [-> ->].
        done. }
      assert (Hd : forallb (λ pre, bool_decide
                     (w_fs w !! (Glob.dir_prefix top +:+ Str.join "/" pre)
                      = Some Dir)) (Glob.prefixes xs) = true).
      { apply forallb_forall. intros pre Hpre.
        apply list_elem_of_In, prefixes_spec in Hpre as (m & Hm & ->).
        apply bool_decide_eq_true_2. by apply Hdirs. }
      by rewrite Hv, Hd.
Qed.

(** *** The extension table *)

Lemma all_extensions :
  get_all_supported_extensions
  = [".xlsx"; ".xls"; ".docx"; ".doc"; ".pptx"; ".ppt"].
Proof. reflexivity. Qed.

(** What the proofs use of an extension of the table. *)
Lemma extension_facts (ext : string) :
  ext ∈ get_all_supported_extensions →
  simple_name ("*" +:+ ext)
  ∧ Str.rfind "." ext = Some 0
  ∧ 2 ≤ String.length ext
  ∧ Str.starts_with "." ext = true
  ∧ Str.lower ext = ext
  ∧ detect_in SUPPORTED_EXTENSIONS ext ≠ "unknown".
Proof.
  rewrite all_extensions. intros H.
  list_inv H; subst ext; (split; [by repeat split|]);
    repeat split; try done; cbn; lia.
Qed.

(** *** The shape of what [glob] returns *)

Lemma glob_glob_spec (gm : string → bool → world → list string)
    (pattern : Path) (tail : string) (rev_dir : list string)
    (recursive : bool) (w : world) (r : string) :
  rev (parts pattern) = String "*" tail :: rev_dir →
  r ∈ Glob.glob_glob gm pattern recursive w
  ↔ ∃ d x, d ∈ Glob.glob_dirs gm (root pattern) rev_dir recursive w
           ∧ x ∈ Glob.glob1 d tail w
           ∧ r = Glob.dir_prefix d +:+ x.
Proof.
  intros Hpat. unfold Glob.glob_glob. rewrite Hpat.
  rewrite elem_of_flat_map. split.
  - intros (d & Hd & Hr).
    change (map (os_path_join d) (Glob.glob1 d tail w))
      with (os_path_join d <$> Glob.glob1 d tail w) in Hr.
    apply list_elem_of_fmap in Hr as (x & -> & Hx).
    exists d, x. split; [done|]. split; [done|].
    apply os_path_join_rel, simple_no_start, entry_name_simple.
    apply glob1_spec in Hx as (Hx & _). by apply listdir_spec in Hx as (_ & ? & _).
  - intros (d & x & Hd & Hx & ->). exists d. split; [done|].
    change (map (os_path_join d) (Glob.glob1 d tail w))
      with (os_path_join d <$> Glob.glob1 d tail w).
    apply list_elem_of_fmap. exists x. split; [|done]. symmetry.
    apply os_path_join_rel, simple_no_start, entry_name_simple.
    apply glob1_spec in Hx as (Hx & _). by apply listdir_spec in Hx as (_ & ? & _).
Qed.

Lemma pattern_parts (p : Path) (ext : string) :
  ext ∈ get_all_supported_extensions →
  rev (parts (p / ("*" +:+ ext))%path) = String "*" ext :: rev (parts p)
  ∧ root (p / ("*" +:+ ext))%path = root p
  ∧ rev (parts (p / "**" / ("*" +:+ ext))%path)
    = String "*" ext :: "**" :: rev (parts p)
  ∧ root (p / "**" / ("*" +:+ ext))%path = root p.
Proof.
  intros Hext. apply extension_facts in Hext as (Hstar & _).
  assert (Hrec : simple_name "**") by done.
  rewrite !(joinpath_simple _ _ Hstar), (joinpath_simple _ _ Hrec).
  cbn [parts root]. rewrite !rev_app_distr. done.
Qed.

(** Whatever the directory, every path discovery returns is made of a
    directory prefix and a visible name that ends with an extension of
    the table. *)
Lemma find_files_shape (gm : string → bool → world → list string)
    (w : world) (directory : string) (recursive : bool) (r : string) :
  r ∈ find_files_in_directory gm w directory recursive →
  ∃ d x ext,
    r = Glob.dir_prefix d +:+ x
    ∧ visible x ∧ ext ∈ get_all_supported_extensions
    ∧ Str.has_suffix ext x = true.
Proof.
  unfold find_files_in_directory.
  destruct (negb _ || negb _); [by intros ?%elem_of_nil|].
  rewrite merge_sort_Permutation, elem_of_flat_map.
  intros (ext & Hext & Hr).
  destruct (pattern_parts (PathLib.parse directory) ext Hext)
    as (Hp1 & _ & Hp2 & _).
  assert (Hshape : ∀ pattern rev_dir rec,
    rev (parts pattern) = String "*" ext :: rev_dir →
    r ∈ Glob.glob_glob gm pattern rec w →
    ∃ d x, r = Glob.dir_prefix d +:+ x ∧ visible x
           ∧ Str.has_suffix ext x = true).
  { intros pattern rev_dir rec Hpat Hin.
    apply (glob_glob_spec _ _ _ _ _ _ _ Hpat) in Hin as (d & x & _ & Hx & ->).
    apply glob1_spec in Hx as (Hx & Hh & Hs).
    apply listdir_spec in Hx as (_ & He & _).
    exists d, x. done. }
  destruct recursive.
  - destruct (Hshape _ _ _ Hp2 Hr) as (d & x & ? & ? & ?). by exists d, x, ext.
  - destruct (Hshape _ _ _ Hp1 Hr) as (d & x & ? & ? & ?). by exists d, x, ext.
Qed.

(** *** The name and the suffix of a discovered path *)

Lemma ends_with_inv (c : ascii) (s : string) :
  Str.ends_with c s = true → ∃ s0, s = s0 +:+ String c "".
Proof.
  induction s as [|a s IH]; [done|]. cbn -[Ascii.eqb].
  destruct s as [|a' s].
  - intros ->%Ascii.eqb_eq. by exists "".
  - intros H. destruct (IH H) as (s0 & ->). by exists (String a s0).
Qed.

Lemma lstrip_app (c : ascii) (a b : string) :
  Str.starts_with c b = false → b ≠ "" →
  Str.lstrip c (a +:+ b) = Str.lstrip c a +:+ b.
Proof.
  intros Hb Hne. induction a as [|x a IH].
  - rewrite !app_empty_l. by apply lstrip_no_start.
  - rewrite app_cons. cbn -[Ascii.eqb String.append].
    destruct (Ascii.eqb x c); [done|]. by rewrite app_cons.
Qed.

Lemma ends_with_lstrip (c : ascii) (s : string) :
  Str.ends_with c s = true →
  Str.lstrip c s = "" ∨ Str.ends_with c (Str.lstrip c s) = true.
Proof.
  induction s as [|a s IH]; [done|]. intros H. cbn -[Ascii.eqb].
  destruct (Ascii.eqb a c) eqn:E; [|by right].
  destruct s as [|a' s]; [by left|]. by apply IH.
Qed.

Lemma last_split_rel (q x : string) :
  q = "" ∨ Str.ends_with "/" q = true → simple_name x →
  List.last (filter (λ y, y ≠ "" ∧ y ≠ ".") (Str.split "/" (q +:+ x))) ""
  = x.
Proof.
  intros Hq Hx.
  assert (Hlast : filter (λ y, y ≠ "" ∧ y ≠ ".") (Str.split "/" x) = [x]).
  { destruct Hx as (Hne & Hdot & Hslash). rewrite (split_no_sep _ _ Hslash).
    by rewrite filter_cons_True. }
  destruct Hq as [->|Hq].
  - by rewrite app_empty_l, Hlast.
  - apply ends_with_inv in Hq as (q0 & ->).
    rewrite app_assoc_str, app_cons, app_empty_l.
    rewrite split_app_sep, filter_app, Hlast. apply last_last.
Qed.

(** The name of a path made of a directory prefix and a simple name. *)
Lemma name_parse_app (pre x : string) :
  pre = "" ∨ Str.ends_with "/" pre = true → simple_name x →
  PathLib.name (PathLib.parse (pre +:+ x)) = x.
Proof.
  intros Hpre Hx. unfold PathLib.name, PathLib.parse, PathLib.splitroot.
  assert (Hne : x ≠ "") by (by destruct Hx).
  destruct (Str.starts_with "/" (pre +:+ x)) eqn:Hs.
  - rewrite lstrip_app by (by apply simple_no_start || done).
    destruct (_ =? 2); cbn [parts]; apply last_split_rel; try done.
    all: destruct Hpre as [->|Hpre]; [by left | by apply ends_with_lstrip].
  - cbn [parts]. by apply last_split_rel.
Qed.

Lemma visible_extension_stem (x ext : string) :
  visible x → Str.starts_with "." ext = true →
  Str.has_suffix ext x = true → ∃ s, s ≠ "" ∧ x = s +:+ ext.
Proof.
  intros [_ Hh] Hdot Hs. apply has_suffix_true in Hs as (s & ->).
  exists s. split; [|done]. intros ->. rewrite app_empty_l in Hh.
  unfold Glob.ishidden in Hh. congruence.
Qed.

Lemma suffix_of_name (p : Path) (s ext : string) :
  PathLib.name p = s +:+ ext → s ≠ "" →
  Str.rfind "." ext = Some 0 → 2 ≤ String.length ext →
  PathLib.suffix p = ext.
Proof.
  intros Hname Hs Hdot Hlen. unfold PathLib.suffix.
  rewrite Hname, rfind_app, Hdot, Nat.add_0_r, length_app_str.
  assert (0 < String.length s) by (destruct s; [done | cbn; lia]).
  rewrite (proj2 (Nat.ltb_lt _ _)) by lia.
  rewrite (proj2 (Nat.ltb_lt _ _)) by lia.
  apply drop_app.
Qed.

(** A discovered path has, as [pathlib] reads it, one of the lower-case
    extensions of the table for its suffix. *)
Lemma find_files_suffix (gm : string → bool → world → list string)
    (w : world) (directory : string) (recursive : bool) (r : string) :
  r ∈ find_files_in_directory gm w directory recursive →
  PathLib.suffix (PathLib.parse r) ∈ get_all_supported_extensions
  ∧ Str.has_suffix (PathLib.suffix (PathLib.parse r)) r = true.
Proof.
  intros (d & x & ext & -> & Hx & Hext & Hs)%find_files_shape.
  pose proof (extension_facts ext Hext) as (_ & Hdot & Hlen & Hstart & _).
  destruct (visible_extension_stem x ext Hx Hstart Hs) as (s & Hne & ->).
  assert (Hsuffix : PathLib.suffix
                      (PathLib.parse (Glob.dir_prefix d +:+ s +:+ ext))
                    = ext).
  { apply (suffix_of_name _ s); try done.
    apply name_parse_app; [apply dir_prefix_cases|].
    by apply visible_simple. }
  rewrite Hsuffix. split; [done|].
  rewrite <- app_assoc_str. apply has_suffix_app.
Qed.

(** C10. Discovery matches extensions as they are spelled in the table,
    in lower case, whereas validation and classification lower the
    suffix first.  So every path discovery returns, whatever the
    directory, ends with a lower-case extension of the table, is
    classified with a document type and counts as supported; and a path
    whose suffix is a supported extension written with an upper-case
    letter is never returned by discovery, although classification gives
    it a document type and validation accepts it (when it is a regular
    file within the size limit). *)
Theorem discovery_is_case_sensitive
    (gm : string → bool → world → list string) (w : world)
    (directory : string) (recursive : bool) :
  (∀ r, r ∈ find_files_in_directory gm w directory recursive →
        PathLib.suffix (PathLib.parse r) ∈ get_all_supported_extensions
        ∧ Str.has_suffix (PathLib.suffix (PathLib.parse r)) r = true
        ∧ detect_document_type r ≠ "unknown"
        ∧ is_supported_file r = true)
  ∧ (∀ file_path,
        let ext := PathLib.suffix (PathLib.parse file_path) in
        Str.lower ext ∈ get_all_supported_extensions →
        ext ≠ Str.lower ext →
        (file_path ∉ find_files_in_directory gm w directory recursive)
        ∧ detect_document_type file_path ≠ "unknown"
        ∧ is_supported_file file_path = true
        ∧ (FS.is_file w (PathLib.parse file_path) = true →
           (FS.st_size w (PathLib.parse file_path)
            ≤ MAX_FILE_SIZE_MB * (1024 * 1024))%N →
           validate_input_file w file_path = (true, Text ""))).
Proof.
  split.
  - intros r Hr. apply find_files_suffix in Hr as [Hext Hends].
    pose proof (extension_facts _ Hext) as (_ & _ & _ & _ & Hlow & Hdet).
    split; [done|]. split; [done|].
    unfold detect_document_type, is_supported_file. rewrite Hlow.
    split; [done|]. by apply bool_decide_eq_true_2.
  - intros file_path ext Hlower Hupper.
    pose proof (extension_facts _ Hlower) as (_ & _ & _ & _ & _ & Hdet).
    assert (Hsupp : is_supported_file file_path = true)
      by (by apply bool_decide_eq_true_2).
    split; [|split; [done|split; [done|]]].
    + intros Hin. apply find_files_suffix in Hin as [Hext _].
      fold ext in Hext.
      by pose proof (extension_facts _ Hext) as (_ & _ & _ & _ & Hlow & _).
    + intros Hfile Hsize. unfold validate_input_file.
      assert (Hex : FS.exists_ w (PathLib.parse file_path) = true).
      { unfold FS.exists_, FS.is_file in *.
        destruct (FS.node_at w (PathLib.parse file_path)); [|done].
        by apply bool_decide_eq_true_2. }
      rewrite Hex, Hfile, Hsupp. cbn [negb].
      by rewrite (proj2 (N.ltb_ge _ _) Hsize).
Qed.

Lemma discovery_is_case_sensitive_witness :
  ("docs/REPORT.XLSX"
     ∉ find_files_in_directory Sample.no_magic Sample.w "docs" true)
  ∧ detect_document_type "docs/REPORT.XLSX" ≠ "unknown"
  ∧ is_supported_file "docs/REPORT.XLSX" = true
  ∧ validate_input_file Sample.w "docs/REPORT.XLSX" = (true, Text "").
Proof.
  destruct (proj2 (discovery_is_case_sensitive Sample.no_magic Sample.w
                     "docs" true) "docs/REPORT.XLSX")
    as (Hout & Hdet & Hsupp & Hvalid).
  - vm_compute. list_in.
  - vm_compute. discriminate.
  - split; [exact Hout|]. split; [exact Hdet|]. split; [exact Hsupp|].
    apply Hvalid; vm_compute; [reflexivity | discriminate].
Defined.

(** *** What discovery returns, exactly *)

Lemma ends_with_contains (c : ascii) (s : string) :
  Str.ends_with c s = true → Str.contains c s = true.
Proof.
  intros (s0 & ->)%ends_with_inv. rewrite contains_app.
  cbn -[Ascii.eqb]. by rewrite Ascii.eqb_refl, orb_true_r.
Qed.

Lemma simple_no_end (x : string) :
  simple_name x → Str.ends_with "/" x = false.
Proof.
  intros (_ & _ & Hslash). destruct (Str.ends_with "/" x) eqn:E; [|done].
  apply ends_with_contains in E. congruence.
Qed.

Lemma join_nonempty (l : list string) :
  Forall simple_name l → l ≠ [] → Str.join "/" l ≠ "".
Proof.
  intros Hl Hne. destruct Hl as [|x l Hx _]; [done|].
  destruct l; [by destruct Hx|]. rewrite join_cons by done.
  intros [E _]%app_eq_empty. by destruct Hx.
Qed.

Lemma join_no_end (l : list string) :
  Forall simple_name l → l ≠ [] → Str.ends_with "/" (Str.join "/" l) = false.
Proof.
  induction 1 as [|x l Hx Hl IH]; [done|]. intros _.
  destruct l as [|y l]; [by apply simple_no_end|].
  rewrite join_cons by done. rewrite <- app_assoc_str.
  rewrite ends_with_app; [by apply IH|]. by apply join_nonempty.
Qed.

Lemma join_app (sep : string) (l1 l2 : list string) :
  l1 ≠ [] → l2 ≠ [] →
  Str.join sep (l1 ++ l2) = Str.join sep l1 +:+ sep +:+ Str.join sep l2.
Proof.
  intros H1 H2. induction l1 as [|x l1 IH]; [done|].
  change ((x :: l1) ++ l2) with (x :: (l1 ++ l2)).
  rewrite join_cons by (by destruct l1).
  destruct l1 as [|y l1]; [done|].
  rewrite IH by done. rewrite (join_cons sep x (y :: l1)) by done.
  by rewrite !app_assoc_str.
Qed.

Lemma dir_prefix_idem (d : string) :
  Glob.dir_prefix (Glob.dir_prefix d) = Glob.dir_prefix d.
Proof.
  destruct (dir_prefix_cases d) as [E|E]; unfold Glob.dir_prefix at 1.
  - by rewrite E.
  - by rewrite E, orb_true_r.
Qed.

Lemma dir_prefix_open (d : string) :
  d ≠ "" → Str.ends_with "/" d = false → Glob.dir_prefix d = d +:+ "/".
Proof.
  intros Hne He. unfold Glob.dir_prefix. rewrite He.
  by rewrite (proj2 (String.eqb_neq d "") Hne).
Qed.

(** The prefix [glob] puts before the entries of the search directory is
    the one [str] puts before the last component of its entries. *)
Lemma glob_dirname_prefix (p : Path) :
  wf_path p →
  Glob.dir_prefix (glob_dirname p) = path_prefix (root p) (parts p).
Proof.
  intros [Hr Hps]. unfold glob_dirname, path_prefix.
  destruct (parts p) as [|x ps] eqn:E.
  - cbn [Str.join]. rewrite app_empty_r. list_inv Hr; by rewrite Hr.
  - rewrite dir_prefix_open; [by rewrite app_assoc_str| |].
    + intros [_ H]%app_eq_empty. by apply join_nonempty in H.
    + rewrite ends_with_app by (by apply join_nonempty).
      by apply join_no_end.
Qed.

Lemma prefix_join (r : string) (ps xs : list string) :
  xs ≠ [] →
  path_prefix r ps +:+ Str.join "/" xs = r +:+ Str.join "/" (ps ++ xs).
Proof.
  intros Hxs. unfold path_prefix. destruct ps as [|y ps].
  - by rewrite app_empty_r.
  - rewrite join_app by done. by rewrite !app_assoc_str.
Qed.

Lemma parse_sub_dir (p : Path) (xs : list string) :
  wf_path p → Forall simple_name xs →
  PathLib.parse (Glob.dir_prefix (glob_dirname p) +:+ Str.join "/" xs)
  = mkPath (root p) (parts p ++ xs).
Proof.
  intros Hp Hxs. rewrite (glob_dirname_prefix p Hp).
  destruct Hp as [Hr Hps]. destruct xs as [|x xs].
  - cbn [Str.join]. rewrite app_empty_r, app_nil_r. unfold path_prefix.
    destruct (parts p) as [|y ps] eqn:E.
    + by apply (parse_str_parts (root p) []).
    + by apply parse_trailing_sep.
  - rewrite prefix_join by done. apply parse_str_parts.
    split; [done|]. by apply Forall_app.
Qed.

Lemma sub_dir_entry (d : string) (xs : list string) (x : string) :
  Forall simple_name xs →
  Glob.dir_prefix (Glob.dir_prefix d +:+ Str.join "/" xs) +:+ x
  = Glob.dir_prefix d +:+ Str.join "/" (xs ++ [x]).
Proof.
  intros Hxs. destruct xs as [|y xs].
  - cbn [Str.join app]. by rewrite app_empty_r, dir_prefix_idem.
  - rewrite dir_prefix_open.
    + rewrite join_snoc. by rewrite !app_assoc_str.
    + intros [_ H]%app_eq_empty. by apply join_nonempty in H.
    + rewrite ends_with_app by (by apply join_nonempty).
      by apply join_no_end.
Qed.

Lemma dir_chain_simple (w : world) (top : string) (xs : list string) :
  dir_chain w top xs → Forall simple_name xs.
Proof.
  intros [Hvis _]. eapply Forall_impl; [exact Hvis|]. apply visible_simple.
Qed.

Lemma is_dir_sub_dir (w : world) (p : Path) (xs : list string) :
  wf_path p → FS.is_dir w p = true → dir_chain w (glob_dirname p) xs →
  FS.is_dir w (mkPath (root p) (parts p ++ xs)) = true.
Proof.
  intros Hp Hdir Hchain. pose proof (dir_chain_simple _ _ _ Hchain) as Hxs.
  destruct xs as [|x xs]; [rewrite app_nil_r; by destruct p|].
  destruct Hchain as [_ Hdirs]. unfold FS.is_dir.
  rewrite node_at_nonempty by (cbn [parts]; by destruct (parts p)).
  specialize (Hdirs (length (x :: xs)) ltac:(cbn; lia)).
  rewrite take_ge in Hdirs by lia.
  rewrite (glob_dirname_prefix p Hp), prefix_join in Hdirs by done.
  unfold PathLib.str. cbn [root parts].
  destruct (parts p ++ x :: xs) eqn:E; [by destruct (parts p)|].
  by rewrite Hdirs.
Qed.

(** Matching [*ext] in a directory of the chain. *)
Lemma glob1_sub_dir (w : world) (p : Path) (xs : list string)
    (ext x : string) :
  wf_path p → FS.is_dir w p = true → dir_chain w (glob_dirname p) xs →
  x ∈ Glob.glob1 (Glob.dir_prefix (glob_dirname p) +:+ Str.join "/" xs)
                 ext w
  ↔ visible x ∧ Str.has_suffix ext x = true
    ∧ is_Some (w_fs w !! (Glob.dir_prefix (glob_dirname p)
                          +:+ Str.join "/" (xs ++ [x]))).
Proof.
  intros Hp Hdir Hchain. pose proof (dir_chain_simple _ _ _ Hchain) as Hxs.
  rewrite glob1_spec, listdir_spec, (parse_sub_dir p xs Hp Hxs).
  rewrite (is_dir_sub_dir w p xs Hp Hdir Hchain).
  rewrite (sub_dir_entry _ xs x Hxs). unfold visible. split.
  - intros ((_ & He & n & Hn & _) & Hh & Hs). by rewrite Hn.
  - intros ([He Hh] & Hs & [n Hn]). split; [|done]. split; [done|].
    split; [done|]. by exists n.
Qed.

(** Matching [*ext] in the search directory itself. *)
Lemma glob1_top (w : world) (p : Path) (ext x : string) :
  wf_path p → FS.is_dir w p = true →
  x ∈ Glob.glob1 (glob_dirname p) ext w
  ↔ visible x ∧ Str.has_suffix ext x = true
    ∧ is_Some (w_fs w !! (Glob.dir_prefix (glob_dirname p) +:+ x)).
Proof.
  intros Hp Hdir. rewrite glob1_spec, listdir_spec.
  unfold glob_dirname at 1. rewrite (parse_str_parts _ _ Hp).
  replace (mkPath (root p) (parts p)) with p by (by destruct p).
  rewrite Hdir. unfold visible. split.
  - intros ((_ & He & n & Hn & _) & Hh & Hs). by rewrite Hn.
  - intros ([He Hh] & Hs & [n Hn]). split; [|done]. split; [done|].
    split; [done|]. by exists n.
Qed.

Lemma has_magic_star (a : string) : Glob.has_magic (a +:+ "**") = true.
Proof.
  unfold Glob.has_magic. rewrite contains_app.
  by rewrite orb_true_r.
Qed.

Lemma glob_dirs_plain (gm : string → bool → world → list string)
    (p : Path) (recursive : bool) (w : world) :
  Glob.has_magic (glob_dirname p) = false →
  Glob.glob_dirs gm (root p) (rev (parts p)) recursive w = [glob_dirname p].
Proof.
  intros Hmagic. unfold Glob.glob_dirs. rewrite rev_involutive.
  fold (glob_dirname p). by rewrite Hmagic.
Qed.

Lemma glob_dirs_recursive (gm : string → bool → world → list string)
    (p : Path) (w : world) :
  Glob.has_magic (glob_dirname p) = false →
  Glob.glob_dirs gm (root p) ("**" :: rev (parts p)) true w
  = map (os_path_join (glob_dirname p))
        ("" :: Glob.rlistdir (glob_dirname p) w).
Proof.
  intros Hmagic. unfold Glob.glob_dirs.
  assert (Hstar : Glob.has_magic
                    (root p +:+ Str.join "/" (rev ("**" :: rev (parts p))))
                  = true).
  { cbn [rev]. rewrite rev_involutive, join_snoc.
    rewrite <- app_assoc_str. apply has_magic_star. }
  rewrite Hstar. cbn [negb]. rewrite rev_involutive.
  fold (glob_dirname p). by rewrite Hmagic.
Qed.

(** The directories [**] stands for. *)
Lemma recursive_dirs (w : world) (p : Path) (d : string) :
  wf_path p → FS.is_dir w p = true →
  d ∈ map (os_path_join (glob_dirname p))
          ("" :: Glob.rlistdir (glob_dirname p) w)
  ↔ ∃ xs, dir_chain w (glob_dirname p) xs
          ∧ d = Glob.dir_prefix (glob_dirname p) +:+ Str.join "/" xs.
Proof.
  intros Hp Hdir.
  assert (Htop : FS.is_dir w (PathLib.parse (glob_dirname p)) = true).
  { unfold glob_dirname. rewrite (parse_str_parts _ _ Hp).
    by replace (mkPath (root p) (parts p)) with p by (by destruct p). }
  change (map ?f ?l) with (f <$> l). rewrite list_elem_of_fmap. split.
  - intros (y & -> & Hy). apply elem_of_cons in Hy as [->|Hy].
    + exists []. split; [|by rewrite os_path_join_empty, app_empty_r].
      split; [constructor|]. intros n Hn. cbn in Hn. lia.
    + apply rlistdir_spec in Hy as (_ & xs & Hne & -> & Hchain).
      exists xs. split; [done|]. apply os_path_join_rel, join_no_start.
      by eapply dir_chain_simple.
  - intros (xs & Hchain & ->). destruct xs as [|x xs].
    + exists "". split; [by rewrite os_path_join_empty, app_empty_r|].
      list_in.
    + exists (Str.join "/" (x :: xs)). split.
      * symmetry. apply os_path_join_rel, join_no_start.
        by eapply dir_chain_simple.
      * apply list_elem_of_further, rlistdir_spec. split; [done|].
        by exists (x :: xs).
Qed.

(** *** No path twice *)














(** * Validation and classification *)

Lemma detect_in_known (table : list (string * list string)) (ext : string) :
  Forall (λ te, te.1 ≠ "unknown") table →
  detect_in table ext ≠ "unknown" ↔ ext ∈ flat_map snd table.
Proof.
  induction 1 as [|[t es] table Ht _ IH]; cbn [detect_in flat_map snd].
  - split; [done | by intros ?%elem_of_nil].
  - rewrite elem_of_app. case_bool_decide as Hin.
    + split; [by left | done].
    + rewrite IH. split; [by right | by intros [?|?]].
Qed.

Lemma table_known :
  Forall (λ te : string * list string, te.1 ≠ "unknown")
         SUPPORTED_EXTENSIONS.
Proof. repeat constructor; discriminate. Qed.

Lemma detect_in_cases (ext : string) :
  ext ∈ get_all_supported_extensions →
  detect_in SUPPORTED_EXTENSIONS ext ∈ ["excel"; "word"; "powerpoint"].
Proof.
  rewrite all_extensions. intros H. list_inv H; subst ext; vm_compute; list_in.
Qed.

Lemma converters_lookup (b : backend) (doc_type : string) :
  doc_type ∈ ["excel"; "word"; "powerpoint"] →
  ∃ conv, converters b !! doc_type = Some conv.
Proof. intros H. list_inv H; subst doc_type; by eexists. Qed.

Lemma is_file_exists (w : world) (p : Path) :
  FS.is_file w p = true → FS.exists_ w p = true.
Proof.
  unfold FS.is_file, FS.exists_. destruct (FS.node_at w p) as [[]|]; [|done..].
  intros _. by apply bool_decide_eq_true_2.
Qed.

Lemma validate_accepts (w : world) (file_path : string) :
  (validate_input_file w file_path).1 = true
  ↔ FS.is_file w (PathLib.parse file_path) = true
    ∧ (FS.st_size w (PathLib.parse file_path)
       ≤ MAX_FILE_SIZE_MB * (1024 * 1024))%N
    ∧ is_supported_file file_path = true.
Proof.
  unfold validate_input_file. split.
  - destruct (FS.exists_ w _); [|done]. destruct (FS.is_file w _); [|done].
    cbn [negb]. case_match eqn:Hsz; [done|]. apply N.ltb_ge in Hsz.
    by destruct (is_supported_file file_path).
  - intros (Hf & Hsz & Hs). rewrite (is_file_exists _ _ Hf), Hf, Hs. cbn [negb].
    apply N.ltb_ge in Hsz. by rewrite Hsz.
Qed.

Lemma supported_classified (file_path : string) :
  is_supported_file file_path = true →
  detect_document_type file_path ∈ ["excel"; "word"; "powerpoint"].
Proof.
  unfold is_supported_file, detect_document_type.
  rewrite bool_decide_eq_true. apply detect_in_cases.
Qed.

(** X1. The two classifiers of [CLIConfig], written separately (one walks
    the table type by type, the other searches the flattened list), agree:
    a path is supported exactly when its type is not ["unknown"], and then
    the type is one of the three for which the commands register a
    converter. *)
Theorem is_supported_iff_classified (b : backend) (file_path : string) :
  (is_supported_file file_path = true
   ↔ detect_document_type file_path ≠ "unknown")
  ∧ (is_supported_file file_path = true
     ↔ detect_document_type file_path ∈ ["excel"; "word"; "powerpoint"])
  ∧ (is_supported_file file_path = true
     ↔ is_Some (converters b !! detect_document_type file_path)).
Proof.
  unfold is_supported_file, detect_document_type.
  set (ext := Str.lower _). rewrite bool_decide_eq_true.
  pose proof (detect_in_known _ ext table_known) as Hk.
  fold get_all_supported_extensions in Hk.
  split; [by rewrite Hk|]. split.
  - split; [apply detect_in_cases|].
    intros H. apply Hk. intros Hu. rewrite Hu in H. by list_inv H.
  - split.
    + intros H%detect_in_cases. by apply converters_lookup.
    + intros [conv Hc]. apply Hk. intros Hu. by rewrite Hu in Hc.
Qed.

Lemma validated_converter (b : backend) (w : world) (file_path : string) :
  (validate_input_file w file_path).1 = true →
  ∃ conv, converters b !! detect_document_type file_path = Some conv
          ∧ conv ∈ [ExcelConverter b; WordConverter b; PptConverter b].
Proof.
  intros (_ & _ & Hs)%validate_accepts.
  apply supported_classified in Hs.
  list_inv Hs; rewrite Hs; eexists; (split; [reflexivity|list_in]).
Qed.

(** X2. [validate_input_file] accepts exactly the regular files of at most
    100 MiB (the bound included) whose lower-cased suffix is in the table;
    for every file it accepts the lookup in [converters] succeeds, so that
    [convert] never ends with the message that no converter is available. *)
Theorem validated_file_has_converter (b : backend) (o : options) (w : world)
    (file_path : string) :
  ((validate_input_file w file_path).1 = true
   ↔ FS.is_file w (PathLib.parse file_path) = true
     ∧ (FS.st_size w (PathLib.parse file_path) ≤ 104857600)%N
     ∧ Str.lower (PathLib.suffix (PathLib.parse file_path))
       ∈ [".xlsx"; ".xls"; ".docx"; ".doc"; ".pptx"; ".ppt"])
  ∧ ((validate_input_file w file_path).1 = true →
     validate_input_file w file_path = (true, Text "")
     ∧ ∃ conv, converters b !! detect_document_type file_path = Some conv
               ∧ conv ∈ [ExcelConverter b; WordConverter b; PptConverter b])
  ∧ (∀ doc_type,
       (convert b o w file_path).2 ≠ Exited 1 (NoConverterMsg doc_type)).
Proof.
  split.
  { rewrite validate_accepts. unfold is_supported_file.
    rewrite bool_decide_eq_true, all_extensions. done. }
  pose proof (validated_converter b w file_path) as Hconv.
  split.
  { intros Hv. split; [|by apply Hconv].
    revert Hv. unfold validate_input_file.
    by repeat (case_match; try done). }
  - intros doc_type. unfold convert.
    destruct (validate_input_file w file_path) as [[] m] eqn:Hv.
    + destruct (Hconv eq_refl) as (conv & -> & _).
      destruct (create_output_path _ _ _ _) as [e|[w1 out]]; [done|].
      cbn zeta.
      repeat case_match; cbn; done.
    + cbn. revert Hv. unfold validate_input_file.
      repeat case_match; intros [= <-]; done.
Qed.

(** * Persistence *)

Lemma parse_str (p : Path) : wf_path p → PathLib.parse (PathLib.str p) = p.
Proof.
  destruct p as [r ps]. intros Hwf. unfold PathLib.str. cbn [parts root].
  destruct ps as [|x ps'] eqn:Hps.
  - destruct Hwf as [Hr _]. cbn in Hr. list_inv Hr; subst r; by vm_compute.
  - rewrite <- Hps in *. by apply parse_str_parts.
Qed.

Lemma candidate_wf (input_file output_dir output_format : string) (k : nat) :
  wf_path (candidate input_file output_dir output_format k).
Proof.
  rewrite candidate_parts. destruct (parse_wf output_dir) as [Hr Hps].
  split; [done|]. cbn [parts]. apply Forall_app. split; [done|].
  constructor; [apply candidate_name_simple | constructor].
Qed.

Lemma parse_str_candidate (input_file output_dir output_format : string)
    (k : nat) :
  PathLib.parse (PathLib.str (candidate input_file output_dir output_format k))
  = candidate input_file output_dir output_format k.
Proof. apply parse_str, candidate_wf. Qed.

(** What [save_output] touches: the entry at the normalized path and the
    room left, nothing else. *)
Lemma save_output_frame (w w' : world) (content output_path : string)
    (saved : bool) :
  save_output w content output_path = (w', saved) →
  (w' = w ∧ saved = false)
  ∨ ∃ data,
      w_fs w' = <[PathLib.str (PathLib.parse output_path) := File data]>
                  (w_fs w)
            ∧ FS.is_dir w (PathLib.parse output_path) = false
            ∧ (saved = true → data = content).
Proof.
  unfold save_output, FS.open_w, FS.write, FS.set_node, Return, Raise.
  set (p := PathLib.parse output_path).
  unfold FS.is_dir.
  destruct (FS.node_at w p) as [[d|]|] eqn:Hnode.
  - cbn [w_fs w_free].
    destruct (_ <=? _)%N; intros [= <- <-]; right; eexists;
      (split; [cbn [w_fs]; apply insert_insert_eq|]);
      done.
  - intros [= <- <-]. by left.
  - destruct (FS.parent_error w p); [intros [= <- <-]; by left|].
    cbn [w_fs w_free].
    destruct (_ <=? _)%N; intros [= <- <-]; right; eexists;
      (split; [cbn [w_fs]; apply insert_insert_eq|]);
      done.
Qed.

(** X3. [save_output] returns [True] only when the file at the (normalized)
    output path then holds exactly the content: reading it back gives the
    text that was saved, its size is the length of the text, no other
    entry has changed, and the room left on the device has decreased by the
    growth of the file.  The path named a file or nothing before, never a
    directory. *)
Theorem save_output_round_trip (w w' : world) (content output_path : string) :
  save_output w content output_path = (w', true) →
  let p := PathLib.parse output_path in
  FS.node_at w' p = Some (File content)
  ∧ FS.is_file w' p = true
  ∧ FS.st_size w' p = N.of_nat (String.length content)
  ∧ w_fs w' = <[PathLib.str p := File content]> (w_fs w)
  ∧ FS.is_dir w p = false
  ∧ (w_free w' + N.of_nat (String.length content)
     = w_free w + FS.st_size w p)%N.
Proof.
  intros Hsave p.
  assert (Hparts : parts p ≠ []).
  { intros Hnil. revert Hsave.
    unfold save_output, FS.open_w, FS.node_at, Raise.
    fold p. by rewrite Hnil. }
  assert (Hfs : w_fs w' = <[PathLib.str p := File content]> (w_fs w)
                ∧ FS.is_dir w p = false
                ∧ (w_free w' + N.of_nat (String.length content)
                   = w_free w + FS.st_size w p)%N).
  { revert Hsave.
    unfold save_output, FS.open_w, FS.st_size, FS.is_dir, FS.write,
      FS.set_node, Return, Raise.
    fold p. destruct (FS.node_at w p) as [[d|]|] eqn:Hnode.
    - cbn [w_fs w_free].
      destruct (N.leb_spec (N.of_nat (String.length content))
                  (w_free w + N.of_nat (String.length d))); [|done].
      intros [= <-]. cbn [w_fs w_free].
      split; [apply insert_insert_eq|]. split; [done|]. lia.
    - done.
    - destruct (FS.parent_error w p); [done|].
      cbn [w_fs w_free].
      destruct (N.leb_spec (N.of_nat (String.length content)) (w_free w));
        [|done].
      intros [= <-]. cbn [w_fs w_free].
      split; [apply insert_insert_eq|]. split; [done|]. lia. }
  destruct Hfs as (Hfs & Hdir & Hfree).
  assert (Hnode : FS.node_at w' p = Some (File content)).
  { rewrite node_at_nonempty by done. rewrite Hfs. apply lookup_insert_eq. }
  unfold FS.is_file, FS.st_size. rewrite Hnode. done.
Qed.

Lemma save_output_round_trip_witness :
  FS.node_at (save_output Sample.w_out "# a" "out//a.md").1
             (PathLib.parse "out//a.md")
  = Some (File "# a").
Proof.
  apply (save_output_round_trip Sample.w_out _ "# a" "out//a.md").
  vm_compute. reflexivity.
Defined.

(** ** The footprint of the commands *)

Lemma writes_below_refl (d : string) (w : world) : writes_below d w w.
Proof. intros k. by left. Qed.

Lemma writes_below_trans (d : string) (w1 w2 w3 : world) :
  writes_below d w1 w2 → writes_below d w2 w3 → writes_below d w1 w3.
Proof.
  intros H12 H23 k.
  destruct (H23 k)
    as [Heq|[(Hnone & Hdir & Hn)|(Hnone & x & data & Hx & Hk & Hf)]].
  - rewrite Heq. apply H12.
  - destruct (H12 k) as [Heq|[(? & Hsome & _)|(? & ? & ? & _ & _ & Hsome)]];
      [|congruence..].
    right; left. by rewrite <- Heq.
  - destruct (H12 k) as [Heq|[(? & Hsome & _)|(? & ? & ? & _ & _ & Hsome)]];
      [|congruence..].
    right; right. split; [by rewrite <- Heq|]. by exists x, data.
Qed.

Lemma creates_dirs_writes_below (d : string) (w w' : world) :
  creates_dirs (PathLib.parse d) w w' → writes_below d w w'.
Proof.
  intros [_ H] k. destruct (H k) as [?|(? & ? & ?)]; [by left|].
  right; by left.
Qed.

Lemma writes_below_lookup (d : string) (w w' : world) (k : string) (n : node) :
  writes_below d w w' → w_fs w !! k = Some n → w_fs w' !! k = Some n.
Proof.
  intros H Hk. destruct (H k) as [Heq|[(? & _)|(? & _)]]; congruence.
Qed.

(** One file of a batch: what the attempt changes. *)
Lemma batch_try_writes_below (b : backend) (o : options) (w : world)
    (file_path : string) :
  writes_below (output_dir o) w (batch_try b o w file_path).1.
Proof.
  unfold batch_try.
  destruct (validate_input_file w file_path) as [[] msg];
    [|apply writes_below_refl].
  destruct (converters b !! _) as [conv|]; [|apply writes_below_refl].
  destruct (create_output_path w file_path (output_dir o) (output_format o))
    as [e|[w1 out]] eqn:Hpath; [apply writes_below_refl|].
  apply create_output_path_inv in Hpath as (Hmk & j & -> & Hfree & _).
  apply mkdir_parents_inr in Hmk as [Hcd _].
  apply creates_dirs_writes_below in Hcd.
  destruct (batch_convert b conv o w1 file_path _) as [e|content]; [done|].
  destruct (save_output w1 content _) as [w2 saved] eqn:Hsave.
  assert (Hw2 : writes_below (output_dir o) w1 w2).
  { apply save_output_frame in Hsave as [[-> _]|(data & Hfs & _)];
      [apply writes_below_refl|].
    rewrite parse_str_candidate in Hfs. intros k. rewrite Hfs.
    destruct (decide (k = PathLib.str
                (candidate file_path (output_dir o) (output_format o) j)))
      as [->|Hne].
    - right; right. split; [done|]. rewrite lookup_insert_eq.
      eexists _, data. split; [apply candidate_name_simple|].
      split; [apply str_candidate|done].
    - left. by rewrite lookup_insert_ne. }
  destruct saved; cbn [fst]; by eapply writes_below_trans.
Qed.

Lemma convert_world (b : backend) (o : options) (w : world)
    (file_path : string) :
  (convert b o w file_path).1 = (batch_try b o w file_path).1.
Proof.
  unfold convert, batch_try.
  destruct (validate_input_file w file_path) as [[] msg]; [|done].
  destruct (converters b !! _) as [conv|]; [|done].
  destruct (create_output_path _ _ _ _) as [e|[w1 out]]; [done|].
  unfold batch_convert. cbn zeta.
  destruct (String.eqb (output_format o) "markdown").
  { destruct (to_markdown _ _ _ _ _) as [[]|c]; try done.
    by destruct (save_output _ _ _) as [? []]. }
  destruct (String.eqb (output_format o) "html").
  { destruct (convert_to_html _ _ _) as [[]|c]; try done.
    by destruct (save_output _ _ _) as [? []]. }
  destruct (String.eqb (output_format o) "json"); [|done].
  destruct (convert_to_json conv) as [to_json|]; [|done].
  destruct (to_json _ _) as [[]|c]; try done.
  by destruct (save_output _ _ _) as [? []].
Qed.

Lemma attempt_all_writes_below (b : backend) (o : options)
    (files : list string) (w : world) :
  writes_below (output_dir o) w (attempt_all b o files w).1.
Proof.
  revert w. induction files as [|f files IH]; intros w; cbn [attempt_all].
  - apply writes_below_refl.
  - pose proof (batch_try_writes_below b o w f) as H1.
    destruct (batch_try b o w f) as [w1 r]. specialize (IH w1).
    destruct (attempt_all b o files w1) as [w2 rs]. cbn [fst] in *.
    by eapply writes_below_trans.
Qed.

(** The loop of [batch] attempts the files of a prefix of its list, one
    after the other: all of them with [--continue-on-error], and otherwise
    those up to the first that fails. *)
Lemma batch_loop_attempts (b : backend) (o : options) (c : bool)
    (files : list string) (w : world) (acc : list conversion_result)
    (n : nat) :
  ∃ k w' rs,
    k ≤ length files
    ∧ attempt_all b o (take k files) w = (w', rs)
    ∧ batch_loop b o c files w acc n
      = (w', acc ++ records (take k files) rs,
         n + length (filter (λ r, succeeded r = true) rs))
    ∧ (c = true → k = length files)
    ∧ (c = false →
       (k = length files ∧ Forall (λ r, succeeded r = true) rs)
       ∨ ∃ rs' e, rs = rs' ++ [inl e]
                  ∧ Forall (λ r, succeeded r = true) rs').
Proof.
  revert w acc n. induction files as [|f files IH]; intros w acc n.
  - exists 0, w, []. cbn. rewrite app_nil_r, Nat.add_0_r.
    repeat split; try done. intros _. by left.
  - cbn [batch_loop]. destruct (batch_try b o w f) as [w1 [e|out]] eqn:Htry.
    + destruct c.
      * destruct (IH w1 (acc ++ [record_of f (inl e)]) n)
          as (k & w' & rs & Hk & Hatt & Hloop & Hc & _).
        exists (S k), w', (inl e :: rs). cbn [take attempt_all length].
        rewrite Htry, Hatt. split; [lia|]. split; [done|].
        split; [|split; [intros _; by rewrite Hc|done]].
        rewrite Hloop. unfold records. cbn [zip_with].
        rewrite <- app_assoc. cbn [app]. rewrite filter_cons.
        by case_decide.
      * exists 1, w1, [inl e]. cbn [take attempt_all length].
        rewrite take_0. cbn [attempt_all]. rewrite Htry.
        split; [lia|]. split; [done|]. split; [|split; [done|]].
        -- unfold records. cbn [zip_with]. rewrite filter_cons.
           case_decide; [done|]. by rewrite filter_nil, Nat.add_0_r.
        -- intros _. right. by exists [], e.
    + destruct (IH w1 (acc ++ [record_of f (inr out)]) (S n))
        as (k & w' & rs & Hk & Hatt & Hloop & Hc & Hnc).
      exists (S k), w', (inr out :: rs). cbn [take attempt_all length].
      rewrite Htry, Hatt. split; [lia|]. split; [done|].
      split; [|split].
      * rewrite Hloop. unfold records. cbn [zip_with].
        rewrite <- app_assoc. cbn [app]. rewrite filter_cons.
        case_decide; [|done]. cbn [length]. f_equal. lia.
      * intros Ht. by rewrite (Hc Ht).
      * intros Hf. destruct (Hnc Hf) as [[-> Hall]|(rs' & e & -> & Hall)].
        -- left. split; [done|]. by constructor.
        -- right. exists (inr out :: rs'), e. split; [done|].
           by constructor.
Qed.

Lemma batch_run_attempts (b : backend) (o : options) (c lim : bool)
    (files : list string) (w : world) :
  ∃ k w' rs,
    k ≤ length files
    ∧ attempt_all b o (take k files) w = (w', rs)
    ∧ final_world (batch_run b o c lim files w) = w'
    ∧ results (batch_run b o c lim files w) = records (take k files) rs
    ∧ successful_conversions (batch_run b o c lim files w)
      = length (filter (λ r, succeeded r = true) rs)
    ∧ (c = true → k = length files)
    ∧ (c = false →
       (k = length files ∧ Forall (λ r, succeeded r = true) rs)
       ∨ ∃ rs' e, rs = rs' ++ [inl e]
                  ∧ Forall (λ r, succeeded r = true) rs').
Proof.
  destruct (batch_loop_attempts b o c files w [] 0)
    as (k & w' & rs & Hk & Hatt & Hloop & Hc & Hnc).
  exists k, w', rs. unfold batch_run. rewrite Hloop. cbn. done.
Qed.

Lemma batch_writes_below (gm : string → bool → world → list string)
    (b : backend) (o : options) (w : world) (input_directory : string)
    (recursive : bool) (max_files : Z) (c : bool) :
  writes_below (output_dir o) w
    (final_world (batch gm b o w input_directory recursive max_files c)).
Proof.
  unfold batch.
  destruct (find_files_in_directory gm w input_directory recursive)
    as [|f fs]; [apply writes_below_refl|].
  set (files := f :: fs).
  assert (H : ∀ lim l,
             writes_below (output_dir o) w
               (final_world (batch_run b o c lim l w))).
  { intros lim l.
    destruct (batch_run_attempts b o c lim l w)
      as (k & w' & rs & _ & Hatt & -> & _).
    pose proof (attempt_all_writes_below b o (take k l) w) as Hw.
    by rewrite Hatt in Hw. }
  case_match; apply H.
Qed.

(** X4. Neither command overwrites, alters or removes anything: every
    entry of the file system, file or directory, that was there before a run
    of [batch] or of [convert] is there afterwards, unchanged, however the
    run ends.  (The converters are functions of the world: they read and do
    not write.) *)
Theorem commands_never_overwrite
    (gm : string → bool → world → list string)
    (b : backend) (o : options) (w : world) (input_directory : string)
    (recursive : bool) (max_files : Z) (continue_on_error : bool)
    (input_file : string) (k : string) (n : node) :
  w_fs w !! k = Some n →
  w_fs (final_world (batch gm b o w input_directory recursive max_files
                           continue_on_error)) !! k = Some n
  ∧ w_fs (convert b o w input_file).1 !! k = Some n.
Proof.
  intros Hk. split.
  - eapply writes_below_lookup; [apply batch_writes_below|done].
  - rewrite convert_world.
    eapply writes_below_lookup; [apply batch_try_writes_below|done].
Qed.

Lemma commands_never_overwrite_witness :
  w_fs (final_world (batch Sample.no_magic Sample.b Sample.markdown
                           Sample.w_taken "docs" true 50 true))
    !! "out/a.md" = Some (File "# a")
  ∧ w_fs (convert Sample.b Sample.markdown Sample.w_taken "docs/a.xlsx").1
    !! "out/a.md" = Some (File "# a").
Proof.
  apply (commands_never_overwrite Sample.no_magic Sample.b Sample.markdown
           Sample.w_taken "docs" true 50 true "docs/a.xlsx" "out/a.md").
  vm_compute. reflexivity.
Defined.

(** X5. Both commands write below the output directory only: an entry
    that a run of [batch] or of [convert] has added is either a directory
    on the way to the output directory (that directory or one above it) or
    a file directly in the output directory. *)
Theorem commands_write_below_output_dir
    (gm : string → bool → world → list string)
    (b : backend) (o : options) (w : world) (input_directory : string)
    (recursive : bool) (max_files : Z) (continue_on_error : bool)
    (input_file : string) (w' : world) (k : string) :
  w' = final_world (batch gm b o w input_directory recursive max_files
                          continue_on_error)
  ∨ w' = (convert b o w input_file).1 →
  w_fs w !! k = None →
  is_Some (w_fs w' !! k) →
  let p := PathLib.parse (output_dir o) in
  (w_fs w' !! k = Some Dir
   ∧ ∃ n, k = PathLib.str (mkPath (root p) (take n (parts p))))
  ∨ (∃ x data,
       simple_name x
       ∧ k = path_prefix (root p) (parts p) +:+ x
       ∧ PathLib.parse k = mkPath (root p) (parts p ++ [x])
       ∧ w_fs w' !! k = Some (File data)).
Proof.
  intros Hw' Hnone Hsome p.
  assert (Hwb : writes_below (output_dir o) w w').
  { destruct Hw' as [->| ->]; [apply batch_writes_below|].
    rewrite convert_world. apply batch_try_writes_below. }
  destruct (Hwb k) as [Heq|[(_ & Hdir & Hn)|(_ & x & data & Hx & Hk & Hf)]].
  - rewrite Heq, Hnone in Hsome. by destruct Hsome.
  - by left.
  - right. exists x, data. split; [done|]. split; [done|]. split; [|done].
    rewrite Hk, <- str_snoc. apply parse_str.
    destruct (parse_wf (output_dir o)) as [Hr Hps]. split; [done|].
    cbn [parts]. apply Forall_app. split; [done|].
    constructor; [done|constructor].
Qed.

Lemma commands_write_below_output_dir_witness :
  (w_fs (convert Sample.b Sample.markdown Sample.w "docs/a.xlsx").1
     !! "out" = Some Dir
   ∧ ∃ n, "out" = PathLib.str (mkPath "" (take n ["out"])))
  ∨ (∃ x data,
       simple_name x
       ∧ "out" = path_prefix "" ["out"] +:+ x
       ∧ PathLib.parse "out" = mkPath "" (["out"] ++ [x])
       ∧ w_fs (convert Sample.b Sample.markdown Sample.w "docs/a.xlsx").1
         !! "out" = Some (File data)).
Proof.
  apply (commands_write_below_output_dir Sample.no_magic Sample.b
           Sample.markdown Sample.w "docs" true 50 true "docs/a.xlsx"
           _ "out").
  - right. reflexivity.
  - vm_compute. reflexivity.
  - vm_compute. eauto.
Defined.

Lemma convert_vs_batch_try (b : backend) (o : options) (w : world)
    (file_path : string) :
  match batch_try b o w file_path with
  | (w', inr out) => convert b o w file_path = (w', Converted out)
  | (w', inl e) => ∀ out, (convert b o w file_path).2 ≠ Converted out
  end.
Proof.
  unfold convert, batch_try.
  destruct (validate_input_file w file_path) as [[] msg]; [|done].
  destruct (converters b !! _) as [conv|]; [|done].
  destruct (create_output_path _ _ _ _) as [e|[w1 out]]; [done|].
  unfold batch_convert. cbn zeta.
  destruct (String.eqb (output_format o) "markdown").
  { destruct (to_markdown _ _ _ _ _) as [[]|c]; try done.
    by destruct (save_output _ _ _) as [? []]. }
  destruct (String.eqb (output_format o) "html").
  { destruct (convert_to_html _ _ _) as [[]|c]; try done.
    by destruct (save_output _ _ _) as [? []]. }
  destruct (String.eqb (output_format o) "json"); [|done].
  destruct (convert_to_json conv) as [to_json|]; [|done].
  destruct (to_json _ _) as [[]|c]; try done.
  by destruct (save_output _ _ _) as [? []].
Qed.

(** A successful attempt: the path was free, and the file written there
    holds what the conversion step returned. *)
Lemma batch_try_success (b : backend) (o : options) (w w' : world)
    (file_path out : string) :
  batch_try b o w file_path = (w', inr out) →
  ∃ w1 conv content j,
    create_output_path w file_path (output_dir o) (output_format o)
      = inr (w1, out)
    ∧ converters b !! detect_document_type file_path = Some conv
    ∧ batch_convert b conv o w1 file_path
        (detect_document_type file_path) = inr content
    ∧ out = PathLib.str (candidate file_path (output_dir o)
                                   (output_format o) j)
    ∧ w_fs w !! out = None
    ∧ w_fs w' = <[out := File content]> (w_fs w1)
    ∧ FS.node_at w' (PathLib.parse out) = Some (File content).
Proof.
  unfold batch_try.
  destruct (validate_input_file w file_path) as [[] msg]; [|done].
  destruct (converters b !! _) as [conv|]; [|done].
  destruct (create_output_path w file_path (output_dir o)
              (output_format o)) as [e|[w1 out1]] eqn:Hpath; [done|].
  destruct (batch_convert b conv o w1 file_path _) as [e|content]
    eqn:Hconv; [done|].
  destruct (save_output w1 content out1) as [w2 []] eqn:Hsave; [|done].
  intros [= -> ->]. exists w1, conv, content.
  pose proof Hpath as Hinv.
  apply create_output_path_inv in Hinv as (Hmk & j & -> & Hfree & _).
  exists j. split; [done|]. split; [done|]. split; [done|]. split; [done|].
  apply mkdir_parents_inr in Hmk as [Hcd _].
  apply save_output_frame in Hsave as [[_ [=]]|(data & Hfs & _ & Hdata)].
  rewrite (Hdata eq_refl), parse_str_candidate in Hfs.
  rewrite parse_str_candidate. split; [|split; [done|]].
  - destruct (w_fs w !! _) as [n|] eqn:Hw; [|done].
    eapply writes_below_lookup in Hw;
      [|by apply creates_dirs_writes_below]. congruence.
  - rewrite node_at_nonempty, Hfs; [apply lookup_insert_eq|].
    rewrite candidate_parts. cbn [parts]. apply parts_snoc_nonempty.
Qed.

(** X6. When a conversion succeeds, in [batch] as in [convert], the output
    file is new (nothing was at its path before the run) and holds exactly
    the text the conversion step returned: the Markdown after
    post-processing, the HTML or the JSON.  The two commands succeed on
    the same files, with the same output path and the same resulting
    world. *)
Theorem successful_conversion_content (b : backend) (o : options)
    (w w' : world) (file_path out : string) :
  (batch_try b o w file_path = (w', inr out)
   ↔ convert b o w file_path = (w', Converted out))
  ∧ (batch_try b o w file_path = (w', inr out) →
     ∃ w1 conv content,
       create_output_path w file_path (output_dir o) (output_format o)
         = inr (w1, out)
       ∧ converters b !! detect_document_type file_path = Some conv
       ∧ batch_convert b conv o w1 file_path
           (detect_document_type file_path) = inr content
       ∧ w_fs w !! out = None
       ∧ w_fs w' = <[out := File content]> (w_fs w1)
       ∧ FS.node_at w' (PathLib.parse out) = Some (File content)).
Proof.
  split.
  - pose proof (convert_vs_batch_try b o w file_path) as H.
    pose proof (convert_world b o w file_path) as Hw.
    destruct (batch_try b o w file_path) as [w2 [e|out2]]; cbn [fst] in Hw.
    + split; [done|]. intros Hc. rewrite Hc in H. by destruct (H out).
    + rewrite H. split; by intros [= -> ->].
  - intros (w1 & conv & content & j & H1 & H2 & H3 & _ & H4)%batch_try_success.
    by exists w1, conv, content.
Qed.

Lemma successful_conversion_content_witness :
  ∃ w1 conv content,
    create_output_path Sample.w "docs/a.xlsx" "out" "markdown"
      = inr (w1, "out/a.md")
    ∧ converters Sample.b !! detect_document_type "docs/a.xlsx" = Some conv
    ∧ batch_convert Sample.b conv Sample.markdown w1 "docs/a.xlsx"
        (detect_document_type "docs/a.xlsx") = inr content
    ∧ w_fs Sample.w !! "out/a.md" = None
    ∧ w_fs (batch_try Sample.b Sample.markdown Sample.w "docs/a.xlsx").1
      = <["out/a.md" := File content]> (w_fs w1)
    ∧ FS.node_at (batch_try Sample.b Sample.markdown Sample.w "docs/a.xlsx").1
                 (PathLib.parse "out/a.md") = Some (File content).
Proof.
  apply (successful_conversion_content Sample.b Sample.markdown Sample.w
           _ "docs/a.xlsx" "out/a.md").
  vm_compute. reflexivity.
Defined.

(** * The batch as a whole *)

Lemma summary_loop_spec (results : list conversion_result)
    (rows : list summary_row) (successful failed : nat) :
  summary_loop results rows successful failed
  = (rows ++ map (λ r, (input_file r, success r, output_file r)) results,
     successful + length (filter (λ r, success r = true) results),
     failed + length (filter (λ r, success r = false) results)).
Proof.
  revert rows successful failed.
  induction results as [|r rs IH]; intros rows s f; cbn [summary_loop map].
  - by rewrite app_nil_r, !Nat.add_0_r.
  - rewrite !filter_cons. destruct (success r) eqn:Hr; rewrite IH.
    + case_decide; [|done]. case_decide; [done|].
      rewrite <- app_assoc. cbn [app length]. do 2 f_equal. lia.
    + case_decide; [done|]. case_decide; [|done].
      rewrite <- app_assoc. cbn [app length]. f_equal. lia.
Qed.

Lemma filter_success_split (results : list conversion_result) :
  length (filter (λ r, success r = true) results)
  + length (filter (λ r, success r = false) results)
  = length results.
Proof.
  induction results as [|r rs IH]; [done|]. rewrite !filter_cons.
  destruct (success r); repeat case_decide; try done; cbn [length]; lia.
Qed.

Lemma records_length (files : list string) (rs : list (result string)) :
  length files = length rs → length (records files rs) = length rs.
Proof. intros H. unfold records. rewrite length_zip_with. lia. Qed.

Lemma records_success (files : list string) (rs : list (result string)) :
  length files = length rs →
  length (filter (λ r, success r = true) (records files rs))
  = length (filter (λ r, succeeded r = true) rs).
Proof.
  revert rs. induction files as [|f files IH]; intros [|r rs] Hlen;
    try done.
  unfold records in *. cbn [zip_with]. rewrite !filter_cons.
  rewrite record_of_success. injection Hlen as Hlen.
  case_decide; cbn [length]; by rewrite IH.
Qed.

Lemma attempt_all_take_length (b : backend) (o : options)
    (files : list string) (w w' : world) (rs : list (result string)) :
  attempt_all b o files w = (w', rs) → length files = length rs.
Proof.
  intros H. pose proof (attempt_all_length b o files w) as Hl.
  by rewrite H in Hl.
Qed.

(** X7. The summary that [print_conversion_summary] prints at the end of a
    batch agrees with the final statistics of [batch]: its counters
    [successful] and [failed], which it recomputes from the records, are
    the [successful_conversions] and [failed_conversions] of the command,
    and they add up to the number of records; the table has one row per
    record, in order. *)
Theorem summary_agrees_with_statistics (b : backend) (o : options)
    (continue_on_error lim : bool) (files : list string) (w : world) :
  let out := batch_run b o continue_on_error lim files w in
  print_conversion_summary (results out)
  = (map (λ r, (input_file r, success r, output_file r)) (results out),
     successful_conversions out, failed_conversions out,
     length (results out))
  ∧ successful_conversions out + failed_conversions out
    = length (results out).
Proof.
  intros out.
  destruct (batch_run_attempts b o continue_on_error lim files w)
    as (k & w' & rs & _ & Hatt & _ & Hres & Hsucc & _).
  fold out in Hres, Hsucc.
  apply attempt_all_take_length in Hatt.
  assert (Hs : successful_conversions out
               = length (filter (λ r, success r = true) (results out))).
  { by rewrite Hres, Hsucc, records_success. }
  assert (Hf : failed_conversions out
               = length (results out) - successful_conversions out).
  { subst out. unfold batch_run.
    by destruct (batch_loop _ _ _ _ _ _ _) as [[? ?] ?]. }
  pose proof (filter_success_split (results out)) as Hsplit.
  split; [|lia].
  unfold print_conversion_summary. rewrite summary_loop_spec. cbn [app].
  rewrite !Nat.add_0_l. repeat f_equal; lia.
Qed.

Lemma records_Forall_success (files : list string)
    (rs : list (result string)) :
  length files = length rs →
  Forall (λ r, succeeded r = true) rs →
  Forall (λ r, success r = true) (records files rs).
Proof.
  revert rs. induction files as [|f files IH]; intros [|r rs] Hlen Hall;
    try done.
  unfold records in *. cbn [zip_with]. inversion Hall; subst.
  constructor; [by rewrite record_of_success|].
  apply IH; [by injection Hlen|done].
Qed.

Lemma records_snoc (files : list string) (rs : list (result string))
    (r : result string) :
  length files = S (length rs) →
  ∃ files' f, files = files' ++ [f]
              ∧ records files (rs ++ [r])
                = records files' rs ++ [record_of f r].
Proof.
  intros Hlen.
  destruct (decide (files = [])) as [->|Hne]; [done|].
  destruct (exists_last Hne) as (files' & f & ->).
  exists files', f. split; [done|]. unfold records.
  rewrite length_app in Hlen. cbn in Hlen.
  rewrite zip_with_app by lia. done.
Qed.

(** X8. The exit code of a batch.  It is 1 exactly when
    [--continue-on-error] is off and some record is a failure, and 0
    otherwise: with the option on, the code is 0 even if every file
    failed; with the option off, code 0 means that every file of the list
    was converted. *)
Theorem batch_exit_code (b : backend) (o : options)
    (continue_on_error lim : bool) (files : list string) (w : world) :
  let out := batch_run b o continue_on_error lim files w in
  (exit_code out = 0%Z ∨ exit_code out = 1%Z)
  ∧ (exit_code out = 1%Z
     ↔ continue_on_error = false
       ∧ ∃ r, r ∈ results out ∧ success r = false)
  ∧ (continue_on_error = false → exit_code out = 0%Z →
     length (results out) = length files
     ∧ Forall (λ r, success r = true) (results out)
     ∧ successful_conversions out = length files).
Proof.
  intros out.
  destruct (batch_run_attempts b o continue_on_error lim files w)
    as (k & w' & rs & Hk & Hatt & _ & Hres & Hsucc & _ & Hnc).
  fold out in Hres, Hsucc.
  pose proof (attempt_all_take_length _ _ _ _ _ _ Hatt) as Hlen.
  assert (Hs : successful_conversions out
               = length (filter (λ r, success r = true) (results out))).
  { by rewrite Hres, Hsucc, records_success. }
  assert (Hcode : exit_code out
                  = if bool_decide
                         (0 < length (results out) - successful_conversions out)
                       && negb continue_on_error
                    then 1%Z else 0%Z).
  { subst out. unfold batch_run.
    by destruct (batch_loop _ _ _ _ _ _ _) as [[? ?] ?]. }
  pose proof (filter_success_split (results out)) as Hsplit.
  assert (Hfail : 0 < length (results out) - successful_conversions out
                  ↔ ∃ r, r ∈ results out ∧ success r = false).
  { rewrite Hs. split.
    - intros Hpos.
      destruct (filter (λ r, success r = false) (results out))
        as [|r l] eqn:Hfl; [cbn in Hsplit; lia|].
      exists r.
      assert (Hr : r ∈ filter (λ r, success r = false) (results out))
        by (rewrite Hfl; left).
      apply list_elem_of_filter in Hr as [? ?]. done.
    - intros (r & Hin & Hr).
      assert (Hin' : r ∈ filter (λ r, success r = false) (results out))
        by by apply list_elem_of_filter.
      destruct (filter (λ r, success r = false) (results out));
        [by apply elem_of_nil in Hin'|]. cbn [length] in Hsplit. lia. }
  split; [rewrite Hcode; case_match; [by right|by left]|]. split.
  - rewrite Hcode. destruct continue_on_error; cbn [negb].
    + rewrite andb_false_r. split; [done|by intros [? _]].
    + rewrite andb_true_r. case_bool_decide as Hd.
      * split; [|done]. intros _. split; [done|]. by apply Hfail.
      * split; [done|]. intros [_ Hex]. by apply Hfail in Hex.
  - intros -> Hzero. rewrite Hcode in Hzero. cbn [negb] in Hzero.
    rewrite andb_true_r in Hzero. case_bool_decide as Hd; [done|].
    destruct (Hnc eq_refl) as [[-> Hall]|(rs' & e & -> & Hall)].
    + rewrite firstn_all in Hres, Hlen.
      pose proof (records_Forall_success files rs Hlen Hall) as HF.
      rewrite <- Hres in HF. split; [|split; [done|]].
      * by rewrite Hres, records_length.
      * rewrite Hsucc, Hlen. f_equal.
        clear -Hall. induction Hall as [|r l Hr _ IH]; [done|].
        rewrite filter_cons. case_decide; [|done]. by rewrite IH.
    + exfalso. apply Hd, Hfail.
      rewrite length_app in Hlen. cbn [length] in Hlen.
      destruct (records_snoc (take k files) rs' (inl e))
        as (fs' & f & _ & Hrec); [unfold result in *; lia|].
      exists (record_of f (inl e)). split; [|done].
      rewrite Hres. unfold result in *. rewrite Hrec.
      apply elem_of_app. right. left.
Qed.

Lemma batch_unfold (gm : string → bool → world → list string)
    (b : backend) (o : options) (w : world) (input_directory : string)
    (recursive : bool) (max_files : Z) (c : bool) :
  let found := find_files_in_directory gm w input_directory recursive in
  batch gm b o w input_directory recursive max_files c
  = batch_run b o c
      (negb (bool_decide (found = []))
       && (max_files <? Z.of_nat (length found))%Z)
      (if (max_files <? Z.of_nat (length found))%Z
       then slice_to found max_files else found) w.
Proof.
  intros found. unfold batch. fold found. destruct found as [|f fs].
  - cbn [negb andb bool_decide]. rewrite bool_decide_eq_true_2 by done.
    cbn [negb andb]. unfold slice_to. rewrite !take_nil.
    by repeat case_match.
  - rewrite bool_decide_eq_false_2 by done. cbn [negb andb].
    by case_match.
Qed.

Lemma slice_to_take {A : Type} (l : list A) (n : Z) :
  ∃ m, slice_to l n = take m l
       ∧ (0 ≤ n → m = Z.to_nat n)%Z
       ∧ (n < 0 → m = Z.to_nat (Z.of_nat (length l) + n))%Z.
Proof.
  unfold slice_to. destruct (Z.ltb_spec n 0).
  - eexists. split; [done|]. split; [lia|done].
  - eexists. split; [done|]. split; [done|lia].
Qed.

Lemma records_input_file (files : list string) (rs : list (result string)) :
  length files = length rs →
  map input_file (records files rs)
  = map (λ f, PathLib.name (PathLib.parse f)) files.
Proof.
  revert rs. induction files as [|f files IH]; intros [|r rs] Hlen;
    try done.
  unfold records in *. cbn [zip_with map]. injection Hlen as Hlen.
  rewrite IH by done. by destruct r.
Qed.

(** X9. [--max-files] bounds the batch: with a limit of zero or more, no
    more files than the limit are attempted, and with
    [--continue-on-error] exactly the smaller of the limit and the number of
    files found.  A negative limit is not refused: it is used as a Python
    slice bound, so that the last files found are dropped.  The list is
    reported as cut when, and only when, files were found and the limit is
    below their number. *)
Theorem batch_respects_max_files
    (gm : string → bool → world → list string)
    (b : backend) (o : options) (w : world) (input_directory : string)
    (recursive : bool) (max_files : Z) (continue_on_error : bool) :
  let found := find_files_in_directory gm w input_directory recursive in
  let out := batch gm b o w input_directory recursive max_files
                   continue_on_error in
  length (results out) ≤ length found
  ∧ ((0 ≤ max_files)%Z →
     (Z.of_nat (length (results out)) ≤ max_files)%Z)
  ∧ ((max_files < 0)%Z →
     (Z.of_nat (length (results out))
      ≤ Z.max 0 (Z.of_nat (length found) + max_files))%Z)
  ∧ (continue_on_error = true →
     Z.of_nat (length (results out))
     = if (max_files <? 0)%Z
       then Z.max 0 (Z.of_nat (length found) + max_files)
       else Z.min (Z.of_nat (length found)) max_files)
  ∧ (limited out = true
     ↔ found ≠ [] ∧ (max_files < Z.of_nat (length found))%Z).
Proof.
  intros found out. subst out. rewrite batch_unfold. fold found.
  match goal with
  | |- context [batch_run _ _ _ ?lim0 ?l0 _] => set (lim := lim0); set (l := l0)
  end.
  destruct (batch_run_attempts b o continue_on_error lim l w)
    as (k & w' & rs & Hk & Hatt & _ & Hres & _ & Hc & _).
  pose proof (attempt_all_take_length _ _ _ _ _ _ Hatt) as Hlen.
  assert (Hres' : length (results (batch_run b o continue_on_error lim l w))
                  = k).
  { rewrite Hres, records_length by done. rewrite <- Hlen, length_take. lia. }
  rewrite Hres'.
  destruct (slice_to_take found max_files) as (m & Hm & Hpos & Hneg).
  assert (Hl : length l
               = if (max_files <? Z.of_nat (length found))%Z
                 then min m (length found) else length found).
  { subst l. case_match; [|done]. by rewrite Hm, length_take. }
  split; [|split; [|split; [|split]]].
  - revert Hl. case_match; lia.
  - intros H0. specialize (Hpos H0).
    revert Hl. destruct (Z.ltb_spec max_files (Z.of_nat (length found))); lia.
  - intros H0. specialize (Hneg H0).
    revert Hl. destruct (Z.ltb_spec max_files (Z.of_nat (length found))); lia.
  - intros Ht. rewrite (Hc Ht). revert Hl.
    destruct (Z.ltb_spec max_files (Z.of_nat (length found)));
      destruct (Z.ltb_spec max_files 0); lia.
  - assert (Hlimited : limited (batch_run b o continue_on_error lim l w)
                       = lim).
    { unfold batch_run. by destruct (batch_loop _ _ _ _ _ _ _) as [[? ?] ?]. }
    rewrite Hlimited. subst lim.
    rewrite andb_true_iff, negb_true_iff, bool_decide_eq_false, Z.ltb_lt.
    done.
Qed.

(** X10. A batch follows the order of discovery, which is the sorted order
    of the paths, and skips nothing: its records are, in order, those of
    the first files of the sorted list, each under the last component of
    its path. *)
Theorem batch_follows_discovery_order
    (gm : string → bool → world → list string)
    (b : backend) (o : options) (w : world) (input_directory : string)
    (recursive : bool) (max_files : Z) (continue_on_error : bool) :
  let found := find_files_in_directory gm w input_directory recursive in
  let out := batch gm b o w input_directory recursive max_files
                   continue_on_error in
  StronglySorted String.le found
  ∧ map input_file (results out)
    = map (λ f, PathLib.name (PathLib.parse f))
          (take (length (results out)) found).
Proof.
  intros found out. split.
  { subst found. unfold find_files_in_directory. case_match; [constructor|].
    apply StronglySorted_merge_sort; apply _. }
  subst out. rewrite batch_unfold. fold found.
  match goal with
  | |- context [batch_run _ _ _ ?lim0 ?l0 _] => set (lim := lim0); set (l := l0)
  end.
  destruct (batch_run_attempts b o continue_on_error lim l w)
    as (k & w' & rs & Hk & Hatt & _ & Hres & _).
  pose proof (attempt_all_take_length _ _ _ _ _ _ Hatt) as Hlen.
  rewrite Hres, records_input_file, records_length by done.
  rewrite <- Hlen, length_take, Nat.min_l by done. f_equal.
  subst l. case_match; [|done].
  destruct (slice_to_take found max_files) as (m & Hm & _).
  rewrite Hm in Hk |- *. rewrite length_take in Hk.
  rewrite take_take. f_equal. lia.
Qed.

(** The output paths of the successful attempts. *)
Lemma attempt_all_outputs (b : backend) (o : options) (files : list string)
    (w w' : world) (rs : list (result string)) :
  attempt_all b o files w = (w', rs) →
  let outs := omap (λ r : result string,
                      match r with inr out => Some out | inl _ => None end)
                   rs in
  NoDup outs
  ∧ ∀ out, out ∈ outs →
      w_fs w !! out = None
      ∧ (∃ data, w_fs w' !! out = Some (File data))
      ∧ ∃ x, simple_name x
             ∧ out = path_prefix (root (PathLib.parse (output_dir o)))
                                 (parts (PathLib.parse (output_dir o)))
                     +:+ x.
Proof.
  revert w w' rs. induction files as [|f files IH]; intros w w' rs;
    cbn [attempt_all].
  - intros [= <- <-]. cbn. split; [constructor|].
    by intros out ?%elem_of_nil.
  - destruct (batch_try b o w f) as [w1 r] eqn:Htry.
    destruct (attempt_all b o files w1) as [w2 rs'] eqn:Hatt.
    intros [= <- <-]. destruct (IH _ _ _ Hatt) as [Hnd Hall].
    pose proof (batch_try_writes_below b o w f) as Hw1.
    rewrite Htry in Hw1. cbn [fst] in Hw1.
    pose proof (attempt_all_writes_below b o files w1) as Hw2.
    rewrite Hatt in Hw2. cbn [fst] in Hw2.
    assert (Hold : ∀ out, out ∈ omap
                     (λ r : result string,
                        match r with inr out => Some out | inl _ => None end)
                     rs' →
              w_fs w !! out = None
              ∧ (∃ data, w_fs w2 !! out = Some (File data))
              ∧ ∃ x, simple_name x
                     ∧ out = path_prefix (root (PathLib.parse (output_dir o)))
                               (parts (PathLib.parse (output_dir o)))
                             +:+ x).
    { intros out Hout. destruct (Hall out Hout) as (Hnone & Hsome & Hx).
      split; [|done].
      destruct (w_fs w !! out) as [n|] eqn:Hw; [|done].
      eapply writes_below_lookup in Hw; [|done]. congruence. }
    destruct r as [e|out]; cbn [omap]; [done|].
    apply batch_try_success in Htry
      as (w0 & conv & content & j & _ & _ & _ & Hout & Hnone & Hfs & _).
    assert (Hin1 : w_fs w1 !! out = Some (File content)).
    { rewrite Hfs. apply lookup_insert_eq. }
    split.
    + constructor; [|done]. intros Hin.
      destruct (Hall out Hin) as (Hn & _). congruence.
    + intros out' [->|Hin]%elem_of_cons; [|by apply Hold].
      split; [done|]. split.
      * exists content. by eapply writes_below_lookup.
      * eexists. split; [|rewrite Hout; apply str_candidate].
        apply candidate_name_simple.
Qed.

Lemma records_output_file (files : list string) (rs : list (result string)) :
  length files = length rs →
  map output_file (filter (λ r, success r = true) (records files rs))
  = map (λ out, PathLib.name (PathLib.parse out))
        (omap (λ r : result string,
                 match r with inr out => Some out | inl _ => None end) rs).
Proof.
  revert rs. induction files as [|f files IH]; intros [|r rs] Hlen;
    try done.
  unfold records in *. cbn [zip_with]. injection Hlen as Hlen.
  rewrite filter_cons.
  destruct r as [e|out]; cbn [omap list_omap record_of success].
  - case_decide; [done|]. by apply IH.
  - case_decide; [|done]. cbn [map output_file]. f_equal. by apply IH.
Qed.

Lemma path_prefix_cases (p : Path) :
  wf_path p →
  path_prefix (root p) (parts p) = ""
  ∨ Str.ends_with "/" (path_prefix (root p) (parts p)) = true.
Proof.
  intros Hwf. rewrite <- glob_dirname_prefix by done. apply dir_prefix_cases.
Qed.

(** X11. No two files of a batch are written to the same output: the
    [output_file] entries of the successful records of a run are pairwise
    different, also when several inputs share a stem, and each of them names
    a file that exists, in the output directory, when the batch ends. *)
Theorem batch_outputs_distinct (gm : string → bool → world → list string)
    (b : backend) (o : options) (w : world) (input_directory : string)
    (recursive : bool) (max_files : Z) (continue_on_error : bool) :
  let out := batch gm b o w input_directory recursive max_files
                   continue_on_error in
  let written :=
    map output_file (filter (λ r, success r = true) (results out)) in
  NoDup written
  ∧ ∀ x, x ∈ written →
      w_fs w !! PathLib.str (PathLib.parse (output_dir o) / x)%path = None
      ∧ FS.is_file (final_world out) (PathLib.parse (output_dir o) / x)%path
        = true.
Proof.
  intros out written. subst written out. rewrite batch_unfold.
  match goal with
  | |- context [batch_run _ _ _ ?lim0 ?l0 _] => set (lim := lim0); set (l := l0)
  end.
  destruct (batch_run_attempts b o continue_on_error lim l w)
    as (k & w' & rs & Hk & Hatt & -> & -> & _).
  pose proof (attempt_all_take_length _ _ _ _ _ _ Hatt) as Hlen.
  rewrite records_output_file by done.
  destruct (attempt_all_outputs _ _ _ _ _ _ Hatt) as [Hnd Hall].
  cbn zeta in Hnd, Hall.
  set (p := PathLib.parse (output_dir o)) in *.
  pose proof (parse_wf (output_dir o)) as Hwf. fold p in Hwf.
  assert (Hname : ∀ out, out ∈ omap
                    (λ r : result string,
                       match r with inr out => Some out | inl _ => None end)
                    rs →
             ∃ x, simple_name x
                  ∧ out = path_prefix (root p) (parts p) +:+ x
                  ∧ PathLib.name (PathLib.parse out) = x).
  { intros out Hout. destruct (Hall out Hout) as (_ & _ & x & Hx & ->).
    exists x. split; [done|]. split; [done|].
    by apply name_parse_app; [apply path_prefix_cases|]. }
  split.
  - apply NoDup_fmap_2_strong; [|done].
    intros o1 o2 H1 H2 Heq.
    destruct (Hname o1 H1) as (x1 & _ & -> & Hn1).
    destruct (Hname o2 H2) as (x2 & _ & -> & Hn2). congruence.
  - intros x (out & -> & Hout)%list_elem_of_fmap.
    destruct (Hname out Hout) as (x & Hx & -> & ->).
    destruct (Hall _ Hout) as (Hnone & [data Hsome] & _).
    rewrite joinpath_simple, str_snoc by done. split; [done|].
    unfold FS.is_file. rewrite node_at_nonempty
      by (cbn [parts]; apply parts_snoc_nonempty).
    by rewrite str_snoc, Hsome.
Qed.

(** * Discovery and the rest of the pipeline *)

Lemma find_files_elem (gm : string → bool → world → list string)
    (w : world) (directory : string) (recursive : bool) (r : string) :
  Glob.has_magic (glob_dirname (PathLib.parse directory)) = false →
  r ∈ find_files_in_directory gm w directory recursive
  ↔ FS.is_dir w (PathLib.parse directory) = true
    ∧ discovered w (glob_dirname (PathLib.parse directory)) recursive r.
Proof.
  intros Hmagic. unfold find_files_in_directory.
  set (p := PathLib.parse directory) in *.
  pose proof (parse_wf directory) as Hp. fold p in Hp.
  assert (Hguard : negb (FS.exists_ w p) || negb (FS.is_dir w p)
                   = negb (FS.is_dir w p)).
  { unfold FS.exists_, FS.is_dir. by destruct (FS.node_at w p) as [[]|]. }
  rewrite Hguard.
  destruct (FS.is_dir w p) eqn:Hdir; cbn [negb];
    [|split; [by intros ?%elem_of_nil | by intros [? _]]].
  rewrite merge_sort_Permutation, elem_of_flat_map. split.
  - intros (ext & Hext & Hr). split; [done|].
    destruct (pattern_parts p ext Hext) as (Hp1 & Hr1 & Hp2 & Hr2).
    destruct recursive.
    + apply (glob_glob_spec _ _ _ _ _ _ _ Hp2) in Hr as (d & x & Hd & Hx & ->).
      rewrite Hr2, (glob_dirs_recursive gm p w Hmagic) in Hd.
      apply (recursive_dirs w p d Hp Hdir) in Hd as (xs & Hchain & ->).
      apply (glob1_sub_dir w p xs ext x Hp Hdir Hchain) in Hx
        as (Hvis & Hs & Hsome).
      exists xs, x, ext.
      rewrite (sub_dir_entry _ xs x (dir_chain_simple _ _ _ Hchain)).
      done.
    + apply (glob_glob_spec _ _ _ _ _ _ _ Hp1) in Hr as (d & x & Hd & Hx & ->).
      rewrite Hr1, (glob_dirs_plain gm p false w Hmagic) in Hd.
      list_inv Hd. subst d.
      apply (glob1_top w p ext x Hp Hdir) in Hx as (Hvis & Hs & Hsome).
      exists [], x, ext. split; [done|]. split; [done|].
      split; [|done]. split; [constructor|]. intros n Hn. cbn in Hn. lia.
  - intros (_ & xs & x & ext & -> & Hrec & Hchain & Hvis & Hsome & Hext & Hs).
    exists ext. split; [done|].
    destruct (pattern_parts p ext Hext) as (Hp1 & Hr1 & Hp2 & Hr2).
    destruct recursive.
    + apply (glob_glob_spec _ _ _ _ _ _ _ Hp2).
      exists (Glob.dir_prefix (glob_dirname p) +:+ Str.join "/" xs), x.
      split; [|split].
      * rewrite Hr2, (glob_dirs_recursive gm p w Hmagic).
        apply (recursive_dirs w p _ Hp Hdir). by exists xs.
      * by apply (glob1_sub_dir w p xs ext x Hp Hdir Hchain).
      * symmetry. apply sub_dir_entry. by eapply dir_chain_simple.
    + rewrite (Hrec eq_refl) in *.
      apply (glob_glob_spec _ _ _ _ _ _ _ Hp1).
      exists (glob_dirname p), x. split; [|split; [|done]].
      * rewrite Hr1, (glob_dirs_plain gm p false w Hmagic). list_in.
      * by apply (glob1_top w p ext x Hp Hdir).
Qed.

Lemma name_snoc (r : string) (ps : list string) (x : string) :
  PathLib.name (mkPath r (ps ++ [x])) = x.
Proof. unfold PathLib.name. cbn [parts]. apply last_last. Qed.

Lemma output_ext_facts (output_format : string) :
  Str.rfind "." (output_ext output_format) = Some 0
  ∧ 2 ≤ String.length (output_ext output_format)
  ∧ Str.lower (output_ext output_format) = output_ext output_format
  ∧ output_ext output_format ∉ get_all_supported_extensions.
Proof.
  pose proof (output_ext_cases output_format) as H. rewrite all_extensions.
  list_inv H; rewrite H; (split; [by vm_compute|]); (split; [cbn; lia|]);
    (split; [by vm_compute|]); intros Hin; by list_inv Hin.
Qed.

(** The suffix of an output path is the extension chosen for the format,
    unless the stem is empty (the input was the current directory or a
    root) and the name of the output begins with the dot. *)
Lemma candidate_suffix (input_file output_dir output_format : string)
    (k : nat) :
  PathLib.suffix (candidate input_file output_dir output_format k) = ""
  ∨ PathLib.suffix (candidate input_file output_dir output_format k)
    = output_ext output_format.
Proof.
  rewrite candidate_parts.
  set (stem := PathLib.stem _). set (ext := output_ext _).
  destruct (output_ext_facts output_format) as (Hrf & Hlen & _).
  fold ext in Hrf, Hlen.
  assert (Hs : ∃ s, candidate_name stem ext k = s +:+ ext).
  { destruct k; cbn [candidate_name]; [by exists stem|].
    exists (stem +:+ "_" +:+ pretty (S k)). by rewrite !app_assoc_str. }
  destruct Hs as [s Hs].
  destruct (decide (s = "")) as [->|Hne].
  - left. unfold PathLib.suffix. rewrite name_snoc, Hs, app_empty_l, Hrf.
    done.
  - right. eapply suffix_of_name; [|done..]. by rewrite name_snoc.
Qed.

(** X12. What the commands write is never taken for an input: the path
    [create_output_path] returns has none of the supported extensions,
    whatever the format, so that no discovery, in whatever directory and
    state of the file system, returns it, and validation rejects it.  A
    batch whose output directory lies inside its input directory does not
    convert its own results when it is run again. *)
Theorem outputs_never_rediscovered
    (gm : string → bool → world → list string) (w w1 w' : world)
    (input_file output_dir output_format out directory : string)
    (recursive : bool) :
  create_output_path w input_file output_dir output_format = inr (w1, out) →
  is_supported_file out = false
  ∧ detect_document_type out = "unknown"
  ∧ (validate_input_file w' out).1 = false
  ∧ out ∉ find_files_in_directory gm w' directory recursive.
Proof.
  intros (_ & j & -> & _)%create_output_path_inv.
  set (out := PathLib.str _).
  assert (Hsfx : Str.lower (PathLib.suffix (PathLib.parse out))
                 ∉ get_all_supported_extensions).
  { subst out. rewrite parse_str_candidate.
    destruct (output_ext_facts output_format) as (_ & _ & Hlow & Hnot).
    destruct (candidate_suffix input_file output_dir output_format j)
      as [-> | ->].
    - rewrite all_extensions. intros Hin. by list_inv Hin.
    - by rewrite Hlow. }
  assert (Hsup : is_supported_file out = false).
  { unfold is_supported_file. by apply bool_decide_eq_false_2. }
  split; [done|]. split; [|split].
  - unfold detect_document_type.
    destruct (decide (detect_in SUPPORTED_EXTENSIONS
                        (Str.lower (PathLib.suffix (PathLib.parse out)))
                      = "unknown")) as [|Hne]; [done|].
    by apply (detect_in_known _ _ table_known) in Hne.
  - destruct (validate_input_file w' out) as [[] m] eqn:Hv; [|done].
    assert (Hv1 : (validate_input_file w' out).1 = true) by by rewrite Hv.
    apply validate_accepts in Hv1 as (_ & _ & Hs). congruence.
  - intros Hin. apply find_files_suffix in Hin as [Hin _].
    apply Hsfx.
    destruct (extension_facts _ Hin) as (_ & _ & _ & _ & Hlow & _).
    by rewrite Hlow.
Qed.

Lemma outputs_never_rediscovered_witness :
  is_supported_file "out/a.md" = false
  ∧ detect_document_type "out/a.md" = "unknown"
  ∧ (validate_input_file Sample.w_taken "out/a.md").1 = false
  ∧ "out/a.md" ∉ find_files_in_directory Sample.no_magic Sample.w_taken
                   "out" true.
Proof.
  apply (outputs_never_rediscovered Sample.no_magic Sample.w Sample.w_out
           Sample.w_taken "docs/a.xlsx" "out" "markdown" "out/a.md" "out"
           true).
  vm_compute. reflexivity.
Defined.

(** X13. Searching recursively only adds results: for a directory whose
    path holds no glob metacharacter, every path found without
    [--recursive] is found with it. *)
Theorem recursive_discovery_extends
    (gm : string → bool → world → list string) (w : world)
    (directory : string) (r : string) :
  Glob.has_magic (glob_dirname (PathLib.parse directory)) = false →
  r ∈ find_files_in_directory gm w directory false →
  r ∈ find_files_in_directory gm w directory true.
Proof.
  intros Hmagic Hin.
  apply (find_files_elem gm w directory false r Hmagic) in Hin
    as (Hdir & xs & x & ext & Hr & _ & Hrest).
  apply (find_files_elem gm w directory true r Hmagic). split; [done|].
  exists xs, x, ext. split; [done|]. split; [done|]. done.
Qed.

Lemma recursive_discovery_extends_witness :
  "docs/a.xlsx"
    ∈ find_files_in_directory Sample.no_magic Sample.w "docs" true.
Proof.
  apply (recursive_discovery_extends Sample.no_magic Sample.w "docs");
    [by vm_compute|].
  vm_compute. list_in.
Defined.

(** A path found below a directory without metacharacters: how it parses,
    and the entry it names. *)
Lemma found_entry (gm : string → bool → world → list string) (w : world)
    (directory : string) (recursive : bool) (r : string) :
  Glob.has_magic (glob_dirname (PathLib.parse directory)) = false →
  r ∈ find_files_in_directory gm w directory recursive →
  let p := PathLib.parse directory in
  (∃ rel, rel ≠ [] ∧ PathLib.parse r = mkPath (root p) (parts p ++ rel))
  ∧ PathLib.str (PathLib.parse r) = r
  ∧ FS.node_at w (PathLib.parse r) = w_fs w !! r
  ∧ is_Some (w_fs w !! r)
  ∧ FS.exists_ w (PathLib.parse r) = true.
Proof.
  intros Hmagic Hin p.
  apply (find_files_elem gm w directory recursive r Hmagic) in Hin
    as (Hdir & xs & x & ext & Hr & _ & Hchain & Hvis & Hsome & _).
  fold p in Hr, Hchain, Hdir.
  pose proof (parse_wf directory) as Hp. fold p in Hp.
  assert (Hsimple : Forall simple_name (xs ++ [x])).
  { apply Forall_app. split; [by eapply dir_chain_simple|].
    constructor; [by apply visible_simple|constructor]. }
  assert (Hparse : PathLib.parse r = mkPath (root p) (parts p ++ xs ++ [x])).
  { rewrite Hr. by apply parse_sub_dir. }
  assert (Hstr : PathLib.str (PathLib.parse r) = r).
  { rewrite Hparse, Hr, glob_dirname_prefix by done.
    rewrite prefix_join by (by destruct xs).
    unfold PathLib.str. cbn [parts root].
    destruct (parts p ++ xs ++ [x]) eqn:Hl; [|done].
    apply app_eq_nil in Hl as [_ Hl]. by destruct xs. }
  assert (Hnode : FS.node_at w (PathLib.parse r) = w_fs w !! r).
  { rewrite node_at_nonempty, Hstr; [done|]. rewrite Hparse. cbn [parts].
    intros Hl. apply app_eq_nil in Hl as [_ Hl]. by destruct xs. }
  split; [exists (xs ++ [x]); split; [by destruct xs|done]|].
  split; [done|]. split; [done|]. split; [done|].
  unfold FS.exists_. rewrite Hnode. by apply bool_decide_eq_true_2.
Qed.

(** X14. What discovery returns, validation accepts unless it is a
    directory or too large.  For a directory whose path holds no glob
    metacharacter, every path found exists, lies below the directory and
    has a supported type; [validate_input_file] never answers "File not
    found" or "Unsupported file type" for it: it answers "Path is not a
    file" when the entry is a directory, "File too large" when it exceeds
    100 MiB, and accepts it otherwise. *)
Theorem discovered_entries_validate
    (gm : string → bool → world → list string) (w : world)
    (directory : string) (recursive : bool) (r : string) :
  Glob.has_magic (glob_dirname (PathLib.parse directory)) = false →
  r ∈ find_files_in_directory gm w directory recursive →
  let p := PathLib.parse directory in
  FS.exists_ w (PathLib.parse r) = true
  ∧ (∃ rel, rel ≠ []
            ∧ PathLib.parse r = mkPath (root p) (parts p ++ rel)
            ∧ PathLib.str (PathLib.parse r) = r)
  ∧ is_supported_file r = true
  ∧ validate_input_file w r
    = if FS.is_dir w (PathLib.parse r) then (false, NotAFileMsg r)
      else if (MAX_FILE_SIZE_MB * (1024 * 1024)
               <? FS.st_size w (PathLib.parse r))%N
           then (false, FileTooLargeMsg (FS.st_size w (PathLib.parse r)))
           else (true, Text "").
Proof.
  intros Hmagic Hin p.
  pose proof (find_files_suffix gm w directory recursive r Hin) as [Hsfx _].
  destruct (found_entry gm w directory recursive r Hmagic Hin)
    as ((rel & Hrel & Hparse) & Hstr & Hnode & Hsome & Hex).
  fold p in Hparse.
  assert (Hsup : is_supported_file r = true).
  { unfold is_supported_file. apply bool_decide_eq_true_2.
    destruct (extension_facts _ Hsfx) as (_ & _ & _ & _ & Hlow & _).
    by rewrite Hlow. }
  split; [done|]. split; [by exists rel|]. split; [done|].
  unfold validate_input_file. rewrite Hex, Hsup. cbn [negb].
  unfold FS.is_file, FS.is_dir. destruct Hsome as [n Hn].
  rewrite Hnode, Hn. destruct n; cbn [negb]; [|done].
  by case_match.
Qed.

Lemma discovered_entries_validate_witness :
  validate_input_file Sample.w_odd "in/old.xlsx"
  = (false, NotAFileMsg "in/old.xlsx")
  ∧ validate_input_file Sample.w_odd "in/a.xlsx" = (true, Text "").
Proof.
  split.
  - destruct (discovered_entries_validate Sample.no_magic Sample.w_odd
                "in" false "in/old.xlsx") as (_ & _ & _ & ->);
      [by vm_compute|vm_compute; list_in|by vm_compute].
  - by vm_compute.
Defined.

(** * The [scan] and [info] commands *)

Lemma scan_loop_spec (cwd : string) (st_size_dir : Path → N) (w : world)
    (files : list string) (files_by_type : gmap string (list string))
    (total_size : N) :
  (∀ f, f ∈ files → is_Some (files_by_type !! detect_document_type f)) →
  ∃ files_by_type',
    Info.scan_loop cwd st_size_dir w files files_by_type total_size
    = inr (files_by_type',
           (total_size
            + foldr (λ f acc,
                       from_option FileInfo.size_bytes 0
                         (get_file_info cwd st_size_dir w f) + acc) 0
                    files)%N)
    ∧ ∀ t, files_by_type' !! t
           = (λ l, l ++ filter (λ f, detect_document_type f = t) files)
             <$> files_by_type !! t.
Proof.
  revert files_by_type total_size.
  induction files as [|f files IH]; intros fbt total Hdom;
    cbn [Info.scan_loop foldr].
  - exists fbt. split; [by rewrite N.add_0_r|].
    intros t. rewrite filter_nil. destruct (fbt !! t); cbn; [|done].
    by rewrite app_nil_r.
  - destruct (Hdom f) as [l Hl]; [left|]. rewrite Hl.
    edestruct (IH (<[detect_document_type f := l ++ [f]]> fbt))
      as (fbt' & -> & Hfbt').
    { intros f' Hf'.
      destruct (decide (detect_document_type f = detect_document_type f'))
        as [<-|Hne].
      - rewrite lookup_insert_eq. by eexists.
      - rewrite lookup_insert_ne by done. apply Hdom. by right. }
    exists fbt'. split; [f_equal; f_equal; lia|].
    intros t. rewrite Hfbt', filter_cons.
    destruct (decide (detect_document_type f = t)) as [<-|Hne].
    + rewrite lookup_insert_eq, Hl. cbn. by rewrite <- app_assoc.
    + by rewrite lookup_insert_ne.
Qed.

Lemma partition_by_type (files : list string) :
  (∀ f, f ∈ files →
        detect_document_type f ∈ ["excel"; "word"; "powerpoint"]) →
  length (filter (λ f, detect_document_type f = "excel") files)
  + length (filter (λ f, detect_document_type f = "word") files)
  + length (filter (λ f, detect_document_type f = "powerpoint") files)
  = length files.
Proof.
  induction files as [|f files IH]; intros Hall; [done|].
  rewrite !filter_cons.
  specialize (IH (λ f' Hf', Hall f' (list_elem_of_further _ _ _ Hf'))).
  pose proof (Hall f (list_elem_of_here _ _)) as Hf.
  list_inv Hf; rewrite Hf; repeat case_decide; try done; cbn [length]; lia.
Qed.

Lemma found_classified (gm : string → bool → world → list string)
    (w : world) (directory : string) (recursive : bool) (f : string) :
  f ∈ find_files_in_directory gm w directory recursive →
  detect_document_type f ∈ ["excel"; "word"; "powerpoint"].
Proof.
  intros [Hsfx _]%find_files_suffix. apply supported_classified.
  unfold is_supported_file. apply bool_decide_eq_true_2.
  destruct (extension_facts _ Hsfx) as (_ & _ & _ & _ & Hlow & _).
  by rewrite Hlow.
Qed.

(** X15. [scan] never fails on the lookup [files_by_type[doc_type]]: every
    path discovery returns has one of the three types the dict was created
    with, so no [KeyError] is raised, whatever the directory.  The three
    groups partition the files found: each group lists, in the order of
    discovery, the files of its type, and the three counts of the summary
    add up to the number of files found. *)
Theorem scan_groups_every_file (gm : string → bool → world → list string)
    (cwd : string) (st_size_dir : Path → N) (w : world)
    (directory : string) (recursive : bool) :
  let found := find_files_in_directory gm w directory recursive in
  let group t := filter (λ f, detect_document_type f = t) found in
  (∀ doc_type,
     Info.scan gm cwd st_size_dir w directory recursive
     ≠ Info.KeyError doc_type)
  ∧ (found = [] →
     Info.scan gm cwd st_size_dir w directory recursive
     = Info.NoSupportedFiles)
  ∧ (found ≠ [] →
     ∃ files_by_type total_size,
       Info.scan gm cwd st_size_dir w directory recursive
       = Info.Scanned found files_by_type total_size
       ∧ files_by_type !! "excel" = Some (group "excel")
       ∧ files_by_type !! "word" = Some (group "word")
       ∧ files_by_type !! "powerpoint" = Some (group "powerpoint")
       ∧ (∀ t, t ∉ ["excel"; "word"; "powerpoint"] →
               files_by_type !! t = None)
       ∧ length (group "excel") + length (group "word")
         + length (group "powerpoint") = length found).
Proof.
  intros found group.
  assert (Hcls : ∀ f, f ∈ found →
            detect_document_type f ∈ ["excel"; "word"; "powerpoint"]).
  { intros f. apply found_classified. }
  destruct (scan_loop_spec cwd st_size_dir w found Info.files_by_type_init 0)
    as (fbt & Hloop & Hfbt).
  { intros f Hf. specialize (Hcls f Hf).
    list_inv Hcls; rewrite Hcls; by eexists. }
  assert (Hscan : Info.scan gm cwd st_size_dir w directory recursive
                  = match found with
                    | [] => Info.NoSupportedFiles
                    | _ => Info.Scanned found fbt
                             (0 + foldr (λ f acc,
                                    from_option FileInfo.size_bytes 0
                                      (get_file_info cwd st_size_dir w f)
                                    + acc) 0 found)%N
                    end).
  { unfold Info.scan. fold found. rewrite Hloop. by destruct found. }
  rewrite Hscan. subst group. clearbody found. cbn beta.
  split; [by destruct found|]. split; [by intros ->|].
  intros Hne. eexists fbt, _. split; [by destruct found|].
  split; [by rewrite Hfbt|]. split; [by rewrite Hfbt|].
  split; [by rewrite Hfbt|]. split; [|by apply partition_by_type].
  intros t Ht. rewrite Hfbt.
  unfold Info.files_by_type_init.
  rewrite !lookup_insert_ne, lookup_empty; [done|..];
    intros <-; apply Ht; list_in.
Qed.

Lemma get_file_info_size (cwd : string) (st_size_dir : Path → N)
    (w : world) (file_path : string) :
  FS.exists_ w (PathLib.parse file_path) = true →
  from_option FileInfo.size_bytes 0%N
    (get_file_info cwd st_size_dir w file_path)
  = stat_st_size st_size_dir w (PathLib.parse file_path).
Proof. intros H. unfold get_file_info. by rewrite H. Qed.

(** X16. The total size [scan] reports is the sum of the sizes of all the
    entries found, directories included: for a directory whose path holds
    no glob metacharacter every path found exists, so that none is counted
    with the default 0 of [file_info.get('size_bytes', 0)].  When the
    entries found are all regular files, the total is the sum of the
    lengths of their contents. *)
Theorem scan_total_size (gm : string → bool → world → list string)
    (cwd : string) (st_size_dir : Path → N) (w : world)
    (directory : string) (recursive : bool) (files : list string)
    (files_by_type : gmap string (list string)) (total_size : N) :
  Glob.has_magic (glob_dirname (PathLib.parse directory)) = false →
  Info.scan gm cwd st_size_dir w directory recursive
    = Info.Scanned files files_by_type total_size →
  files = find_files_in_directory gm w directory recursive
  ∧ total_size
    = foldr (λ f acc, (stat_st_size st_size_dir w (PathLib.parse f) + acc)%N)
            0%N files
  ∧ (Forall (λ f, FS.is_file w (PathLib.parse f) = true) files →
     total_size
     = foldr (λ f acc, (FS.st_size w (PathLib.parse f) + acc)%N) 0%N files).
Proof.
  intros Hmagic Hscan.
  set (found := find_files_in_directory gm w directory recursive) in *.
  assert (Hex : ∀ f, f ∈ found → FS.exists_ w (PathLib.parse f) = true).
  { intros f Hf.
    by destruct (found_entry gm w directory recursive f Hmagic Hf)
      as (_ & _ & _ & _ & ?). }
  destruct (scan_loop_spec cwd st_size_dir w found Info.files_by_type_init 0)
    as (fbt & Hloop & _).
  { intros f Hf. pose proof (found_classified gm w directory recursive f Hf)
      as Hcls.
    list_inv Hcls; rewrite Hcls; by eexists. }
  unfold Info.scan in Hscan. fold found in Hscan. rewrite Hloop in Hscan.
  assert (Hfiles : files = found ∧ total_size
            = (0 + foldr (λ f acc,
                     from_option FileInfo.size_bytes 0
                       (get_file_info cwd st_size_dir w f) + acc) 0 found)%N).
  { destruct found; [done|]. by injection Hscan as <- _ <-. }
  destruct Hfiles as [-> ->]. split; [done|]. rewrite N.add_0_l.
  clearbody found. clear Hscan Hloop.
  assert (Hsum : foldr (λ f acc,
                     (from_option FileInfo.size_bytes 0
                        (get_file_info cwd st_size_dir w f) + acc)%N) 0%N found
                 = foldr (λ f acc,
                     (stat_st_size st_size_dir w (PathLib.parse f) + acc)%N)
                     0%N found).
  { induction found as [|f fs IH]; [done|]. cbn [foldr].
    rewrite get_file_info_size by (apply Hex; left).
    rewrite IH; [done|]. intros f' Hf'. apply Hex. by right. }
  rewrite Hsum. split; [done|].
  intros Hall. clear Hsum Hex.
  induction Hall as [|f fs Hf _ IH]; [done|]. cbn [foldr]. rewrite IH.
  f_equal. unfold stat_st_size, FS.is_file in *.
  by destruct (FS.node_at w (PathLib.parse f)) as [[]|].
Qed.

Lemma scan_total_size_witness :
  match Info.scan Sample.no_magic "/home/user" (λ _, 4096%N) Sample.w
                  "docs" true with
  | Info.Scanned files _ total_size =>
      length files = 4 ∧ total_size = 14%N
  | _ => False
  end.
Proof.
  destruct (Info.scan Sample.no_magic "/home/user" (λ _, 4096%N) Sample.w
              "docs" true) as [| |files fbt total] eqn:Hscan;
    [by vm_compute in Hscan..|].
  destruct (scan_total_size Sample.no_magic "/home/user" (λ _, 4096%N)
              Sample.w "docs" true files fbt total) as (-> & -> & _);
    [vm_compute; reflexivity|exact Hscan|].
  clear Hscan. split; vm_compute; reflexivity.
Defined.


Lemma lower_app (s t : string) :
  Str.lower (s +:+ t) = Str.lower s +:+ Str.lower t.
Proof.
  induction s as [|c s IH]; [by rewrite !app_empty_l|].
  rewrite app_cons. cbn [Str.lower]. by rewrite app_cons, IH.
Qed.

(** A name is its stem followed by its suffix. *)
Lemma stem_suffix (p : Path) :
  PathLib.stem p +:+ PathLib.suffix p = PathLib.name p.
Proof.
  unfold PathLib.stem, PathLib.suffix.
  destruct (Str.rfind "." (PathLib.name p)) as [i|] eqn:Hr;
    [|apply app_empty_r].
  case_match eqn:Hc; [|apply app_empty_r].
  apply andb_true_iff in Hc as [_ Hi%Nat.ltb_lt].
  unfold Str.take, Str.drop. symmetry. apply substring_split. lia.
Qed.

Lemma str_starts_with_root (p : Path) :
  wf_path p → root p ≠ "" → Str.starts_with "/" (PathLib.str p) = true.
Proof.
  intros [Hr _] Hne. unfold PathLib.str.
  destruct (parts p); list_inv Hr; rewrite Hr in *; done.
Qed.

Lemma parse_root_absolute (s : string) :
  Str.starts_with "/" s = true → root (PathLib.parse s) ≠ "".
Proof.
  intros Hs. unfold PathLib.parse, PathLib.splitroot. rewrite Hs.
  by destruct (_ =? 2)%nat.
Qed.

(** X17. The information [get_file_info] gives on a file that passed
    validation is consistent: the dict is not empty, [name] is the last
    component of the path and ends, case apart, with [extension], which is
    one of the six supported extensions; [type] is the document type the
    table gives for that extension, never ["unknown"]; [size_bytes] is the
    length of the content, at most 100 MiB; and [absolute_path] is absolute
    whenever the current directory is. *)
Theorem file_info_of_validated_file (cwd : string) (st_size_dir : Path → N)
    (w : world) (file_path : string) :
  (validate_input_file w file_path).1 = true →
  ∃ file_info,
    get_file_info cwd st_size_dir w file_path = Some file_info
    ∧ FileInfo.name file_info = PathLib.name (PathLib.parse file_path)
    ∧ FileInfo.extension file_info ∈ get_all_supported_extensions
    ∧ Str.has_suffix (FileInfo.extension file_info)
                     (Str.lower (FileInfo.name file_info)) = true
    ∧ FileInfo.type file_info ∈ ["excel"; "word"; "powerpoint"]
    ∧ FileInfo.type file_info
      = detect_in SUPPORTED_EXTENSIONS (FileInfo.extension file_info)
    ∧ FileInfo.size_bytes file_info
      = FS.st_size w (PathLib.parse file_path)
    ∧ (FileInfo.size_bytes file_info ≤ 104857600)%N
    ∧ (Str.starts_with "/" cwd = true →
       Str.starts_with "/" (FileInfo.absolute_path file_info) = true).
Proof.
  intros (Hfile & Hsize & Hsup)%validate_accepts.
  unfold get_file_info. rewrite (is_file_exists _ _ Hfile). cbn [negb].
  eexists. split; [done|].
  cbn [FileInfo.name FileInfo.extension FileInfo.type FileInfo.size_bytes
         FileInfo.absolute_path].
  split; [done|]. split.
  { revert Hsup. unfold is_supported_file. by rewrite bool_decide_eq_true. }
  split.
  { rewrite <- (stem_suffix (PathLib.parse file_path)).
    rewrite lower_app. apply has_suffix_app. }
  split; [by apply supported_classified|]. split; [done|]. split.
  { unfold stat_st_size, FS.is_file in *.
    by destruct (FS.node_at w (PathLib.parse file_path)) as [[]|]. }
  split.
  { unfold stat_st_size, FS.is_file in *.
    by destruct (FS.node_at w (PathLib.parse file_path)) as [[]|]. }
  intros Hcwd. apply str_starts_with_root.
  - pose proof (parse_wf file_path) as [Hr Hps].
    pose proof (parse_wf cwd) as [Hrc Hpc].
    unfold absolute. case_match; [|done].
    split; [done|]. cbn [parts]. by apply Forall_app.
  - unfold absolute. case_match eqn:Hroot; cbn [root].
    + by apply parse_root_absolute.
    + by apply String.eqb_neq in Hroot.
Qed.

Lemma file_info_of_validated_file_witness :
  ∃ file_info,
    get_file_info "/home/user" (λ _, 4096%N) Sample.w "docs/REPORT.XLSX"
      = Some file_info
    ∧ FileInfo.name file_info = "REPORT.XLSX"
    ∧ FileInfo.extension file_info = ".xlsx"
    ∧ FileInfo.type file_info = "excel"
    ∧ FileInfo.absolute_path file_info = "/home/user/docs/REPORT.XLSX".
Proof.
  destruct (file_info_of_validated_file "/home/user" (λ _, 4096%N)
              Sample.w "docs/REPORT.XLSX") as (fi & Hfi & _);
    [by vm_compute|].
  exists fi. split; [done|].
  vm_compute in Hfi. injection Hfi as <-. done.
Defined.

Ltac not_in_lines :=
  let H := fresh in
  intros H; cbn [app negb orb] in H;
  repeat (apply elem_of_cons in H as [H|H]; [discriminate H|]);
  by apply elem_of_nil in H.

(** X18. [info --file] never reports a file as unsupported: the check of
    [is_supported_file] that follows the validation always succeeds, so
    that the warning "This file type is not supported" and the list of
    supported extensions after it are never printed.  For a file that
    passes validation the command announces the type as supported and lists
    the formats [markdown] and [html], with [json] exactly for Excel
    files; for one that fails it prints the error of the validation and
    returns at once, without the file table and without the usage examples
    even when [--examples] was given. *)
Theorem info_file_report (cwd : string) (st_size_dir : Path → N) (w : world)
    (show_formats show_examples : bool) (file_path : option string) :
  let lines :=
    Info.info cwd st_size_dir w show_formats show_examples file_path in
  (Info.print_warning Info.TypeNotSupportedText ∉ lines)
  ∧ (∀ exts, Info.print_info (Info.SupportedExtensionsText exts) ∉ lines)
  ∧ (∀ f, file_path = Some f → f ≠ "" →
       if (validate_input_file w f).1
       then Info.print_success Info.TypeSupportedText ∈ lines
            ∧ Info.print_info
                (Info.AvailableFormatsText
                   (["markdown"; "html"]
                    ++ (if String.eqb (detect_document_type f) "excel"
                        then ["json"] else []))) ∈ lines
            ∧ Info.print_file_info (get_file_info cwd st_size_dir w f)
              ∈ lines
            ∧ (show_examples = true → Info.print_usage_examples ∈ lines)
       else Info.print_error (validate_input_file w f).2 ∈ lines
            ∧ (Info.print_usage_examples ∉ lines)
            ∧ ∀ file_info, Info.print_file_info file_info ∉ lines).
Proof.
  intros lines. subst lines. unfold Info.info, Info.info_file, Info.truthy.
  destruct file_path as [f|].
  - destruct (String.eqb_spec f "") as [->|Hne]; cbn [negb].
    + rewrite !orb_false_r. split; [|split].
      * destruct show_formats, show_examples; not_in_lines.
      * intros exts. destruct show_formats, show_examples; not_in_lines.
      * intros f Hf Hne. injection Hf as Hf. by subst f.
    + rewrite !orb_true_r. cbn [negb].
      destruct (validate_input_file w f) as [[] m] eqn:Hv; cbn [fst snd].
      * assert (Hs : is_supported_file f = true).
        { assert (Hv1 : (validate_input_file w f).1 = true) by by rewrite Hv.
          by apply validate_accepts in Hv1 as (_ & _ & ?). }
        rewrite Hs.
        set (file_info := get_file_info cwd st_size_dir w f).
        set (doc_type := detect_document_type f).
        split; [|split].
        -- destruct show_formats, show_examples; not_in_lines.
        -- intros exts. destruct show_formats, show_examples; not_in_lines.
        -- intros f' [= <-] _. rewrite Hv. cbn [fst snd].
           destruct show_formats, show_examples; cbn [app];
             (split; [list_in|]); (split; [list_in|]); (split; [list_in|]);
             first [done | intros _; list_in].
      * split; [|split].
        -- destruct show_formats; not_in_lines.
        -- intros exts. destruct show_formats; not_in_lines.
        -- intros f' [= <-] _. rewrite Hv. cbn [fst snd].
           destruct show_formats; cbn [app];
             (split; [list_in|]); (split; [not_in_lines|]);
             intros fi; not_in_lines.
  - rewrite !orb_false_r. split; [|split; [|done]].
    + destruct show_formats, show_examples; not_in_lines.
    + intros exts. destruct show_formats, show_examples; not_in_lines.
Qed.

(** * Well-formed worlds and successful runs *)

Lemma wf_world_lookup (w : world) (k : string) (n : node) :
  wf_world w → w_fs w !! k = Some n →
  FS.parent_error w (PathLib.parse k) = None.
Proof. intros Hwf Hk. by apply (Hwf k n). Qed.


Lemma walk_dirs_mono (w w' : world) (r : string) (seen rest : list string) :
  (∀ q, FS.node_at w q = Some Dir → FS.node_at w' q = Some Dir) →
  FS.walk_dirs w r seen rest = None → FS.walk_dirs w' r seen rest = None.
Proof.
  intros Hmono. revert seen.
  induction rest as [|x rest IH]; intros seen; cbn [FS.walk_dirs]; [done|].
  destruct (FS.node_at w (mkPath r (seen ++ [x]))) as [[]|] eqn:Hn;
    [done| |done].
  rewrite (Hmono _ Hn). apply IH.
Qed.


(** An entry put where no directory was, in a directory. *)
Lemma wf_world_insert (w w' : world) (p : Path) (n : node) :
  wf_world w → wf_path p → parts p ≠ [] →
  FS.is_dir w p = false → FS.parent_error w p = None →
  w_fs w' = <[PathLib.str p := n]> (w_fs w) →
  wf_world w'.
Proof.
  intros Hwf Hp Hparts Hdir Hparent Hfs.
  assert (Hmono : ∀ q, FS.node_at w q = Some Dir →
                       FS.node_at w' q = Some Dir).
  { intros q. unfold FS.node_at. destruct (parts q) eqn:Hq; [done|].
    rewrite Hfs. intros Hn.
    destruct (decide (PathLib.str p = PathLib.str q)) as [Heq|Hne].
    - exfalso. revert Hdir. unfold FS.is_dir.
      rewrite node_at_nonempty by done. by rewrite Heq, Hn.
    - by rewrite lookup_insert_ne. }
  intros k x Hk. rewrite Hfs in Hk. unfold FS.parent_error.
  destruct (decide (PathLib.str p = k)) as [<-|Hne].
  - rewrite parse_str by done. by apply (walk_dirs_mono w).
  - rewrite lookup_insert_ne in Hk by done.
    apply (walk_dirs_mono w); [done|]. by apply (wf_world_lookup w k x).
Qed.

Lemma os_mkdir_wf (p : Path) (w w' : world) :
  wf_world w → wf_path p → FS.os_mkdir p w = inr w' → wf_world w'.
Proof.
  intros Hwf Hp. unfold FS.os_mkdir, Raise, Return.
  destruct (FS.node_at w p) eqn:Hnode; [done|].
  destruct (FS.parent_error w p) eqn:Hpar; [done|]. intros [= <-].
  apply (wf_world_insert w _ p Dir); try done.
  - intros Hnil. unfold FS.node_at in Hnode. by rewrite Hnil in Hnode.
  - unfold FS.is_dir. by rewrite Hnode.
Qed.

Lemma mkdir_exist_ok_wf (p : Path) (w w' : world) :
  wf_world w → wf_path p → FS.mkdir_exist_ok p w = inr w' → wf_world w'.
Proof.
  intros Hwf Hp. unfold FS.mkdir_exist_ok, Raise, Return.
  destruct (FS.os_mkdir p w) as [e|w''] eqn:E.
  - assert (Hdir : (if FS.is_dir w p then inr w else inl e)
                   = (inr w' : result world) → wf_world w').
    { destruct (FS.is_dir w p); [|done]. by intros [= <-]. }
    destruct e as [| [] | | |]; done.
  - intros [= <-]. by eapply os_mkdir_wf.
Qed.

Lemma mkdir_parents_rev_wf (r : string) (rev_parts : list string)
    (w w' : world) :
  wf_world w → r ∈ [""; "/"; "//"] → Forall simple_name rev_parts →
  FS.mkdir_parents_rev r rev_parts w = inr w' → wf_world w'.
Proof.
  intros Hwf Hr. revert w w' Hwf.
  induction rev_parts as [|x up IH]; intros w w' Hwf Hps;
    cbn [FS.mkdir_parents_rev]; unfold Raise, Return;
    set (p := mkPath r (rev _));
    (assert (Hp : wf_path p)
       by (split; [done|]; cbn [parts]; by apply Forall_rev));
    destruct (FS.os_mkdir p w) as [e|w''] eqn:E.
  - assert (Hdir : (if FS.is_dir w p then inr w else inl e)
                   = (inr w' : result world) → wf_world w').
    { destruct (FS.is_dir w p); [|done]. by intros [= <-]. }
    destruct e as [| [] | | |]; done.
  - intros [= <-]. by eapply os_mkdir_wf.
  - assert (Hdir : (if FS.is_dir w p then inr w else inl e)
                   = (inr w' : result world) → wf_world w').
    { destruct (FS.is_dir w p); [|done]. by intros [= <-]. }
    destruct e as [| [] | | |]; try done.
    destruct (FS.mkdir_parents_rev r up w) as [e'|w1] eqn:Eup; [done|].
    intros Hself. inversion Hps; subst.
    eapply mkdir_exist_ok_wf; [|done|exact Hself]. by eapply IH.
  - intros [= <-]. by eapply os_mkdir_wf.
Qed.

Lemma mkdir_parents_wf (p : Path) (w w' : world) :
  wf_world w → wf_path p → FS.mkdir_parents p w = inr w' → wf_world w'.
Proof.
  intros Hwf [Hr Hps]. unfold FS.mkdir_parents.
  apply mkdir_parents_rev_wf; [done..|]. by apply Forall_rev.
Qed.


Lemma save_output_wf (w w' : world) (content output_path : string)
    (saved : bool) :
  wf_world w → save_output w content output_path = (w', saved) →
  wf_world w'.
Proof.
  intros Hwf.
  unfold save_output, FS.open_w, FS.write, FS.set_node, Return, Raise.
  set (p := PathLib.parse output_path).
  pose proof (parse_wf output_path) as Hp. fold p in Hp.
  destruct (FS.node_at w p) as [[d|]|] eqn:Hnode.
  - assert (Hparts : parts p ≠ []).
    { intros Hnil. unfold FS.node_at in Hnode. by rewrite Hnil in Hnode. }
    assert (Hpar : FS.parent_error w p = None).
    { rewrite node_at_nonempty in Hnode by done.
      apply (wf_world_lookup w) in Hnode; [|done].
      by rewrite parse_str in Hnode. }
    cbn [w_fs w_free].
    destruct (_ <=? _)%N; intros [= <- <-];
      (eapply (wf_world_insert w _ p);
       [done|done|done|unfold FS.is_dir; by rewrite Hnode|done
       |cbn [w_fs]; apply insert_insert_eq]).
  - by intros [= <- <-].
  - destruct (FS.parent_error w p) eqn:Hpar; [by intros [= <- <-]|].
    assert (Hparts : parts p ≠ []).
    { intros Hnil. unfold FS.node_at in Hnode. by rewrite Hnil in Hnode. }
    cbn [w_fs w_free].
    destruct (_ <=? _)%N; intros [= <- <-];
      (eapply (wf_world_insert w _ p);
       [done|done|done|unfold FS.is_dir; by rewrite Hnode|done
       |cbn [w_fs]; apply insert_insert_eq]).
Qed.

Lemma batch_try_wf (b : backend) (o : options) (w : world)
    (file_path : string) :
  wf_world w → wf_world (batch_try b o w file_path).1.
Proof.
  intros Hwf. unfold batch_try.
  destruct (validate_input_file w file_path) as [[] msg]; [|done].
  destruct (converters b !! _) as [conv|]; [|done].
  destruct (create_output_path w file_path (output_dir o) (output_format o))
    as [e|[w1 out]] eqn:Hpath; [done|].
  apply create_output_path_inv in Hpath as (Hmk & _).
  apply mkdir_parents_wf in Hmk; [|done|apply parse_wf].
  destruct (batch_convert b conv o w1 file_path _) as [e|content]; [done|].
  destruct (save_output w1 content out) as [w2 saved] eqn:Hsave.
  apply save_output_wf in Hsave; [|done]. by destruct saved.
Qed.

Lemma attempt_all_wf (b : backend) (o : options) (files : list string)
    (w : world) :
  wf_world w → wf_world (attempt_all b o files w).1.
Proof.
  revert w. induction files as [|f files IH]; intros w Hwf;
    cbn [attempt_all]; [done|].
  pose proof (batch_try_wf b o w f Hwf) as H1.
  destruct (batch_try b o w f) as [w1 r]. specialize (IH w1 H1).
  by destruct (attempt_all b o files w1) as [w2 rs].
Qed.

(** X19. The commands keep the file system well formed: when every entry
    lies in a directory before a run of [batch] or of [convert], this is
    so afterwards, however the run ends; no file is ever written in a
    place that is not a directory. *)
Theorem commands_keep_world_well_formed
    (gm : string → bool → world → list string)
    (b : backend) (o : options) (w : world) (input_directory : string)
    (recursive : bool) (max_files : Z) (continue_on_error : bool)
    (input_file : string) :
  wf_world w →
  wf_world (final_world (batch gm b o w input_directory recursive max_files
                               continue_on_error))
  ∧ wf_world (convert b o w input_file).1.
Proof.
  intros Hwf. split.
  - rewrite batch_unfold.
    match goal with
    | |- context [batch_run _ _ _ ?lim0 ?l0 _] =>
        destruct (batch_run_attempts b o continue_on_error lim0 l0 w)
          as (k & w' & rs & _ & Hatt & -> & _);
        pose proof (attempt_all_wf b o (take k l0) w Hwf) as H
    end.
    by rewrite Hatt in H.
  - rewrite convert_world. by apply batch_try_wf.
Qed.

Lemma commands_keep_world_well_formed_witness :
  wf_world (final_world (batch Sample.no_magic Sample.b Sample.markdown
                               Sample.w "docs" true 50 true))
  ∧ wf_world (convert Sample.b Sample.markdown Sample.w "docs/a.xlsx").1.
Proof.
  apply (commands_keep_world_well_formed Sample.no_magic Sample.b
           Sample.markdown Sample.w "docs" true 50 true "docs/a.xlsx").
  apply (bool_decide_unpack _). vm_compute. reflexivity.
Defined.






(** * The output directory *)



Lemma attempt_all_blocked (b : backend) (o : options) (files : list string)
    (w : world) (e : exn) :
  FS.mkdir_parents (PathLib.parse (output_dir o)) w = inl e →
  (attempt_all b o files w).1 = w
  ∧ Forall (λ r, succeeded r = false) (attempt_all b o files w).2.
Proof.
  intros Hmk. induction files as [|f files IH]; cbn [attempt_all];
    [by split|].
  assert (Htry : (batch_try b o w f).1 = w
                 ∧ succeeded (batch_try b o w f).2 = false).
  { unfold batch_try.
    destruct (validate_input_file w f) as [[] msg]; [|done].
    destruct (converters b !! _); [|done].
    unfold create_output_path. by rewrite Hmk. }
  destruct (batch_try b o w f) as [w1 r]. cbn [fst snd] in Htry.
  destruct Htry as [-> Hr].
  destruct (attempt_all b o files w) as [w2 rs]. cbn [fst snd] in *.
  destruct IH as [-> Hrs]. split; [done|]. by constructor.
Qed.

(** X23. A batch whose output directory cannot be created writes nothing
    and converts nothing: every record is a failure and the file system is
    as it was.  With [--continue-on-error] every file is still attempted
    and the exit code is 0; without it the batch stops after the first
    file with exit code 1. *)
Theorem batch_with_blocked_output_dir
    (b : backend) (o : options) (continue_on_error lim : bool)
    (files : list string) (w : world) (e : exn) :
  FS.mkdir_parents (PathLib.parse (output_dir o)) w = inl e →
  let out := batch_run b o continue_on_error lim files w in
  final_world out = w
  ∧ Forall (λ r, success r = false ∧ output_file r = "N/A") (results out)
  ∧ successful_conversions out = 0
  ∧ failed_conversions out = length (results out)
  ∧ length (results out)
    = (if continue_on_error then length files else min 1 (length files))
  ∧ exit_code out
    = (if continue_on_error then 0%Z
       else if bool_decide (files = []) then 0%Z else 1%Z).
Proof.
  intros Hmk out.
  destruct (batch_run_attempts b o continue_on_error lim files w)
    as (k & w' & rs & Hk & Hatt & Hw & Hres & Hsucc & Hc & Hnc).
  fold out in Hw, Hres, Hsucc.
  pose proof (attempt_all_take_length _ _ _ _ _ _ Hatt) as Hlen.
  destruct (attempt_all_blocked b o (take k files) w e Hmk) as [Hw' Hfail].
  rewrite Hatt in Hw', Hfail. cbn [fst snd] in Hw', Hfail. subst w'.
  assert (Hzero : length (filter (λ r, succeeded r = true) rs) = 0).
  { clear -Hfail. induction Hfail as [|r l Hr _ IH]; [done|].
    rewrite filter_cons. case_decide; [congruence|done]. }
  assert (Hrecs : Forall (λ r, success r = false ∧ output_file r = "N/A")
                         (results out)).
  { rewrite Hres. clear -Hfail Hlen. revert rs Hfail Hlen.
    induction (take k files) as [|f fs IH]; intros [|r rs] Hfail Hlen;
      try done.
    unfold records in *. cbn [zip_with]. inversion Hfail; subst.
    constructor; [by destruct r|]. apply IH; [done|by injection Hlen]. }
  assert (Hlr : length (results out) = k).
  { rewrite Hres, records_length by done. rewrite <- Hlen, length_take. lia. }
  assert (Hfc : failed_conversions out
                = length (results out) - successful_conversions out
                ∧ exit_code out
                  = if bool_decide
                         (0 < length (results out)
                              - successful_conversions out)
                       && negb continue_on_error
                    then 1%Z else 0%Z).
  { subst out. unfold batch_run.
    by destruct (batch_loop _ _ _ _ _ _ _) as [[? ?] ?]. }
  destruct Hfc as [Hfc Hec].
  assert (Hk' : k = if continue_on_error then length files
                    else min 1 (length files)).
  { destruct continue_on_error; [by apply Hc|].
    destruct (Hnc eq_refl) as [[-> Hall]|(rs' & e' & -> & Hall)].
    - rewrite firstn_all in Hlen. destruct rs as [|r rs]; [by rewrite Hlen|].
      inversion Hall; inversion Hfail; congruence.
    - destruct rs' as [|r rs'].
      + cbn in Hlen. rewrite length_take in Hlen. lia.
      + inversion Hall; inversion Hfail; congruence. }
  split; [done|]. split; [done|]. split; [lia|]. split; [lia|].
  split; [lia|]. rewrite Hec, Hsucc, Hzero, Hlr, Hk'.
  destruct continue_on_error; cbn [negb]; [by rewrite andb_false_r|].
  rewrite andb_true_r. destruct files; [done|]. cbn [length].
  by rewrite bool_decide_eq_true_2 by (cbn; lia).
Qed.

Lemma batch_with_blocked_output_dir_witness :
  let o := mkOptions "markdown" "notes.txt" false false false false in
  let out := batch_run Sample.b o true false
               ["docs/a.xlsx"; "docs/b.docx"] Sample.w in
  final_world out = Sample.w
  ∧ length (results out) = 2
  ∧ exit_code out = 0%Z.
Proof.
  intros o out.
  destruct (batch_with_blocked_output_dir Sample.b o true false
              ["docs/a.xlsx"; "docs/b.docx"] Sample.w
              (OSError EEXIST "notes.txt"))
    as (Hw & _ & _ & _ & Hl & He); [vm_compute; reflexivity|].
  done.
Defined.

(** * Formats *)

(** X24. The post-processing options act on Markdown only.  For any other
    format the four flags are ignored without a word, and the
    post-processor is not called: [batch] and [convert] behave exactly as
    they do with no flag set, whatever the post-processor would have
    done. *)
Theorem post_processing_only_for_markdown (b : backend) (o : options)
    (w : world) (file_path : string) (other : processor) :
  output_format o ≠ "markdown" →
  let plain :=
    mkOptions (output_format o) (output_dir o) false false false false in
  let b' :=
    mkBackend (ExcelConverter b) (WordConverter b) (PptConverter b) other in
  batch_try b o w file_path = batch_try b' plain w file_path
  ∧ convert b o w file_path = convert b' plain w file_path.
Proof.
  intros Hfmt plain b'. apply String.eqb_neq in Hfmt.
  assert (Hconv : converters b' = converters b) by done.
  unfold batch_try, convert, batch_convert. rewrite Hconv.
  subst plain. cbn [output_format output_dir]. rewrite Hfmt. done.
Qed.

Lemma post_processing_only_for_markdown_witness :
  batch_try Sample.b
    (mkOptions "html" "out" true false true true) Sample.w "docs/b.docx"
  = batch_try Sample.b
      (mkOptions "html" "out" false false false false) Sample.w
      "docs/b.docx".
Proof.
  apply (post_processing_only_for_markdown Sample.b
           (mkOptions "html" "out" true false true true) Sample.w
           "docs/b.docx" Sample.marks).
  discriminate.
Defined.

(** X25. A file is saved only for one of the three formats of
    [OUTPUT_FORMATS], under the extension of the format: when [batch] or
    [convert] succeeds, the format is [markdown], [html] or [json] and the
    output path ends in [.md], [.html] or [.json] accordingly; its name is
    the stem of the input, possibly followed by [_k], and the extension.
    The fallback [.txt] of [create_output_path] never names a saved file:
    with any other format the conversion step fails, in both commands. *)
Theorem saved_output_has_format_extension (b : backend) (o : options)
    (w w' : world) (file_path out : string) :
  batch_try b o w file_path = (w', inr out)
  ∨ convert b o w file_path = (w', Converted out) →
  output_format o ∈ OUTPUT_FORMATS
  ∧ output_ext (output_format o) ∈ [".md"; ".html"; ".json"]
  ∧ Str.has_suffix (output_ext (output_format o)) out = true
  ∧ ∃ k, PathLib.name (PathLib.parse out)
         = candidate_name (PathLib.stem (PathLib.parse file_path))
                          (output_ext (output_format o)) k.
Proof.
  intros Hok.
  assert (Htry : batch_try b o w file_path = (w', inr out)).
  { destruct Hok as [?|Hc]; [done|].
    pose proof (convert_vs_batch_try b o w file_path) as H.
    destruct (batch_try b o w file_path) as [w2 [e|out2]].
    - rewrite Hc in H. by destruct (H out).
    - rewrite H in Hc. by injection Hc as -> ->. }
  apply batch_try_success in Htry
    as (w1 & conv & content & j & _ & _ & Hconv & -> & _).
  assert (Hfmt : output_format o ∈ OUTPUT_FORMATS).
  { revert Hconv. unfold batch_convert, OUTPUT_FORMATS.
    destruct (String.eqb_spec (output_format o) "markdown") as [->|_];
      [intros _; list_in|].
    destruct (String.eqb_spec (output_format o) "html") as [->|_];
      [intros _; list_in|].
    destruct (String.eqb_spec (output_format o) "json") as [->|_];
      [intros _; list_in|done]. }
  split; [done|]. split.
  { unfold OUTPUT_FORMATS in Hfmt. list_inv Hfmt; rewrite Hfmt; list_in. }
  split.
  - rewrite str_candidate.
    set (stem := PathLib.stem _). set (ext := output_ext _).
    destruct j; cbn [candidate_name].
    + rewrite <- app_assoc_str. apply has_suffix_app.
    + rewrite <- !app_assoc_str. apply has_suffix_app.
  - exists j. rewrite parse_str_candidate, candidate_parts.
    apply name_snoc.
Qed.

Lemma saved_output_has_format_extension_witness :
  Str.has_suffix (output_ext "markdown") "out/a.md" = true.
Proof.
  apply (saved_output_has_format_extension Sample.b Sample.markdown Sample.w
           (batch_try Sample.b Sample.markdown Sample.w "docs/a.xlsx").1
           "docs/a.xlsx" "out/a.md").
  left. vm_compute. reflexivity.
Defined.
